(** * The registration coordinator of the Pathos API, over its two stores

    A shallow embedding of [services/authService.js] (initializeSystem,
    register, checkSecret, fetchEntityInfo, getAncestorInfo), of the wrapper
    module [utils/pathchain.js] and of the Sequelize models Entity, Secret and
    Login, followed by the properties of the dual-write registration protocol.

    - JavaScript strings are [string]s of one-byte code units.
    - The relational store is a record of three tables, each a list of rows in
      insertion order. The tables are MyISAM (the schema that
      services/dbInit.js loads): a statement changes the table at once, and
      the COMMIT and ROLLBACK of a Sequelize transaction leave the tables as
      they are.
    - The PathChain library is an npm dependency: it is an interface
      ([PathChain]) over an abstract ledger state, and the module-level
      variable [pathchain] is [None] when [require] failed.
    - [async] functions run sequentially in a state monad with JavaScript's
      two non-local exits: [return] and [throw]. *)

From Stdlib Require Import String Ascii List Arith PeanoNat NArith Bool Lia.
Import ListNotations.
Local Open Scope string_scope.
Local Open Scope nat_scope.

Set Implicit Arguments.

(* ------------------------------------------------------------------ *)
(** ** String primitives of the JavaScript runtime *)

(** White space removed by [String.prototype.trim], among one-byte code
    units: TAB, LF, VT, FF, CR, SPACE and NBSP. *)
Definition is_ws (c : ascii) : bool :=
  let n := nat_of_ascii c in
  ((9 <=? n) && (n <=? 13)) || (n =? 32) || (n =? 160).

Fixpoint trimStart (s : string) : string :=
  match s with
  | EmptyString => EmptyString
  | String c t => if is_ws c then trimStart t else s
  end.

Fixpoint trimEnd (s : string) : string :=
  match s with
  | EmptyString => EmptyString
  | String c t =>
      match trimEnd t with
      | EmptyString => if is_ws c then EmptyString else String c EmptyString
      | t' => String c t'
      end
  end.

Definition trim (s : string) : string := trimEnd (trimStart s).

(** [s.startsWith(p)] *)
Definition startsWith (p s : string) : bool := prefix p s.

(** [s.substring(n)] *)
Fixpoint substring_from (n : nat) (s : string) : string :=
  match n, s with
  | O, _ => s
  | S _, EmptyString => EmptyString
  | S n', String _ t => substring_from n' t
  end.

(** [hay.includes(needle)] *)
Fixpoint includes (needle hay : string) : bool :=
  prefix needle hay
  || match hay with
     | EmptyString => false
     | String _ t => includes needle t
     end.

(** The character class [[a-f0-9]] under the [i] flag. *)
Definition is_hex (c : ascii) : bool :=
  let n := nat_of_ascii c in
  ((48 <=? n) && (n <=? 57)) || ((97 <=? n) && (n <=? 102))
  || ((65 <=? n) && (n <=? 70)).

Fixpoint all_hex (s : string) : bool :=
  match s with
  | EmptyString => true
  | String c t => is_hex c && all_hex t
  end.

(** [/^[a-f0-9]{64}$/i.test(s)] *)
Definition test_hash64 (s : string) : bool :=
  (String.length s =? 64) && all_hex s.

(** Last component of [s.split('/')]: what follows the last slash. *)
Fixpoint last_segment_from (acc s : string) : string :=
  match s with
  | EmptyString => acc
  | String c t =>
      if Ascii.eqb c "/"%char then last_segment_from t t
      else last_segment_from acc t
  end.

Definition last_segment (s : string) : string := last_segment_from s s.

(** [s.replace(/^entities\//, '')] *)
Definition strip_entities (s : string) : string :=
  if startsWith "entities/" s then substring_from 9 s else s.

(** Truthiness of a string: only the empty string is falsy. *)
Definition truthy (s : string) : bool :=
  match s with EmptyString => false | _ => true end.

(* ------------------------------------------------------------------ *)
(** ** utils/pathchain.js: the pure helpers *)

Definition extractHash (path : string) : string :=
  if truthy path then last_segment path else "".

Definition normalizeSecretHash (secretInput : string) : string :=
  if truthy secretInput then
    let trimmed := trim secretInput in
    if startsWith "secrets/" trimmed then substring_from 8 trimmed
    else trimmed
  else "".

(* ------------------------------------------------------------------ *)
(** ** ErrorCodes *)

Inductive ErrorCode :=
| INVALID_SECRET | USED_SECRET | INVALID_REQUEST | INVALID_CREDENTIALS
| INVALID_TOKEN | ANCESTOR_NOT_FOUND | USERNAME_EXISTS
| PIONEER_CREATION_FAILED | PIONEER_SECRET_NOT_FOUND
| ENTITY_RETRIEVAL_FAILED | PIONEER_RETRIEVAL_FAILED | DATABASE_ERROR.

Definition code_number (c : ErrorCode) : N :=
  match c with
  | INVALID_SECRET => 40100
  | USED_SECRET => 40101
  | INVALID_REQUEST => 40102
  | INVALID_CREDENTIALS => 40103
  | INVALID_TOKEN => 40104
  | ANCESTOR_NOT_FOUND => 40105
  | USERNAME_EXISTS => 40106
  | PIONEER_CREATION_FAILED => 50001
  | PIONEER_SECRET_NOT_FOUND => 50002
  | ENTITY_RETRIEVAL_FAILED => 50003
  | PIONEER_RETRIEVAL_FAILED => 50004
  | DATABASE_ERROR => 50005
  end%N.

Record ErrorInfo := { code : ErrorCode; message : string }.

(* ------------------------------------------------------------------ *)
(** ** The relational store (models Entity, Secret, Login) *)

Record EntityRow := {
  e_id : nat;
  e_path : string;
  e_ancestor_id : option nat
}.

Record SecretRow := {
  s_id : nat;
  s_path : string;
  s_owner_id : nat;
  s_owner_type_id : nat;
  s_used_at : option nat
}.

Record LoginRow := {
  l_id : string;
  l_entity_id : nat;
  l_password : string;
  l_secret : option string
}.

Record DB := {
  entity : list EntityRow;
  secret : list SecretRow;
  login : list LoginRow
}.

Definition empty_db : DB := {| entity := []; secret := []; login := [] |}.

(** [OwnerType.ENTITY] *)
Definition OwnerType_ENTITY : nat := 1.

(** The value an AUTO_INCREMENT column gives the next row. *)
Definition next_id (ids : list nat) : nat := S (list_max ids).

(** Statements that can fail for reasons outside the program (lost
    connection, lock timeout, full disk). *)
Inductive DbOp :=
| OpEntityCreate | OpSecretCreate | OpSecretSave | OpLoginCreate
| OpBegin | OpCommit.

Inductive Table := TEntity | TSecret | TLogin.

(* ------------------------------------------------------------------ *)
(** ** The PathChain library, as the program sees it *)

(** A decoded protocol-buffer message. A field that a record kind does not
    carry reads as the empty string (or [false]). *)
Record PCObj := {
  o_tag : string;
  o_register : string;
  o_ancestor : string;
  o_author : string;
  o_user : string;
  o_used : bool
}.

(** What the getters return: an object, an error string, or nothing. *)
Inductive pcval := PObj (o : PCObj) | PStr (s : string) | PNull.

(** What [isSecretUsed] returns: a boolean or an error string. *)
Inductive used_answer := UBool (b : bool) | UStr (s : string).

(** A call either returns or throws an [Error] with a message. *)
Inductive thrown (A : Type) := Returned (a : A) | Threw (msg : string).
Arguments Returned {A} a.
Arguments Threw {A} msg.

Record PathChain (L : Type) := {
  pc_makePioneer : L -> thrown string * L;
  pc_getPioneerObj : string -> L -> thrown pcval;
  pc_makeEntity : string -> L -> thrown string * L;
  pc_getEntityObj : string -> string -> L -> thrown pcval;
  pc_getSecretObj : string -> string -> L -> thrown pcval;
  pc_isSecretUsed : string -> L -> thrown used_answer;
  pc_useSecret : string -> L -> thrown pcval * L;
  pc_getObj : string -> L -> thrown pcval
}.

(** Everything outside the program that it calls. *)
Class Env (L : Type) := {
  (** the module variable [pathchain]; [None] when [require] failed *)
  pathchain : option (PathChain L);
  (** [fs.existsSync] and [fs.readdirSync] on [files/{hash}/secrets]:
      [None] when the directory does not exist *)
  readSecretsDir : string -> L -> thrown (option (list string));
  (** utils/crypto *)
  hashPassword : string -> string;
  (** utils/jwt, on [entityId], [username] and [path] *)
  generateToken : nat -> string -> string -> string;
  (** which statements fail *)
  db_fault : DbOp -> bool
}.

(** State-changing effects, oldest first. *)
Inductive Effect :=
| LedgerMakePioneer
| LedgerMakeEntity (secretHash : string)
| LedgerUseSecret (secretHash : string)
| DbBegin
| DbInsert (t : Table)
| DbUpdate (t : Table)
| DbCommit
| DbRollback.

(** A Sequelize transaction that has neither been committed nor rolled
    back. *)
Inductive Transaction := Active.

Record World (L : Type) := {
  db : DB;                   (* the tables *)
  tx : option Transaction;   (* the transaction in progress *)
  ledger : L;
  clock : nat;
  journal : list Effect
}.

Arguments db {L} w.
Arguments tx {L} w.
Arguments ledger {L} w.
Arguments clock {L} w.
Arguments journal {L} w.

(* ------------------------------------------------------------------ *)
(** ** The monad of an [async] function body *)

(** How a block ends: it falls through with a value, the enclosing function
    returns [r], or an exception propagates. *)
Inductive outcome (R A : Type) :=
| Val (a : A)
| Ret (r : R)
| Exn (msg : string).
Arguments Val {R A} a.
Arguments Ret {R A} r.
Arguments Exn {R A} msg.

Definition M (L R A : Type) : Type := World L -> outcome R A * World L.

Definition ret {L R A} (a : A) : M L R A := fun w => (Val a, w).

Definition bind {L R A B} (m : M L R A) (k : A -> M L R B) : M L R B :=
  fun w =>
    match m w with
    | (Val a, w') => k a w'
    | (Ret r, w') => (Ret r, w')
    | (Exn e, w') => (Exn e, w')
    end.

(** [return r;] *)
Definition return_ {L R A} (r : R) : M L R A := fun w => (Ret r, w).

(** [throw new Error(msg);] *)
Definition throw {L R A} (msg : string) : M L R A := fun w => (Exn msg, w).

(** [try { body } catch (err) { handler }] *)
Definition try_catch {L R A} (body : M L R A) (handler : string -> M L R A)
  : M L R A :=
  fun w =>
    match body w with
    | (Exn e, w') => handler e w'
    | r => r
    end.

(** [await f(...)] where [f] is an [async] function of this program: its
    [return] is the value of the call, its exception propagates. *)
Definition call {L R A} (f : M L A A) : M L R A :=
  fun w =>
    match f w with
    | (Val a, w') => (Val a, w')
    | (Ret a, w') => (Val a, w')
    | (Exn e, w') => (Exn e, w')
    end.

(** [await f(...)] where [f] catches everything itself. *)
Definition await {L R A} (f : World L -> A * World L) : M L R A :=
  fun w => let (a, w') := f w in (Val a, w').

Declare Scope js_scope.
Delimit Scope js_scope with js.
Notation "x <- c ;; k" := (bind c (fun x => k))
  (at level 61, c at next level, right associativity) : js_scope.
Notation "c ;;; k" := (bind c (fun _ => k))
  (at level 61, right associativity) : js_scope.
Local Open Scope js_scope.

Definition get_world {L R} : M L R (World L) := fun w => (Val w, w).

Definition log_effect {L} (e : Effect) (w : World L) : World L :=
  {| db := db w; tx := tx w; ledger := ledger w; clock := clock w;
     journal := (journal w ++ [e])%list |}.

(** [new Date()] *)
Definition new_Date {L R} : M L R nat :=
  fun w => (Val (clock w),
            {| db := db w; tx := tx w; ledger := ledger w;
               clock := S (clock w); journal := journal w |}).

(* ------------------------------------------------------------------ *)
(** ** Sequelize: transactions and the three models *)

(** The [{ transaction }] option of a query. *)
Inductive TxOpt := NoTx | InTx.

(** The tables a query sees. The schema (pathwjzs_tpathos.sql, which
    services/dbInit.js runs; the models are never synced) creates entity,
    secret and login with ENGINE=MyISAM, which has no transactions: with
    the option or without, a query sees the tables themselves. *)
Definition view {L} (t : TxOpt) (w : World L) : DB := db w.

(** The tables a statement changes: on MyISAM the INSERT or UPDATE is
    applied to the table at once, with the option or without. *)
Definition store {L} (t : TxOpt) (d : DB) (w : World L) : World L :=
  {| db := d; tx := tx w; ledger := ledger w; clock := clock w;
     journal := journal w |}.

Arguments view {L} t w /.
Arguments store {L} t d w /.

Definition db_error (op : string) : string :=
  "SequelizeDatabaseError: " ++ op.

(** [sequelize.transaction()] *)
Definition sequelize_transaction {L R} {E : Env L} : M L R unit :=
  fun w =>
    if db_fault OpBegin then (Exn (db_error "transaction"), w)
    else (Val tt,
          log_effect DbBegin
            {| db := db w; tx := Some Active; ledger := ledger w;
               clock := clock w; journal := journal w |}).

(** [transaction.commit()]: the transaction is finished whether the COMMIT
    succeeds or fails; the tables have every row already. *)
Definition transaction_commit {L R} {E : Env L} : M L R unit :=
  fun w =>
    if db_fault OpCommit
    then (Exn (db_error "commit"),
          {| db := db w; tx := None; ledger := ledger w; clock := clock w;
             journal := journal w |})
    else (Val tt,
          log_effect DbCommit
            {| db := db w; tx := None; ledger := ledger w;
               clock := clock w; journal := journal w |}).

Definition rollback_finished : string :=
  "Transaction cannot be rolled back because it has been finished with state: commit".

(** [transaction.rollback()]: Sequelize refuses to roll back a finished
    transaction; the ROLLBACK of an active one succeeds and, the tables
    being MyISAM, removes nothing. *)
Definition transaction_rollback {L R} : M L R unit :=
  fun w =>
    match tx w with
    | Some Active =>
        (Val tt,
         log_effect DbRollback
           {| db := db w; tx := None; ledger := ledger w; clock := clock w;
              journal := journal w |})
    | None => (Exn rollback_finished, w)
    end.

Module Entity.

(** [ORDER BY id ASC LIMIT 1] *)
Fixpoint lowest_id (rows : list EntityRow) : option EntityRow :=
  match rows with
  | [] => None
  | r :: rest =>
      match lowest_id rest with
      | None => Some r
      | Some m => if e_id r <=? e_id m then Some r else Some m
      end
  end.

Definition is_root (r : EntityRow) : bool :=
  match e_ancestor_id r with None => true | Some _ => false end.

(** [Entity.findPioneer]: [findOne] where [ancestor_id] is null, lowest
    id first. *)
Definition findPioneer {L R} : M L R (option EntityRow) :=
  fun w => (Val (lowest_id (filter is_root (entity (view NoTx w)))), w).

(** [Entity.findOne({ where: { path } })] *)
Definition findOne {L R} (path : string) : M L R (option EntityRow) :=
  fun w =>
    (Val (find (fun r => String.eqb (e_path r) path) (entity (view NoTx w))),
     w).

(** [Entity.findByPk(id)] *)
Definition findByPk {L R} (id : nat) : M L R (option EntityRow) :=
  fun w => (Val (find (fun r => e_id r =? id) (entity (view NoTx w))), w).

(** [Entity.create({ path, ancestor_id }, { transaction })] *)
Definition create {L R} {E : Env L} (path : string) (ancestor_id : option nat)
    (t : TxOpt) : M L R EntityRow :=
  fun w =>
    if db_fault OpEntityCreate then (Exn (db_error "INSERT INTO entity"), w)
    else
      let d := view t w in
      let row := {| e_id := next_id (map e_id (entity d));
                    e_path := path;
                    e_ancestor_id := ancestor_id |} in
      (Val row,
       log_effect (DbInsert TEntity)
         (store t {| entity := (entity d ++ [row])%list;
                     secret := secret d;
                     login := login d |} w)).

End Entity.

Module Secret.

(** [Secret.findOne({ where: { path }, transaction })] *)
Definition findOne {L R} (path : string) (t : TxOpt)
  : M L R (option SecretRow) :=
  fun w =>
    (Val (find (fun r => String.eqb (s_path r) path) (secret (view t w))),
     w).

(** [Secret.findByPath(path)] *)
Definition findByPath {L R} (path : string) : M L R (option SecretRow) :=
  findOne path NoTx.

(** [Secret.create({ path, owner_id, owner_type_id, used_at },
    { transaction })] *)
Definition create {L R} {E : Env L} (path : string) (owner_id owner_type_id : nat)
    (used_at : option nat) (t : TxOpt) : M L R SecretRow :=
  fun w =>
    if db_fault OpSecretCreate then (Exn (db_error "INSERT INTO secret"), w)
    else
      let d := view t w in
      let row := {| s_id := next_id (map s_id (secret d));
                    s_path := path;
                    s_owner_id := owner_id;
                    s_owner_type_id := owner_type_id;
                    s_used_at := used_at |} in
      (Val row,
       log_effect (DbInsert TSecret)
         (store t {| entity := entity d;
                     secret := (secret d ++ [row])%list;
                     login := login d |} w)).

(** [row.save({ transaction })]: UPDATE of the row with this id. *)
Definition save {L R} {E : Env L} (row : SecretRow) (t : TxOpt) : M L R unit :=
  fun w =>
    if db_fault OpSecretSave then (Exn (db_error "UPDATE secret"), w)
    else
      let d := view t w in
      (Val tt,
       log_effect (DbUpdate TSecret)
         (store t {| entity := entity d;
                     secret := map (fun r => if s_id r =? s_id row
                                             then row else r) (secret d);
                     login := login d |} w)).

Definition set_used_at (row : SecretRow) (at_ : nat) : SecretRow :=
  {| s_id := s_id row; s_path := s_path row; s_owner_id := s_owner_id row;
     s_owner_type_id := s_owner_type_id row; s_used_at := Some at_ |}.

(** [Secret.prototype.markAsUsed] *)
Definition markAsUsed {L R} {E : Env L} (row : SecretRow) : M L R SecretRow :=
  now <- new_Date ;;
  save (set_used_at row now) NoTx ;;;
  ret (set_used_at row now).

(** [Secret.prototype.isUsed] *)
Definition isUsed (row : SecretRow) : bool :=
  match s_used_at row with None => false | Some _ => true end.

End Secret.

Module Login.

Definition has_id (username : string) (r : LoginRow) : bool :=
  String.eqb (l_id r) username.

(** [Login.usernameExists]: [count({ where: { id } }) > 0] *)
Definition usernameExists {L R} (username : string) : M L R bool :=
  fun w =>
    (Val (0 <? List.length (filter (has_id username) (login (view NoTx w)))),
     w).

(** [Login.findOne({ where: { entity_id } })] *)
Definition findOne {L R} (entity_id : nat) : M L R (option LoginRow) :=
  fun w =>
    (Val (find (fun r => l_entity_id r =? entity_id) (login (view NoTx w))),
     w).

(** [Login.create({ id, entity_id, password, secret }, { transaction })];
    [id] is the primary key, so a second row with it is refused. *)
Definition create {L R} {E : Env L} (id : string) (entity_id : nat)
    (password : string) (secret_ : option string) (t : TxOpt)
  : M L R LoginRow :=
  fun w =>
    let d := view t w in
    if db_fault OpLoginCreate then (Exn (db_error "INSERT INTO login"), w)
    else if existsb (has_id id) (login d)
    then (Exn "SequelizeUniqueConstraintError: PRIMARY must be unique", w)
    else
      let row := {| l_id := id; l_entity_id := entity_id;
                    l_password := password; l_secret := secret_ |} in
      (Val row,
       log_effect (DbInsert TLogin)
         (store t {| entity := entity d;
                     secret := secret d;
                     login := (login d ++ [row])%list |} w)).

End Login.

(* ------------------------------------------------------------------ *)
(** ** utils/pathchain.js: the wrappers around the library *)

Definition lib_unavailable : string := "PathChain library not available".

Definition isAvailable {L} {E : Env L} : bool :=
  match pathchain with Some _ => true | None => false end.

(** A wrapper around a library function that only reads the ledger. *)
Definition pc_read {L R A} {E : Env L} (f : PathChain L -> L -> thrown A)
  : M L R A :=
  fun w =>
    match pathchain with
    | None => (Exn lib_unavailable, w)
    | Some lib =>
        match f lib (ledger w) with
        | Returned a => (Val a, w)
        | Threw e => (Exn e, w)
        end
    end.

(** A wrapper around a library function that may write the ledger. *)
Definition pc_write {L R A} {E : Env L} (e : Effect)
    (f : PathChain L -> L -> thrown A * L) : M L R A :=
  fun w =>
    match pathchain with
    | None => (Exn lib_unavailable, w)
    | Some lib =>
        let (r, l') := f lib (ledger w) in
        let w' := log_effect e
                    {| db := db w; tx := tx w; ledger := l';
                       clock := clock w; journal := journal w |} in
        match r with
        | Returned a => (Val a, w')
        | Threw msg => (Exn msg, w')
        end
    end.

Definition createPioneer {L R} {E : Env L} : M L R string :=
  pc_write LedgerMakePioneer (fun lib => pc_makePioneer lib).

Definition getPioneer {L R} {E : Env L} (pioneerHash : string) : M L R pcval :=
  pc_read (fun lib => pc_getPioneerObj lib pioneerHash).

Definition createEntity {L R} {E : Env L} (secretHash : string) : M L R string :=
  pc_write (LedgerMakeEntity secretHash)
           (fun lib => pc_makeEntity lib secretHash).

(** [authorPath] defaults to [''] at the call sites that omit it. *)
Definition getEntity {L R} {E : Env L} (entityHash authorPath : string)
  : M L R pcval :=
  pc_read (fun lib => pc_getEntityObj lib entityHash authorPath).

Definition getSecret {L R} {E : Env L} (secretHash authorPath : string)
  : M L R pcval :=
  pc_read (fun lib => pc_getSecretObj lib secretHash authorPath).

Definition isSecretUsed {L R} {E : Env L} (secretHash : string)
  : M L R used_answer :=
  pc_read (fun lib => pc_isSecretUsed lib secretHash).

Definition useSecret {L R} {E : Env L} (secretHash : string) : M L R pcval :=
  pc_write (LedgerUseSecret secretHash)
           (fun lib => pc_useSecret lib secretHash).

Definition getObject {L R} {E : Env L} (address : string) : M L R pcval :=
  pc_read (fun lib => pc_getObj lib address).

(** [fs.existsSync(dir)] then [fs.readdirSync(dir)] on the secrets
    directory of [pioneerHash]. *)
Definition fs_secretFiles {L R} {E : Env L} (pioneerHash : string)
  : M L R (option (list string)) :=
  fun w =>
    match readSecretsDir pioneerHash (ledger w) with
    | Returned files => (Val files, w)
    | Threw e => (Exn e, w)
    end.

(** [!v || typeof v === 'string'] *)
Definition unusable (v : pcval) : bool :=
  match v with PObj _ => false | _ => true end.

(** The three-step lookup used for secrets and entities alike:
    [v = first(); if (typeof v === 'string') v = second();
     if (!v || typeof v === 'string') v = third();]
    inside one [try], so that an exception leaves [v] as last assigned
    ([null] before the first assignment). *)
Definition lookup_chain {L R} (first second third : M L R pcval)
  : M L R pcval :=
  try_catch
    (v1 <- first ;;
     try_catch
       (v2 <- match v1 with PStr _ => second | _ => ret v1 end ;;
        try_catch (if unusable v2 then third else ret v2)
                  (fun _ => ret v2))
       (fun _ => ret v1))
    (fun _ => ret PNull).

(** The same lookup where the second and third steps each sit in a [try]
    of their own, so that a failed step is skipped and the next one still
    runs (register). *)
Definition lookup_guarded {L R} (first second third : M L R pcval)
  : M L R pcval :=
  try_catch
    (v1 <- first ;;
     v2 <- match v1 with
           | PStr _ => try_catch second (fun _ => ret v1)
           | _ => ret v1
           end ;;
     if unusable v2 then try_catch third (fun _ => ret v2) else ret v2)
    (fun _ => ret PNull).

(* ------------------------------------------------------------------ *)
(** ** services/authService.js *)

Record InitResult := {
  init_pioneer : EntityRow;
  init_secret : option SecretRow;
  init_isNew : bool;
  init_secretHash : option string
}.

Definition first_file (files : option (list string)) : option string :=
  match files with
  | Some (f :: _) => Some f
  | _ => None
  end.

(** [`${v}`] for a getter result that is not an object. *)
Definition show_pcval (v : pcval) : string :=
  match v with
  | PStr s => s
  | PNull => "null"
  | PObj _ => "[object Object]"
  end.

(** The search for the secret PathChain made for the new pioneer: the
    first file of the pioneer's secrets directory, else the pioneer hash. *)
Definition pioneer_secret_hash {L R} {E : Env L} (pioneerHash : string)
  : M L R string :=
  try_catch
    (files <- fs_secretFiles pioneerHash ;;
     actualSecretHash <-
       match first_file files with
       | Some f =>
           try_catch
             (secretObj <- getSecret f ("entities/" ++ pioneerHash) ;;
              if unusable secretObj then getSecret f "" ;;; ret tt
              else ret tt)
             (fun _ => ret tt) ;;;
           ret f
       | None => ret ""
       end ;;
     if negb (truthy actualSecretHash) then
       try_catch (getSecret pioneerHash "" ;;; ret tt) (fun _ => ret tt) ;;;
       ret pioneerHash
     else ret actualSecretHash)
    (fun _ => ret pioneerHash).

Definition initializeSystem {L} {E : Env L} : M L InitResult InitResult :=
  try_catch
    (pioneer <- Entity.findPioneer ;;
     match pioneer with
     | Some p =>
         let pioneerHash := last_segment (e_path p) in
         actualSecretHash <-
           try_catch (files <- fs_secretFiles pioneerHash ;;
                      ret (first_file files))
                     (fun _ => ret None) ;;
         return_ {| init_pioneer := p; init_secret := None;
                    init_isNew := false;
                    init_secretHash := actualSecretHash |}
     | None =>
         pioneerHash <- createPioneer ;;
         (if negb (truthy pioneerHash) || includes "error" pioneerHash
          then throw ("Failed to create pioneer in PathChain: " ++ pioneerHash)
          else ret tt) ;;;
         pioneerObj <- getPioneer pioneerHash ;;
         match pioneerObj with
         | PObj o =>
             p <- Entity.create (o_tag o) None NoTx ;;
             actualSecretHash <- pioneer_secret_hash pioneerHash ;;
             let secretPath := "secrets/" ++ actualSecretHash in
             secret_ <-
               try_catch
                 (found <- Secret.findByPath secretPath ;;
                  match found with
                  | Some s => ret (Some s)
                  | None =>
                      s <- Secret.create secretPath (e_id p) OwnerType_ENTITY
                                         None NoTx ;;
                      ret (Some s)
                  end)
                 (fun _ => ret None) ;;
             return_ {| init_pioneer := p; init_secret := secret_;
                        init_isNew := true;
                        init_secretHash := Some actualSecretHash |}
         | v =>
             throw ("Failed to retrieve pioneer from PathChain: "
                    ++ show_pcval v)
         end
     end)
    (fun error => throw error).

Record EntitySummary := {
  sum_id : nat;
  sum_path : string;
  sum_username : string
}.

Inductive RegisterResult :=
| Success (token : string) (entity_ : EntitySummary)
| Failure (error : ErrorInfo).

Definition failure (c : ErrorCode) (msg : string) : RegisterResult :=
  Failure {| code := c; message := msg |}.

(** [v || null] for a string [v] *)
Definition or_null (v : string) : option string :=
  if truthy v then Some v else None.

(** register, lines 225-254: no secret was given. *)
Definition register_bootstrap {L} {E : Env L} : M L RegisterResult EntityRow :=
  pioneer <- Entity.findPioneer ;;
  match pioneer with
  | Some _ => return_ (failure INVALID_SECRET
                               "Secret is required for registration")
  | None =>
      init <- call initializeSystem ;;
      if negb (init_isNew init)
      then return_ (failure INVALID_SECRET
                            "Secret is required for registration")
      else
        match init_secret init with
        | Some pioneerSecret => Secret.markAsUsed pioneerSecret ;;; ret tt
        | None => ret tt
        end ;;;
        ret (init_pioneer init)
  end.

(** register, lines 266-323: the usage check and the secret object. *)
Definition register_secret {L} {E : Env L} (normalizedSecretHash : string)
  : M L RegisterResult PCObj :=
  isUsed <- try_catch (isSecretUsed normalizedSecretHash)
                      (fun _ => ret (UBool false)) ;;
  match isUsed with
  | UStr _ => ret tt
  | UBool true => return_ (failure USED_SECRET "Secret has already been used")
  | UBool false => ret tt
  end ;;;
  secretObj <-
    lookup_guarded (getSecret normalizedSecretHash "")
                   (getSecret normalizedSecretHash "")
                   (getObject ("secrets/" ++ normalizedSecretHash)) ;;
  match secretObj with
  | PObj o => ret o
  | PStr s => return_ (failure INVALID_SECRET ("Invalid secret: " ++ s))
  | PNull => return_ (failure INVALID_SECRET
                        ("Invalid secret: " ++ "Secret not found in PathChain"))
  end.

(** The test [isErrorMessage] on what [createEntity] gave. *)
Definition isErrorMessage (entityHash : string) : bool :=
  let isValidHash := test_hash64 (trim entityHash) in
  includes "error" entityHash
  || includes "used" entityHash
  || includes "already" entityHash
  || includes "not found" entityHash
  || includes "not identified" entityHash
  || includes "Updater" entityHash
  || negb (String.length entityHash =? 64)
  || negb isValidHash.

(** register, lines 337-408: the mint and the reading of its result. *)
Definition register_mint {L} {E : Env L} (normalizedSecretHash : string)
  : M L RegisterResult string :=
  entityHash <- try_catch (createEntity normalizedSecretHash)
                          (fun err => ret ("error: " ++ err)) ;;
  if negb (truthy entityHash) then
    return_ (failure ENTITY_RETRIEVAL_FAILED
               "Failed to create entity in PathChain: No result returned")
  else if isErrorMessage entityHash then
    let errorMsg := entityHash in
    (if includes "used" errorMsg || includes "already" errorMsg then
       isUsedCheck <- isSecretUsed normalizedSecretHash ;;
       match isUsedCheck with
       | UBool true =>
           return_ (failure USED_SECRET "Secret has already been used")
       | _ => ret tt
       end
     else ret tt) ;;;
    if includes "Updater" errorMsg || includes "not identified" errorMsg
       || includes "not found" errorMsg
    then return_ (failure INVALID_SECRET
                    ("Invalid secret: " ++ errorMsg ++
                     ". The secret may have already been used or does not exist."))
    else return_ (failure ENTITY_RETRIEVAL_FAILED
                    ("Failed to create entity in PathChain: " ++ errorMsg))
  else ret entityHash.

(** register, lines 413-461: the minted entity's object. *)
Definition register_entityObj {L} {E : Env L} (entityHash : string)
    (secretObj : PCObj) : M L RegisterResult PCObj :=
  entityObj <-
    lookup_guarded (getEntity entityHash "")
                   (getEntity entityHash (o_author secretObj))
                   (getObject ("entities/" ++ entityHash)) ;;
  let fail_with errorMsg :=
    return_ (failure ENTITY_RETRIEVAL_FAILED
               ("Failed to retrieve entity from PathChain: " ++ errorMsg ++
                ". Entity hash: " ++ entityHash)) in
  match entityObj with
  | PObj o => ret o
  | PStr s => fail_with s
  | PNull => fail_with "Entity not found in PathChain"
  end.

(** register, lines 469-544: the three rows in one transaction, then the
    confirmation to PathChain. *)
Definition register_transaction {L} {E : Env L}
    (normalizedSecretHash username password : string)
    (ancestorEntity : EntityRow) (entityObj : PCObj)
  : M L RegisterResult EntityRow :=
  sequelize_transaction ;;;
  try_catch
    (entity_ <- Entity.create (o_tag entityObj) (Some (e_id ancestorEntity))
                              InTx ;;
     let secretPath := "secrets/" ++ normalizedSecretHash in
     dbSecret <- Secret.findOne secretPath InTx ;;
     match dbSecret with
     | Some s =>
         now <- new_Date ;;
         Secret.save (Secret.set_used_at s now) InTx
     | None =>
         now <- new_Date ;;
         Secret.create secretPath (e_id ancestorEntity) OwnerType_ENTITY
                       (Some now) InTx ;;;
         ret tt
     end ;;;
     let hashedPassword := hashPassword password in
     Login.create username (e_id entity_) hashedPassword
                  (or_null normalizedSecretHash) InTx ;;;
     transaction_commit ;;;
     try_catch (useSecret normalizedSecretHash ;;; ret tt)
               (fun _ => ret tt) ;;;
     ret entity_)
    (fun dbError => transaction_rollback ;;; throw dbError).

(** register, lines 266-544: PathChain is available. *)
Definition register_online {L} {E : Env L}
    (normalizedSecretHash username password : string)
  : M L RegisterResult EntityRow :=
  secretObj <- register_secret normalizedSecretHash ;;
  ancestorEntity <- Entity.findOne (o_author secretObj) ;;
  match ancestorEntity with
  | None => return_ (failure ANCESTOR_NOT_FOUND
                       "Ancestor entity not found in database")
  | Some ancestor =>
      entityHash <- register_mint normalizedSecretHash ;;
      entityObj <- register_entityObj entityHash secretObj ;;
      register_transaction normalizedSecretHash username password
                           ancestor entityObj
  end.

(** register, lines 545-593: PathChain is not available. *)
Definition register_offline {L} {E : Env L}
    (secretHash normalizedSecretHash username password : string)
  : M L RegisterResult EntityRow :=
  found <- Entity.findPioneer ;;
  ancestorEntity <-
    match found with
    | Some a => ret a
    | None => init <- call initializeSystem ;; ret (init_pioneer init)
    end ;;
  sequelize_transaction ;;;
  try_catch
    (entity_ <- Entity.create ("entities/" ++ normalizedSecretHash)
                              (Some (e_id ancestorEntity)) InTx ;;
     let secretPath := "secrets/" ++ normalizedSecretHash in
     now <- new_Date ;;
     Secret.create secretPath (e_id ancestorEntity) OwnerType_ENTITY
                   (Some now) InTx ;;;
     let hashedPassword := hashPassword password in
     let storedSecretHash := normalizeSecretHash secretHash in
     Login.create username (e_id entity_) hashedPassword
                  (or_null storedSecretHash) InTx ;;;
     transaction_commit ;;;
     ret entity_)
    (fun dbError => transaction_rollback ;;; throw dbError).

Definition register_body {L} {E : Env L} (secretHash username password : string)
  : M L RegisterResult RegisterResult :=
  (if negb (truthy username) || (255 <? String.length username)
   then return_ (failure INVALID_REQUEST
                   "Username is required and must be max 255 characters")
   else ret tt) ;;;
  (if negb (truthy password)
   then return_ (failure INVALID_REQUEST "Password is required")
   else ret tt) ;;;
  taken <- Login.usernameExists username ;;
  (if taken : bool
   then return_ (failure USERNAME_EXISTS "Username already exists")
   else ret tt) ;;;
  entity_ <-
    (if negb (truthy secretHash) then register_bootstrap
     else
       let normalizedSecretHash := normalizeSecretHash secretHash in
       if negb (truthy normalizedSecretHash)
       then return_ (failure INVALID_SECRET "Invalid secret format")
       else if isAvailable
            then register_online normalizedSecretHash username password
            else register_offline secretHash normalizedSecretHash
                                  username password) ;;
  let token := generateToken (e_id entity_) username (e_path entity_) in
  return_ (Success token {| sum_id := e_id entity_;
                            sum_path := e_path entity_;
                            sum_username := username |}).

(** The function as its callers see it: the value it returns and the world
    it leaves. The outermost [catch] turns any exception into
    DATABASE_ERROR. *)
Definition register {L} {E : Env L} (secretHash username password : string)
    (w : World L) : RegisterResult * World L :=
  match register_body secretHash username password w with
  | (Val r, w') => (r, w')
  | (Ret r, w') => (r, w')
  | (Exn msg, w') => (failure DATABASE_ERROR msg, w')
  end.

Record CheckResult := {
  valid : bool;
  unused : bool;
  check_error : option ErrorInfo
}.

Definition check_failure (c : ErrorCode) (msg : string) : CheckResult :=
  {| valid := false; unused := false;
     check_error := Some {| code := c; message := msg |} |}.

Definition checkSecret_body {L} {E : Env L} (secretInput : string)
  : M L CheckResult CheckResult :=
  if negb (truthy secretInput)
  then return_ (check_failure INVALID_REQUEST "Secret is required")
  else
    let secretHash := normalizeSecretHash secretInput in
    if negb (truthy secretHash)
    then return_ (check_failure INVALID_REQUEST "Invalid secret format")
    else if negb isAvailable
    then return_ (check_failure DATABASE_ERROR "PathChain not available")
    else
      isUsed <- try_catch (isSecretUsed secretHash)
                          (fun _ => ret (UStr "error")) ;;
      match isUsed with
      | UStr _ => ret tt
      | UBool true => return_ {| valid := true; unused := false;
                                 check_error := None |}
      | UBool false => ret tt
      end ;;;
      found <-
        try_catch
          (v1 <- getSecret secretHash "" ;;
           step2 <- match v1 with
                    | PStr s =>
                        v <- try_catch (getSecret secretHash "")
                                       (fun _ => ret PNull) ;;
                        ret (v, Some s)
                    | _ => ret (v1, None)
                    end ;;
           let (v2, secretError) := step2 : pcval * option string in
           v3 <- (if unusable v2
                  then try_catch (getObject ("secrets/" ++ secretHash))
                                 (fun _ => ret v2)
                  else ret v2) ;;
           ret (v3, secretError))
          (fun err => ret (PNull, Some err)) ;;
      let (secretObj, secretError) := found : pcval * option string in
      match secretObj with
      | PObj o => return_ {| valid := true; unused := negb (o_used o);
                             check_error := None |}
      | PStr s => return_ (check_failure INVALID_SECRET
                             ("Invalid secret: " ++ s))
      | PNull =>
          let errorMsg :=
            match secretError with
            | Some e => if truthy e then e
                        else "Secret not found in PathChain"
            | None => "Secret not found in PathChain"
            end in
          return_ (check_failure INVALID_SECRET
                     ("Invalid secret: " ++ errorMsg))
      end.

Definition checkSecret {L} {E : Env L} (secretInput : string) (w : World L)
  : CheckResult * World L :=
  match checkSecret_body secretInput w with
  | (Val r, w') => (r, w')
  | (Ret r, w') => (r, w')
  | (Exn msg, w') => (check_failure DATABASE_ERROR msg, w')
  end.

Record LoginSummary := { li_id : string; li_entity_id : nat }.

Inductive FetchResult :=
| FetchOk (entity_ : EntityRow) (login_ : option LoginSummary)
| FetchErr (error : ErrorInfo).

Definition fetchEntityInfo_body {L} (entityId : nat)
  : M L FetchResult FetchResult :=
  match entityId with
  | O => return_ (FetchErr {| code := INVALID_REQUEST;
                              message := "Entity ID is required" |})
  | S _ =>
      found <- Entity.findByPk entityId ;;
      match found with
      | None => return_ (FetchErr {| code := DATABASE_ERROR;
                                     message := "Entity not found" |})
      | Some e =>
          l <- Login.findOne entityId ;;
          return_ (FetchOk e
                     (option_map (fun r => {| li_id := l_id r;
                                              li_entity_id := l_entity_id r |})
                                 l))
      end
  end.

Definition fetchEntityInfo {L} (entityId : nat) (w : World L)
  : FetchResult * World L :=
  match fetchEntityInfo_body entityId w with
  | (Val r, w') => (r, w')
  | (Ret r, w') => (r, w')
  | (Exn msg, w') => (FetchErr {| code := DATABASE_ERROR; message := msg |}, w')
  end.

Inductive AncestorResult :=
| AncestorOk (entity_ : EntityRow) (pathchainData : option PCObj)
             (login_ : option LoginSummary)
| AncestorErr (error : ErrorInfo).

(** [if (entity.ancestor_id)]: null and 0 are falsy. *)
Definition ancestor_link (e : EntityRow) : option nat :=
  match e_ancestor_id e with
  | Some (S n) => Some (S n)
  | _ => None
  end.

(** getAncestorInfo, lines 1037-1066: the ancestor pointer of the entity's
    PathChain record. *)
Definition pathchain_ancestor_path {L R} {E : Env L} (e : EntityRow)
  : M L R (option string) :=
  try_catch
    (let currentHash := extractHash (e_path e) in
     entityObj <- lookup_chain (getEntity currentHash "")
                               (getEntity currentHash "")
                               (getObject (e_path e)) ;;
     match entityObj with
     | PObj o => ret (or_null (o_ancestor o))
     | _ => ret None
     end)
    (fun _ => ret None).

(** getAncestorInfo, lines 1082-1127: the answer for a resolved ancestor,
    with its PathChain record when one can be read. *)
Definition ancestor_report {L} {E : Env L} (a : EntityRow)
  : M L AncestorResult AncestorResult :=
  let ancestorHash := strip_entities (e_path a) in
  ancestorObj <- lookup_chain (getEntity ancestorHash "")
                              (getEntity ancestorHash "")
                              (getObject (e_path a)) ;;
  ancestorInfo <- await (fetchEntityInfo (e_id a)) ;;
  match ancestorInfo with
  | FetchErr err => return_ (AncestorErr err)
  | FetchOk row l =>
      return_ (AncestorOk row
                 match ancestorObj with
                 | PObj o => Some o
                 | _ => None
                 end
                 l)
  end.

Definition getAncestorInfo_body {L} {E : Env L} (entityId : nat)
  : M L AncestorResult AncestorResult :=
  match entityId with
  | O => return_ (AncestorErr {| code := INVALID_REQUEST;
                                 message := "Entity ID is required" |})
  | S _ =>
      found <- Entity.findByPk entityId ;;
      match found with
      | None => return_ (AncestorErr {| code := DATABASE_ERROR;
                                        message := "Entity not found" |})
      | Some e =>
          byLink <- match ancestor_link e with
                    | Some aid => Entity.findByPk aid
                    | None => ret None
                    end ;;
          ancestorEntity <-
            match byLink with
            | Some a => ret (Some a)
            | None =>
                ancestorPath <- pathchain_ancestor_path e ;;
                match ancestorPath with
                | Some p => Entity.findOne p
                | None => ret None
                end
            end ;;
          match ancestorEntity with
          | None => return_ (AncestorErr
                               {| code := ANCESTOR_NOT_FOUND;
                                  message := "Ancestor entity not found" |})
          | Some a => ancestor_report a
          end
      end
  end.

Definition getAncestorInfo {L} {E : Env L} (entityId : nat) (w : World L)
  : AncestorResult * World L :=
  match getAncestorInfo_body entityId w with
  | (Val r, w') => (r, w')
  | (Ret r, w') => (r, w')
  | (Exn msg, w') =>
      (AncestorErr {| code := DATABASE_ERROR; message := msg |}, w')
  end.

(* ------------------------------------------------------------------ *)
(** ** A ledger to run the program against *)

Fixpoint hex_fixed (width n : nat) : string :=
  match width with
  | O => ""
  | S w =>
      hex_fixed w (n / 16)
      ++ String (ascii_of_nat (let d := n mod 16 in
                               if d <? 10 then 48 + d else 87 + d)) ""
  end.

Module Ledger.

(** Modelled from the spec: the Ledger and its Object Store (the pathchain
    package) are not under src/. Section 4.1 keys a record by the digest
    of its encoding; here the digest of the n-th record written is the
    64-digit hexadecimal numeral of n, so that distinct records get
    distinct addresses. *)
Record t := {
  root : option string;
  entities : list (string * PCObj);
  secrets : list (string * PCObj);
  written : nat
}.

Definition empty : t :=
  {| root := None; entities := []; secrets := []; written := 0 |}.

Definition digest (n : nat) : string := hex_fixed 64 n.

Fixpoint lookup (h : string) (tbl : list (string * PCObj)) : option PCObj :=
  match tbl with
  | [] => None
  | (k, o) :: rest => if String.eqb k h then Some o else lookup h rest
  end.

Fixpoint update (h : string) (o : PCObj) (tbl : list (string * PCObj))
  : list (string * PCObj) :=
  match tbl with
  | [] => []
  | (k, o') :: rest =>
      if String.eqb k h then (k, o) :: rest else (k, o') :: update h o rest
  end.

Definition not_found : string := "Object not found".
Definition already_used : string :=
  "Secret has been already used or it was not found".

(** Modelled from the spec: [get(address)] of section 4.1, for a bare
    digest whose type the caller supplies. *)
Definition get (tbl : t -> list (string * PCObj)) (h : string) (l : t)
  : thrown pcval :=
  match lookup h (tbl l) with
  | Some o => Returned (PObj o)
  | None => Returned (PStr not_found)
  end.

(** Modelled from the spec: the fully-qualified lookup of section 4.1,
    which infers the type from the address prefix. *)
Definition getObj (address : string) (l : t) : thrown pcval :=
  if startsWith "secrets/" address
  then get secrets (substring_from 8 address) l
  else if startsWith "entities/" address
  then get entities (substring_from 9 address) l
  else Returned (PStr not_found).

(** Modelled from the spec: [issueSecret] of section 4.2: a Moment, then
    a Secret with the given author, not consumed, no consumer. *)
Definition issueSecret (authorAddress : string) (l : t) : string * t :=
  let moment := digest (written l) in
  let h := digest (S (written l)) in
  (h, {| root := root l;
         entities := entities l;
         secrets := (secrets l ++
                     [(h, {| o_tag := "secrets/" ++ h;
                             o_register := "moments/" ++ moment;
                             o_ancestor := "";
                             o_author := authorAddress;
                             o_user := "";
                             o_used := false |})])%list;
         written := 2 + written l |}).

(** Modelled from the spec: [bootstrapRoot] of section 4.2: the existing
    root if there is one; else a Moment, an Entity that is its own
    ancestor, and one Secret authored by it. *)
Definition bootstrapRoot (l : t) : thrown string * t :=
  match root l with
  | Some h => (Returned h, l)
  | None =>
      let moment := digest (written l) in
      let h := digest (S (written l)) in
      let l1 := {| root := Some h;
                   entities := (entities l ++
                                [(h, {| o_tag := "entities/" ++ h;
                                        o_register := "moments/" ++ moment;
                                        o_ancestor := "entities/" ++ h;
                                        o_author := "";
                                        o_user := "";
                                        o_used := false |})])%list;
                   secrets := secrets l;
                   written := 2 + written l |} in
      (Returned h, snd (issueSecret ("entities/" ++ h) l1))
  end.

(** Modelled from the spec: [isSecretUsed] of section 4.2: the consumed
    flag, or an error string when the address is unknown. *)
Definition isSecretUsed (h : string) (l : t) : thrown used_answer :=
  match lookup h (secrets l) with
  | Some o => Returned (UBool (o_used o))
  | None => Returned (UStr not_found)
  end.

(** Modelled from the spec: [mintEntity] of section 4.2: an error when
    the secret is unknown or consumed; else a Moment, an Entity whose
    ancestor is the secret's author, and the secret marked consumed by
    the new entity. *)
Definition mintEntity (h : string) (l : t) : thrown string * t :=
  match lookup h (secrets l) with
  | None => (Returned already_used, l)
  | Some s =>
      if o_used s then (Returned already_used, l)
      else
        let moment := digest (written l) in
        let e := digest (S (written l)) in
        (Returned e,
         {| root := root l;
            entities := (entities l ++
                         [(e, {| o_tag := "entities/" ++ e;
                                 o_register := "moments/" ++ moment;
                                 o_ancestor := o_author s;
                                 o_author := "";
                                 o_user := "";
                                 o_used := false |})])%list;
            secrets := update h {| o_tag := o_tag s;
                                   o_register := o_register s;
                                   o_ancestor := o_ancestor s;
                                   o_author := o_author s;
                                   o_user := "entities/" ++ e;
                                   o_used := true |} (secrets l);
            written := 2 + written l |})
  end.

(** Modelled from the spec: [markSecretUsed] of section 4.2: the record
    unchanged when it is already consumed, else the flag set. *)
Definition markSecretUsed (h : string) (l : t) : thrown pcval * t :=
  match lookup h (secrets l) with
  | None => (Returned (PStr not_found), l)
  | Some s =>
      if o_used s then (Returned (PObj s), l)
      else
        let s' := {| o_tag := o_tag s; o_register := o_register s;
                     o_ancestor := o_ancestor s; o_author := o_author s;
                     o_user := o_user s; o_used := true |} in
        (Returned (PObj s'),
         {| root := root l; entities := entities l;
            secrets := update h s' (secrets l);
            written := written l |})
  end.

(** Modelled from the spec: the author-scoped keys of section 4.1: the
    secrets stored under [{authorDigest}/secrets/]. *)
Definition secretsOf (authorDigest : string) (l : t)
  : thrown (option (list string)) :=
  match filter (fun kv => String.eqb (o_author (snd kv))
                                     ("entities/" ++ authorDigest))
               (secrets l) with
  | [] => Returned None
  | found => Returned (Some (map fst found))
  end.

Definition lib : PathChain t :=
  {| pc_makePioneer := bootstrapRoot;
     pc_getPioneerObj := get entities;
     pc_makeEntity := mintEntity;
     pc_getEntityObj := fun h _ => get entities h;
     pc_getSecretObj := fun h _ => get secrets h;
     pc_isSecretUsed := isSecretUsed;
     pc_useSecret := markSecretUsed;
     pc_getObj := getObj |}.

End Ledger.

(** An environment around that ledger. *)
Definition mk_env (lib : option (PathChain Ledger.t)) (fault : DbOp -> bool)
  : Env Ledger.t :=
  {| pathchain := lib;
     readSecretsDir := Ledger.secretsOf;
     hashPassword := fun p => "sha256(" ++ p ++ ")";
     generateToken := fun entityId username path => "jwt:" ++ username ++ ":" ++ path;
     db_fault := fault |}.

Definition no_fault : DbOp -> bool := fun _ => false.

Definition online : Env Ledger.t := mk_env (Some Ledger.lib) no_fault.
Definition offline : Env Ledger.t := mk_env None no_fault.

Definition fresh_world : World Ledger.t :=
  {| db := empty_db; tx := None; ledger := Ledger.empty; clock := 1000;
     journal := [] |}.

Unset Implicit Arguments.

(* ------------------------------------------------------------------ *)
(** ** Vocabulary of the properties *)

(** Whatever way [m] ends, it leaves the invariant in place. *)
Definition preserves {L R A} (Inv : World L -> Prop) (m : M L R A) : Prop :=
  forall w, Inv w -> Inv (snd (m w)).

(** From a world in [P], [m] ends in a world in [Q]. *)
Definition leads {L R A} (P Q : World L -> Prop) (m : M L R A) : Prop :=
  forall w, P w -> Q (snd (m w)).

(** A read either gives a value or throws, and changes nothing. *)
Definition reads {L R A} (m : M L R A) : Prop :=
  forall w, (exists a, m w = (Val a, w)) \/ (exists e, m w = (Exn e, w)).

Definition is_db_effect (e : Effect) : Prop :=
  match e with
  | DbBegin | DbInsert _ | DbUpdate _ | DbCommit | DbRollback => True
  | _ => False
  end.

(** Credentials that pass the input validation. *)
Definition well_formed_request (username password : string) : Prop :=
  truthy username = true /\ String.length username <= 255 /\
  truthy password = true.

(** No Login row has this username yet. *)
Definition fresh_username {L} (username : string) (w : World L) : Prop :=
  existsb (Login.has_id username) (login (db w)) = false.

(** What register answers once its branch has run. *)
Definition register_answer {L} {E : Env L} (username : string)
    (o : outcome RegisterResult EntityRow * World L)
  : RegisterResult * World L :=
  match o with
  | (Val entity_, w') =>
      (Success (generateToken (e_id entity_) username (e_path entity_))
               {| sum_id := e_id entity_; sum_path := e_path entity_;
                  sum_username := username |}, w')
  | (Ret r, w') => (r, w')
  | (Exn msg, w') => (failure DATABASE_ERROR msg, w')
  end.

(** The world right after [createEntity n] left the ledger in [l']. *)
Definition minted {L} (n : string) (l' : L) (w : World L) : World L :=
  log_effect (LedgerMakeEntity n)
    {| db := db w; tx := tx w; ledger := l'; clock := clock w;
       journal := journal w |}.

(** A request that register takes as far as the transaction: well-formed
    credentials, a fresh username, a secret that PathChain knows and
    reports unused, an ancestor row for its author, a mint that gives a
    hash, and the minted entity's record. *)
Record ReachesTransaction {L} {E : Env L} (lib : PathChain L) (w : World L)
    (secretHash username password : string) (secretObj : PCObj)
    (ancestor : EntityRow) (entityHash : string) (l' : L) (entityObj : PCObj)
  : Prop := {
  rt_request : well_formed_request username password;
  rt_fresh : fresh_username username w;
  rt_secret : truthy (normalizeSecretHash secretHash) = true;
  rt_available : pathchain = Some lib;
  rt_unused : pc_isSecretUsed lib (normalizeSecretHash secretHash) (ledger w)
              = Returned (UBool false);
  rt_secretObj : pc_getSecretObj lib (normalizeSecretHash secretHash) ""
                                 (ledger w) = Returned (PObj secretObj);
  rt_ancestor : find (fun r => String.eqb (e_path r) (o_author secretObj))
                     (entity (db w)) = Some ancestor;
  rt_mint : pc_makeEntity lib (normalizeSecretHash secretHash) (ledger w)
            = (Returned entityHash, l');
  rt_hash : test_hash64 entityHash = true;
  rt_entityObj : pc_getEntityObj lib entityHash "" l'
                 = Returned (PObj entityObj)
}.

(** The statement that records the use of secret [n]: an UPDATE when the
    store already has a row for it, else an INSERT. *)
Definition secret_upsert_op (d : DB) (n : string) : DbOp :=
  match find (fun r => String.eqb (s_path r) ("secrets/" ++ n)) (secret d) with
  | Some _ => OpSecretSave
  | None => OpSecretCreate
  end.

(** The same statement in the journal. *)
Definition secret_upsert_effect (d : DB) (n : string) : Effect :=
  match find (fun r => String.eqb (s_path r) ("secrets/" ++ n)) (secret d) with
  | Some _ => DbUpdate TSecret
  | None => DbInsert TSecret
  end.

(** The tables after the three writes of a registration. *)
Definition registered_db (d : DB) (n username hashed tag : string)
    (ancestor_id now : nat) : DB :=
  let newId := next_id (map e_id (entity d)) in
  {| entity := (entity d ++
                [{| e_id := newId; e_path := tag;
                    e_ancestor_id := Some ancestor_id |}])%list;
     secret :=
       match find (fun r => String.eqb (s_path r) ("secrets/" ++ n))
                  (secret d) with
       | Some s =>
           map (fun r => if s_id r =? s_id s then Secret.set_used_at s now
                         else r) (secret d)
       | None =>
           (secret d ++
            [{| s_id := next_id (map s_id (secret d));
                s_path := "secrets/" ++ n;
                s_owner_id := ancestor_id;
                s_owner_type_id := OwnerType_ENTITY;
                s_used_at := Some now |}])%list
       end;
     login := (login d ++
               [{| l_id := username; l_entity_id := newId;
                   l_password := hashed; l_secret := or_null n |}])%list |}.

Definition no_commit (j : list Effect) : Prop := ~ In DbCommit j.

(** Every confirmation to PathChain in [j] comes after a commit in [j]. *)
Definition confirm_after_commit (j : list Effect) : Prop :=
  forall pre h post, j = (pre ++ LedgerUseSecret h :: post)%list ->
                     In DbCommit pre.

Definition no_confirm (j : list Effect) : Prop :=
  forall h, ~ In (LedgerUseSecret h) j.

(** A decision procedure for [confirm_after_commit]. *)
Fixpoint confirms_ok (committed : bool) (j : list Effect) : bool :=
  match j with
  | [] => true
  | DbCommit :: r => confirms_ok true r
  | LedgerUseSecret _ :: r => committed && confirms_ok committed r
  | _ :: r => confirms_ok committed r
  end.

(** Since the journal was [j0], no confirmation has been sent. *)
Definition quiet_since {L} (j0 : list Effect) (w : World L) : Prop :=
  exists j, journal w = (j0 ++ j)%list /\ no_confirm j.

(** Since the journal was [j0], confirmations followed commits. *)
Definition ordered_since {L} (j0 : list Effect) (w : World L) : Prop :=
  exists j, journal w = (j0 ++ j)%list /\ confirm_after_commit j.

(** The journal still starts with [j1]. *)
Definition extends {L} (j1 : list Effect) (w : World L) : Prop :=
  exists j, journal w = (j1 ++ j)%list.

(** The string register reads after [createEntity]: what the call
    returned, or ["error: "] and the message of what it threw. *)
Definition mint_text (r : thrown string) : string :=
  match r with
  | Returned s => s
  | Threw e => "error: " ++ e
  end.

Inductive mint_verdict :=
| Minted (entityHash : string)
| Refused (c : ErrorCode)
| Crashed (msg : string).

(** How register reads that string, stated apart from the code: 64
    hexadecimal digits are the new entity's hash; the empty string is a
    failed mint; a text with "used" or "already" is a used secret when a
    second usage check says so, and an exception when that check throws;
    failing that, a text with "Updater", "not identified" or "not found" is
    an invalid secret; anything else is a failed mint. *)
Definition mint_reading (text : string) (recheck : thrown used_answer)
  : mint_verdict :=
  if test_hash64 text then Minted text
  else if negb (truthy text) then Refused ENTITY_RETRIEVAL_FAILED
  else
    let otherwise :=
      if includes "Updater" text || includes "not identified" text
         || includes "not found" text
      then Refused INVALID_SECRET
      else Refused ENTITY_RETRIEVAL_FAILED in
    if includes "used" text || includes "already" text then
      match recheck with
      | Returned (UBool true) => Refused USED_SECRET
      | Threw msg => Crashed msg
      | Returned _ => otherwise
      end
    else otherwise.

(** The row the stored ancestor link leads to. *)
Definition link_row {L} (w : World L) (e : EntityRow) : option EntityRow :=
  match ancestor_link e with
  | Some aid => find (fun r => e_id r =? aid) (entity (db w))
  | None => None
  end.

(** The row the ancestor pointer of the PathChain record leads to. *)
Definition fallback_row {L} {E : Env L} (w : World L) (e : EntityRow)
  : option EntityRow :=
  match fst (pathchain_ancestor_path (R:=AncestorResult) e w) with
  | Val (Some p) => find (fun r => String.eqb (e_path r) p) (entity (db w))
  | _ => None
  end.

Definition ancestor_error (r : AncestorResult) : option ErrorCode :=
  match r with
  | AncestorErr e => Some (code e)
  | AncestorOk _ _ _ => None
  end.

(** The PathChain record that is attached to the answer. *)
Definition pathchain_data {L} {E : Env L} (a : EntityRow) (w : World L)
  : option PCObj :=
  match fst (lookup_chain (R:=AncestorResult)
               (getEntity (strip_entities (e_path a)) "")
               (getEntity (strip_entities (e_path a)) "")
               (getObject (e_path a)) w) with
  | Val (PObj o) => Some o
  | _ => None
  end.

(** The rows with a null ancestor. *)
Definition roots (d : DB) : list EntityRow := filter Entity.is_root (entity d).

(** initializeSystem as its callers see it: the value of the promise, or
    the exception that rejects it. *)
Definition initializeSystem_run {L} {E : Env L} (w : World L)
  : thrown InitResult * World L :=
  match initializeSystem w with
  | (Val r, w') => (Returned r, w')
  | (Ret r, w') => (Returned r, w')
  | (Exn msg, w') => (Threw msg, w')
  end.

(** The world after [n] calls in a row. *)
Fixpoint initializeSystem_times {L} {E : Env L} (n : nat) (w : World L)
  : World L :=
  match n with
  | O => w
  | S k => initializeSystem_times k (snd (initializeSystem_run w))
  end.

(** [m] never makes register return a success by itself. *)
Definition fails_only {L A} (m : M L RegisterResult A) : Prop :=
  forall w, match fst (m w) with
            | Ret (Success _ _) => False
            | _ => True
            end.

(** When [m] goes on, or makes register return a success, [Q] holds. *)
Definition on_success {L A} (Q : World L -> Prop) (m : M L RegisterResult A)
  : Prop :=
  forall w, match m w with
            | (Val _, w') => Q w'
            | (Ret (Success _ _), w') => Q w'
            | _ => True
            end.

(** The ledger records secret [n] as consumed. *)
Definition consumed (n : string) (l : Ledger.t) : Prop :=
  exists o, Ledger.lookup n (Ledger.secrets l) = Some o /\ o_used o = true.

Definition marks_consumed (n : string) (w : World Ledger.t) : Prop :=
  consumed n (ledger w).

(** The environment's library, when it has one, is the ledger above. *)
Definition ledger_backed (E : Env Ledger.t) : Prop :=
  forall lib, @pathchain _ E = Some lib -> lib = Ledger.lib.

(** The calls a client can make. *)
Inductive Call :=
| CallRegister (secretHash username password : string)
| CallCheckSecret (secretInput : string)
| CallGetAncestorInfo (entityId : nat)
| CallInitializeSystem.

Definition perform (E : Env Ledger.t) (c : Call) (w : World Ledger.t)
  : World Ledger.t :=
  match c with
  | CallRegister s u p => snd (register s u p w)
  | CallCheckSecret s => snd (checkSecret s w)
  | CallGetAncestorInfo i => snd (getAncestorInfo i w)
  | CallInitializeSystem => snd (initializeSystem_run w)
  end.

(** Calls made one after the other, each in its own environment. *)
Fixpoint perform_all (calls : list (Env Ledger.t * Call)) (w : World Ledger.t)
  : World Ledger.t :=
  match calls with
  | [] => w
  | (E, c) :: rest => perform_all rest (perform E c w)
  end.

(* ------------------------------------------------------------------ *)
(** ** Sentences of the specification that the code does not satisfy *)

(** "repairs the Projection Store row's cached ancestor link": after a
    lookup that went through PathChain, the row points to the ancestor. *)
Definition repairs_link {L} {E : Env L} (entityId : nat) (w : World L) : Prop :=
  forall e a data l,
    find (fun r => e_id r =? entityId) (entity (db w)) = Some e ->
    ancestor_link e = None ->
    fst (getAncestorInfo entityId w) = AncestorOk a data l ->
    exists e',
      find (fun r => e_id r =? entityId)
           (entity (db (snd (getAncestorInfo entityId w)))) = Some e' /\
      e_ancestor_id e' = Some (e_id a).

(** "a failure whose text indicates prior use is mapped to USED_SECRET
    while every other failure is mapped to" the mint failure code. *)
Definition mint_failure_is_used_or_failed {L} {E : Env L} (lib : PathChain L)
    (n : string) (w : World L) : Prop :=
  forall text l',
    pc_makeEntity lib n (ledger w) = (Returned text, l') ->
    test_hash64 text = false ->
    exists msg,
      fst (register_mint n w) =
      Ret (failure (if includes "used" text || includes "already" text
                    then USED_SECRET else ENTITY_RETRIEVAL_FAILED) msg).

(** "for every secret input whose usage check throws or returns a
    non-boolean error value, register does not proceed to mint". *)
Definition usage_error_blocks_mint {L} {E : Env L} (lib : PathChain L)
    (w : World L) (s u p : string) : Prop :=
  pathchain = Some lib ->
  (forall b, pc_isSecretUsed lib (normalizeSecretHash s) (ledger w)
             <> Returned (UBool b)) ->
  ~ In (LedgerMakeEntity (normalizeSecretHash s))
       (journal (snd (register s u p w))).

(** "register with any non-empty secret input and fresh username ...
    returns success" when PathChain is not loaded. *)
Definition offline_accepts_any_secret {L} {E : Env L} (w : World L)
    (s u p : string) : Prop :=
  pathchain = None -> s <> "" ->
  well_formed_request u p -> fresh_username u w ->
  exists token summary, fst (register s u p w) = Success token summary.

(* ------------------------------------------------------------------ *)
(** ** Concrete worlds *)

(** The secret PathChain issues to the pioneer of [fresh_world]. *)
Definition S0 : string := Ledger.digest 3.

(** After [register("", "alice", "pw")] on the fresh system. *)
Definition world_bootstrapped : World Ledger.t :=
  Eval vm_compute in snd (register (E:=online) "" "alice" "pw" fresh_world).

(** After [register(S0, "bob", "pw2")] on that. *)
Definition world_bob : World Ledger.t :=
  Eval vm_compute in
    snd (register (E:=online) S0 "bob" "pw2" world_bootstrapped).

(** The same store with every ancestor link lost. *)
Definition world_unlinked : World Ledger.t :=
  {| db := {| entity := map (fun r => {| e_id := e_id r; e_path := e_path r;
                                         e_ancestor_id := None |})
                            (entity (db world_bob));
              secret := secret (db world_bob);
              login := login (db world_bob) |};
     tx := None; ledger := ledger world_bob; clock := clock world_bob;
     journal := [] |}.

Definition pioneer_row : EntityRow :=
  {| e_id := 1; e_path := "entities/" ++ Ledger.digest 1;
     e_ancestor_id := None |}.

Definition pioneer_obj : PCObj :=
  {| o_tag := "entities/" ++ Ledger.digest 1;
     o_register := "moments/" ++ Ledger.digest 0;
     o_ancestor := "entities/" ++ Ledger.digest 1; o_author := "";
     o_user := ""; o_used := false |}.

Definition S0_obj : PCObj :=
  {| o_tag := "secrets/" ++ S0; o_register := "moments/" ++ Ledger.digest 2;
     o_ancestor := ""; o_author := "entities/" ++ Ledger.digest 1;
     o_user := ""; o_used := false |}.

Definition bob_hash : string := Ledger.digest 5.

Definition bob_obj : PCObj :=
  {| o_tag := "entities/" ++ bob_hash;
     o_register := "moments/" ++ Ledger.digest 4;
     o_ancestor := "entities/" ++ Ledger.digest 1; o_author := "";
     o_user := ""; o_used := false |}.

Definition bob_row : EntityRow :=
  {| e_id := 2; e_path := "entities/" ++ bob_hash; e_ancestor_id := None |}.

(** The ledger of [world_bootstrapped] after [mintEntity S0]. *)
Definition ledger_minted : Ledger.t :=
  Eval vm_compute in snd (Ledger.mintEntity S0 (ledger world_bootstrapped)).

(** The ledger of [fresh_world] after [bootstrapRoot]. *)
Definition ledger_rooted : Ledger.t :=
  Eval vm_compute in snd (Ledger.bootstrapRoot Ledger.empty).

(** What the first initializeSystem returns on the fresh system. *)
Definition first_init : InitResult :=
  {| init_pioneer := pioneer_row;
     init_secret := Some {| s_id := 1; s_path := "secrets/" ++ S0;
                            s_owner_id := 1;
                            s_owner_type_id := OwnerType_ENTITY;
                            s_used_at := None |};
     init_isNew := true;
     init_secretHash := Some S0 |}.

Definition world_initialized : World Ledger.t :=
  Eval vm_compute in snd (initializeSystem_run (E:=online) fresh_world).

(** An environment in which the INSERT into login fails. *)
Definition login_fails : Env Ledger.t :=
  mk_env (Some Ledger.lib)
         (fun op => match op with OpLoginCreate => true | _ => false end).

(** A library whose [useSecret] always throws. *)
Definition lib_unconfirmed : PathChain Ledger.t :=
  {| pc_makePioneer := Ledger.bootstrapRoot;
     pc_getPioneerObj := Ledger.get Ledger.entities;
     pc_makeEntity := Ledger.mintEntity;
     pc_getEntityObj := fun h _ => Ledger.get Ledger.entities h;
     pc_getSecretObj := fun h _ => Ledger.get Ledger.secrets h;
     pc_isSecretUsed := Ledger.isSecretUsed;
     pc_useSecret := fun _ l => (Threw "EIO: cannot write secret", l);
     pc_getObj := Ledger.getObj |}.

Definition unconfirmed : Env Ledger.t := mk_env (Some lib_unconfirmed) no_fault.

(** A library whose [makeEntity] answers "Updater not identified". *)
Definition lib_updater : PathChain Ledger.t :=
  {| pc_makePioneer := Ledger.bootstrapRoot;
     pc_getPioneerObj := Ledger.get Ledger.entities;
     pc_makeEntity := fun _ l => (Returned "Updater not identified", l);
     pc_getEntityObj := fun h _ => Ledger.get Ledger.entities h;
     pc_getSecretObj := fun h _ => Ledger.get Ledger.secrets h;
     pc_isSecretUsed := Ledger.isSecretUsed;
     pc_useSecret := Ledger.markSecretUsed;
     pc_getObj := Ledger.getObj |}.

Definition updater : Env Ledger.t := mk_env (Some lib_updater) no_fault.

(** A library whose [isSecretUsed] always throws. *)
Definition lib_unreadable : PathChain Ledger.t :=
  {| pc_makePioneer := Ledger.bootstrapRoot;
     pc_getPioneerObj := Ledger.get Ledger.entities;
     pc_makeEntity := Ledger.mintEntity;
     pc_getEntityObj := fun h _ => Ledger.get Ledger.entities h;
     pc_getSecretObj := fun h _ => Ledger.get Ledger.secrets h;
     pc_isSecretUsed := fun _ _ => Threw "EACCES: cannot read secret";
     pc_useSecret := Ledger.markSecretUsed;
     pc_getObj := Ledger.getObj |}.

Definition unreadable : Env Ledger.t := mk_env (Some lib_unreadable) no_fault.

(* ------------------------------------------------------------------ *)
(** ** The remaining helpers of utils/pathchain.js and utils/crypto.js *)

(** [s.split('/')] *)
Fixpoint split (s : string) : list string :=
  match s with
  | EmptyString => [EmptyString]
  | String c t =>
      if Ascii.eqb c "/"%char then EmptyString :: split t
      else match split t with
           | h :: r => String c h :: r
           | [] => [String c EmptyString]
           end
  end.

Definition type_names : list string :=
  ["entities"; "secrets"; "moments"; "nodes"; "links"; "paths"; "labels"].

(** [extractType]: the first component that names a type, else the first
    component. *)
Definition extractType (path : string) : string :=
  if truthy path then
    let parts := split path in
    match find (fun part => existsb (String.eqb part) type_names) parts with
    | Some part => part
    | None => hd EmptyString parts
    end
  else "".

(** utils/crypto: [hashPassword(password) === hash] *)
Definition verifyPassword {L} {E : Env L} (password hash : string) : bool :=
  String.eqb (hashPassword password) hash.

(* ------------------------------------------------------------------ *)
(** ** The remaining methods of the models *)

(** [Entity.prototype.isPioneer] *)
Definition Entity_isPioneer (r : EntityRow) : bool :=
  match e_ancestor_id r with
  | None => true
  | Some a => a =? e_id r
  end.

(** [Entity.count()], [Login.count()], [Secret.count()] *)
Definition Entity_count {L R} : M L R nat :=
  fun w => (Val (List.length (entity (view NoTx w))), w).

Definition Login_count {L R} : M L R nat :=
  fun w => (Val (List.length (login (view NoTx w))), w).

Definition Secret_count {L R} : M L R nat :=
  fun w => (Val (List.length (secret (view NoTx w))), w).

(** [Login.findByUsername]: [findByPk(username)] *)
Definition Login_findByUsername {L R} (username : string)
  : M L R (option LoginRow) :=
  fun w => (Val (find (Login.has_id username) (login (view NoTx w))), w).

Definition has_secret (secret_ : string) (r : LoginRow) : bool :=
  match l_secret r with
  | Some s => String.eqb s secret_
  | None => false
  end.

(** [Login.findOne({ where: { secret } })] *)
Definition Login_findBySecret {L R} (secret_ : string)
  : M L R (option LoginRow) :=
  fun w => (Val (find (has_secret secret_) (login (view NoTx w))), w).

(** [Secret.findUnusedByOwner]: [findAll] where [owner_id] is the owner
    and [used_at] is null. *)
Definition Secret_findUnusedByOwner {L R} (ownerId : nat)
  : M L R (list SecretRow) :=
  fun w =>
    (Val (filter (fun r => (s_owner_id r =? ownerId)
                           && negb (Secret.isUsed r))
                 (secret (view NoTx w))), w).

(* ------------------------------------------------------------------ *)
(** ** services/authService.js: login, loginWithSecret, getUserInfo,
       getSystemStatus *)

Inductive SystemStatus :=
| StatusOk (initialized : bool) (pioneer : option (nat * string))
           (entities logins secrets : nat) (available : bool)
| StatusErr (error : string).

Module authService.

Definition login_body {L} {E : Env L} (username password : string)
  : M L RegisterResult RegisterResult :=
  (if negb (truthy username) || negb (truthy password)
   then return_ (failure INVALID_REQUEST
                   "Username and password are required")
   else ret tt) ;;;
  loginRecord <- Login_findByUsername username ;;
  match loginRecord with
  | None => return_ (failure INVALID_CREDENTIALS
                       "Invalid username or password")
  | Some r =>
      if negb (verifyPassword password (l_password r))
      then return_ (failure INVALID_CREDENTIALS
                      "Invalid username or password")
      else
        entity_ <- Entity.findByPk (l_entity_id r) ;;
        match entity_ with
        | None => return_ (failure DATABASE_ERROR "Entity not found")
        | Some e =>
            let token := generateToken (e_id e) username (e_path e) in
            return_ (Success token {| sum_id := e_id e;
                                      sum_path := e_path e;
                                      sum_username := username |})
        end
  end.

Definition login {L} {E : Env L} (username password : string) (w : World L)
  : RegisterResult * World L :=
  match login_body username password w with
  | (Val r, w') => (r, w')
  | (Ret r, w') => (r, w')
  | (Exn msg, w') => (failure DATABASE_ERROR msg, w')
  end.

(** loginWithSecret, lines 722-757: no Login row carries the secret; the
    secret's PathChain record may still name its user. *)
Definition loginWithSecret_pathchain {L} {E : Env L}
    (normalizedSecret : string) : M L RegisterResult unit :=
  if isAvailable then
    secretObj <- getSecret normalizedSecret "" ;;
    match secretObj with
    | PObj o =>
        if o_used o && truthy (o_user o) then
          entity_ <- Entity.findOne (o_user o) ;;
          match entity_ with
          | Some e =>
              entityLogin <- Login.findOne (e_id e) ;;
              match entityLogin with
              | Some l =>
                  let token := generateToken (e_id e) (l_id l) (e_path e) in
                  return_ (Success token {| sum_id := e_id e;
                                            sum_path := e_path e;
                                            sum_username := l_id l |})
              | None => ret tt
              end
          | None => ret tt
          end
        else ret tt
    | _ => ret tt
    end
  else ret tt.

Definition loginWithSecret_body {L} {E : Env L} (secret_ : string)
  : M L RegisterResult RegisterResult :=
  (if negb (truthy secret_)
   then return_ (failure INVALID_REQUEST "Secret is required")
   else ret tt) ;;;
  let normalizedSecret := normalizeSecretHash secret_ in
  first <- Login_findBySecret normalizedSecret ;;
  loginRecord <-
    match first with
    | None =>
        if negb (String.eqb normalizedSecret secret_)
        then Login_findBySecret secret_
        else ret None
    | Some r => ret (Some r)
    end ;;
  match loginRecord with
  | None =>
      loginWithSecret_pathchain normalizedSecret ;;;
      return_ (failure INVALID_SECRET "Invalid secret")
  | Some r =>
      entity_ <- Entity.findByPk (l_entity_id r) ;;
      match entity_ with
      | None => return_ (failure DATABASE_ERROR "Entity not found")
      | Some e =>
          let token := generateToken (e_id e) (l_id r) (e_path e) in
          return_ (Success token {| sum_id := e_id e;
                                    sum_path := e_path e;
                                    sum_username := l_id r |})
      end
  end.

Definition loginWithSecret {L} {E : Env L} (secret_ : string) (w : World L)
  : RegisterResult * World L :=
  match loginWithSecret_body secret_ w with
  | (Val r, w') => (r, w')
  | (Ret r, w') => (r, w')
  | (Exn msg, w') => (failure DATABASE_ERROR msg, w')
  end.

Definition getUserInfo {L} (entityId : nat) (w : World L)
  : FetchResult * World L :=
  fetchEntityInfo entityId w.

Definition getSystemStatus_body {L} {E : Env L}
  : M L SystemStatus SystemStatus :=
  pioneer <- Entity.findPioneer ;;
  entityCount <- Entity_count ;;
  loginCount <- Login_count ;;
  secretCount <- Secret_count ;;
  return_ (StatusOk match pioneer with Some _ => true | None => false end
                    (option_map (fun p => (e_id p, e_path p)) pioneer)
                    entityCount loginCount secretCount isAvailable).

Definition getSystemStatus {L} {E : Env L} (w : World L)
  : SystemStatus * World L :=
  match getSystemStatus_body w with
  | (Val r, w') => (r, w')
  | (Ret r, w') => (r, w')
  | (Exn msg, w') => (StatusErr msg, w')
  end.

End authService.

(* ------------------------------------------------------------------ *)
(** ** controllers/authController.js *)

(** The JSON bodies the controllers send. *)
Inductive Body :=
| AuthBody (message token : string) (entity_ : EntitySummary)
| ErrorBody (code_ : N) (message : string)
| CheckBody (valid_ unused_ : bool)
| CheckErrorBody (code_ : N) (message : string)
| VerifyBody (message : string) (id : nat) (username : string)
             (entity_id : nat)
| UserBody (data : FetchResult)
| AncestorBody (data : AncestorResult)
| InitBody (message : string) (id : nat) (path : string) (isNew : bool).

Record HttpResponse := { status : nat; body : Body }.

(** [result.error.code < 50000 ? client : 500] *)
Definition statusCode (client : nat) (err : ErrorInfo) : nat :=
  if (code_number (code err) <? 50000)%N then client else 500.

Definition error_response (client : nat) (err : ErrorInfo) : HttpResponse :=
  {| status := statusCode client err;
     body := ErrorBody (code_number (code err)) (message err) |}.

(** The answer of a controller's own [catch]. *)
Definition internal_error : HttpResponse :=
  {| status := 500; body := ErrorBody 50000 "Internal server error" |}.

(** The claims of a verified token that verifyToken reads; 0 stands for
    a missing field. *)
Record TokenPayload := { p_entityId : nat; p_id : nat }.

Module authController.

Definition auth_response (ok : nat) (client : nat) (msg : string)
    (result : RegisterResult) : HttpResponse :=
  match result with
  | Failure err => error_response client err
  | Success token entity_ =>
      {| status := ok; body := AuthBody msg token entity_ |}
  end.

Definition register {L} {E : Env L} (secret_ id password : string)
    (w : World L) : HttpResponse * World L :=
  let (result, w') := register secret_ id password w in
  (auth_response 201 400 "Registration successful" result, w').

Definition initializeSystem {L} {E : Env L} (w : World L)
  : HttpResponse * World L :=
  match initializeSystem w with
  | (Val result, w') | (Ret result, w') =>
      ({| status := 200;
          body := InitBody (if init_isNew result then "System initialized"
                            else "System already initialized")
                           (e_id (init_pioneer result))
                           (e_path (init_pioneer result))
                           (init_isNew result) |}, w')
  | (Exn msg, w') =>
      ({| status := 500;
          body := ErrorBody 50001
                    ("Failed to initialize system: " ++ msg) |}, w')
  end.

Definition verifyToken_body {L} (user : TokenPayload)
  : M L HttpResponse HttpResponse :=
  let entityId := if p_entityId user =? 0 then p_id user
                  else p_entityId user in
  (if entityId =? 0
   then return_ {| status := 401;
                   body := ErrorBody 40104 "Invalid token format" |}
   else ret tt) ;;;
  entity_ <- Entity.findByPk entityId ;;
  match entity_ with
  | None =>
      return_ {| status := 401;
                 body := ErrorBody 40104
                   "User entity no longer exists. Please register again." |}
  | Some e =>
      found <- Login.findOne entityId ;;
      match found with
      | None =>
          return_ {| status := 401;
                     body := ErrorBody 40104
                       "Login record no longer exists. Please register again." |}
      | Some l =>
          return_ {| status := 200;
                     body := VerifyBody "Token is valid" (e_id e) (l_id l)
                                        (e_id e) |}
      end
  end.

Definition verifyToken {L} (user : TokenPayload) (w : World L)
  : HttpResponse * World L :=
  match verifyToken_body user w with
  | (Val r, w') => (r, w')
  | (Ret r, w') => (r, w')
  | (Exn _, w') => (internal_error, w')
  end.

(** Reading [result.error.code] of a result without [error] throws a
    TypeError, which the controller's [catch] answers. *)
Definition checkSecret {L} {E : Env L} (secret_ : string) (w : World L)
  : HttpResponse * World L :=
  let (result, w') := checkSecret secret_ w in
  if negb (valid result) then
    match check_error result with
    | Some err =>
        ({| status := statusCode 400 err;
            body := CheckErrorBody (code_number (code err)) (message err) |},
         w')
    | None => (internal_error, w')
    end
  else ({| status := 200;
           body := CheckBody (valid result) (unused result) |}, w').

Definition getUserInfo {L} (entityId : nat) (w : World L)
  : HttpResponse * World L :=
  let (result, w') := authService.getUserInfo entityId w in
  match result with
  | FetchErr err => (error_response 400 err, w')
  | FetchOk _ _ => ({| status := 200; body := UserBody result |}, w')
  end.

Definition getAncestorInfo {L} {E : Env L} (entityId : nat) (w : World L)
  : HttpResponse * World L :=
  let (result, w') := getAncestorInfo entityId w in
  match result with
  | AncestorErr err => (error_response 400 err, w')
  | AncestorOk _ _ _ => ({| status := 200; body := AncestorBody result |}, w')
  end.

Definition login {L} {E : Env L} (username password : string) (w : World L)
  : HttpResponse * World L :=
  let (result, w') := authService.login username password w in
  (auth_response 200 401 "Login successful" result, w').

End authController.

(* ------------------------------------------------------------------ *)
(** ** utils/jwt.js: the middleware of the protected routes *)

(** What the middleware does with a request: it answers itself, or sets
    [req.user] and calls [next()]. *)
Inductive Middleware :=
| Answered (response : HttpResponse)
| Next (user : TokenPayload).

(** [authMiddleware]; [verifyToken] is [jwt.verify] under the server's
    key, [None] for a token it refuses. *)
Definition authMiddleware (verifyToken : string -> option TokenPayload)
    (authorization : option string) : Middleware :=
  match authorization with
  | Some authHeader =>
      if truthy authHeader then
        let token := if startsWith "Bearer " authHeader
                     then substring_from 7 authHeader
                     else authHeader in
        match verifyToken token with
        | Some decoded => Next decoded
        | None =>
            Answered {| status := 401;
                        body := ErrorBody 40104 "Invalid or expired token" |}
        end
      else
        Answered {| status := 401;
                    body := ErrorBody 40103
                              "No authorization header provided" |}
  | None =>
      Answered {| status := 401;
                  body := ErrorBody 40103
                            "No authorization header provided" |}
  end.

(* ------------------------------------------------------------------ *)
(** ** Notions for the properties of the remaining code *)

(** Every character of [s] is white space. *)
Fixpoint blank (s : string) : bool :=
  match s with
  | EmptyString => true
  | String c t => is_ws c && blank t
  end.

(** [s] has no slash. *)
Fixpoint no_slash (s : string) : bool :=
  match s with
  | EmptyString => true
  | String c t => negb (Ascii.eqb c "/"%char) && no_slash t
  end.

(** What an attempt to register username [u] can leave in tables [d]:
    nothing; or the new entity row, with what was written to the secret
    table; or the new entity row and the login row. No entity or login row
    is removed or changed. *)
Definition attempt_left (d d' : DB) (u : string) : Prop :=
  d' = d \/
  exists e,
    e_id e = next_id (map e_id (entity d)) /\
    entity d' = (entity d ++ [e])%list /\
    (login d' = login d \/
     exists r,
       l_id r = u /\ l_entity_id r = e_id e /\
       existsb (Login.has_id u) (login d) = false /\
       login d' = (login d ++ [r])%list).

(** Started on tables [d], [m] either goes on with a value and a world
    in [Q], or makes register return a failure with the tables still [d],
    or throws with tables that the attempt of [u] left. It never makes
    register return a success. *)
Definition attempts {L A} (d : DB) (u : string) (Q : A -> World L -> Prop)
    (m : M L RegisterResult A) : Prop :=
  forall w, db w = d ->
    match m w with
    | (Val a, w') => Q a w'
    | (Ret (Success _ _), _) => False
    | (Ret (Failure _), w') => db w' = d
    | (Exn _, w') => attempt_left d (db w') u
    end.

(** The Login row of a registration. *)
Definition new_login (u hashed n : string) (e : EntityRow) : LoginRow :=
  {| l_id := u; l_entity_id := e_id e; l_password := hashed;
     l_secret := or_null n |}.

(** Tables [d'] are tables [d] after one registration with secret [n]:
    one more entity row, with a new id and a row of [d] as ancestor, one
    more login row, and the secret's row marked as used; no row is
    removed. *)
Definition registration_added (d d' : DB) (e : EntityRow)
    (n u hashed : string) : Prop :=
  e_id e = next_id (map e_id (entity d)) /\
  (exists a, In a (entity d) /\ e_ancestor_id e = Some (e_id a)) /\
  entity d' = (entity d ++ [e])%list /\
  login d' = (login d ++ [new_login u hashed n e])%list /\
  (exists r, In r (secret d') /\ s_path r = "secrets/" ++ n /\
             Secret.isUsed r = true) /\
  List.length (secret d) <= List.length (secret d')
    <= S (List.length (secret d)).

(** Every login row belongs to an entity row. *)
Definition references_ok (d : DB) : Prop :=
  forall r, In r (login d) -> In (l_entity_id r) (map e_id (entity d)).

(** The bootstrapped store after [register("abc", "dave", "pw4")] without
    PathChain. *)
Definition world_dave : World Ledger.t :=
  Eval vm_compute in
    snd (register (E:=offline) "abc" "dave" "pw4" world_bootstrapped).

Definition dave_summary : EntitySummary :=
  {| sum_id := 2; sum_path := "entities/abc"; sum_username := "dave" |}.

(* ------------------------------------------------------------------ *)
(** * Properties *)

(* ------------------------------------------------------------------ *)
(** ** Strings: hashes and error texts *)

Lemma prefix_all_hex p : forall s,
  prefix p s = true -> all_hex s = true -> all_hex p = true.
Proof.
  induction p as [|c p IH]; intros s Hp Hs; [reflexivity|].
  destruct s as [|d s]; simpl in Hp; [discriminate|].
  destruct (ascii_dec c d) as [->|]; [|discriminate].
  simpl in *. apply andb_true_iff in Hs as [Hd Hs].
  rewrite Hd. simpl. eauto.
Qed.

Lemma includes_all_hex kw s :
  all_hex kw = false -> all_hex s = true -> includes kw s = false.
Proof.
  intros Hkw. induction s as [|c s IH]; intros Hs.
  - cbn [includes]. destruct (prefix kw "") eqn:Hp; [|reflexivity].
    apply prefix_all_hex in Hp; [congruence|reflexivity].
  - cbn [includes]. destruct (prefix kw (String c s)) eqn:Hp.
    + apply prefix_all_hex in Hp; [congruence|assumption].
    + simpl in Hs. apply andb_true_iff in Hs as [_ Hs]. simpl. auto.
Qed.

Lemma is_hex_not_ws c : is_hex c = true -> is_ws c = false.
Proof.
  unfold is_hex, is_ws. generalize (nat_of_ascii c). intros n H.
  repeat rewrite ?orb_true_iff, ?andb_true_iff, ?Nat.leb_le in H.
  repeat rewrite ?orb_false_iff, ?andb_false_iff, ?Nat.leb_gt, ?Nat.eqb_neq.
  lia.
Qed.

Lemma trimStart_length s : String.length (trimStart s) <= String.length s.
Proof. induction s as [|c s IH]; simpl; [lia|]. destruct (is_ws c); simpl; lia. Qed.

Lemma trimStart_same s :
  String.length (trimStart s) = String.length s -> trimStart s = s.
Proof.
  destruct s as [|c s]; simpl; [reflexivity|].
  destruct (is_ws c); [|reflexivity].
  intros H. pose proof (trimStart_length s). lia.
Qed.

Lemma trimEnd_length s : String.length (trimEnd s) <= String.length s.
Proof.
  induction s as [|c s IH]; simpl; [lia|].
  destruct (trimEnd s); [destruct (is_ws c)|]; simpl in *; lia.
Qed.

Lemma trimEnd_same s :
  String.length (trimEnd s) = String.length s -> trimEnd s = s.
Proof.
  induction s as [|c s IH]; simpl; [reflexivity|].
  pose proof (trimEnd_length s) as Hl.
  destruct (trimEnd s) as [|d t] eqn:Ht.
  - destruct (is_ws c); simpl; intros H; [discriminate|].
    destruct s; [reflexivity|simpl in H; discriminate].
  - simpl. intros H. f_equal. apply IH. simpl. lia.
Qed.

Lemma trim_same s : String.length (trim s) = String.length s -> trim s = s.
Proof.
  unfold trim. intros H.
  pose proof (trimStart_length s). pose proof (trimEnd_length (trimStart s)).
  assert (Hs : trimStart s = s) by (apply trimStart_same; lia).
  rewrite Hs in *. apply trimEnd_same; lia.
Qed.

Lemma trimEnd_hex s : all_hex s = true -> trimEnd s = s.
Proof.
  induction s as [|c s IH]; simpl; [reflexivity|].
  intros H. apply andb_true_iff in H as [Hc Hs].
  rewrite (IH Hs). rewrite (is_hex_not_ws _ Hc). destruct s; reflexivity.
Qed.

Lemma trim_hex s : all_hex s = true -> trim s = s.
Proof.
  intros H. unfold trim.
  assert (Hs : trimStart s = s).
  { destruct s as [|c s]; [reflexivity|]. simpl in *.
    apply andb_true_iff in H as [Hc _]. now rewrite (is_hex_not_ws _ Hc). }
  rewrite Hs. now apply trimEnd_hex.
Qed.

Lemma isErrorMessage_hash64 s : isErrorMessage s = negb (test_hash64 s).
Proof.
  unfold isErrorMessage.
  destruct (test_hash64 s) eqn:Hh.
  - unfold test_hash64 in Hh. apply andb_true_iff in Hh as [Hl Hx].
    rewrite (trim_hex _ Hx). unfold test_hash64. rewrite Hl, Hx.
    rewrite !includes_all_hex by (assumption || reflexivity). reflexivity.
  - simpl. destruct (String.length s =? 64) eqn:Hl.
    2:{ simpl. rewrite !orb_true_r. reflexivity. }
    destruct (test_hash64 (trim s)) eqn:Ht.
    2:{ simpl. rewrite !orb_true_r. reflexivity. }
    exfalso. pose proof Ht as Ht'. unfold test_hash64 in Ht'.
    apply andb_true_iff in Ht' as [Ht' _].
    apply Nat.eqb_eq in Ht', Hl.
    rewrite (trim_same s) in Ht by lia. congruence.
Qed.

(** ** A program logic for invariants of the world *)

Section Preservation.
Context {L : Type} {E : Env L}.
Variable Inv : World L -> Prop.

Lemma preserves_ret R A (a : A) : preserves Inv (@ret L R A a).
Proof. intros w Hw. exact Hw. Qed.

Lemma preserves_return_ R A (r : R) : preserves Inv (@return_ L R A r).
Proof. intros w Hw. exact Hw. Qed.

Lemma preserves_throw R A msg : preserves Inv (@throw L R A msg).
Proof. intros w Hw. exact Hw. Qed.

Lemma preserves_bind R A B (m : M L R A) (k : A -> M L R B) :
  preserves Inv m -> (forall a, preserves Inv (k a)) -> preserves Inv (bind m k).
Proof.
  intros Hm Hk w Hw. unfold bind. specialize (Hm w Hw).
  destruct (m w) as [[a|r|e] w']; simpl in *; auto. now apply Hk.
Qed.

Lemma preserves_try_catch R A (m : M L R A) h :
  preserves Inv m -> (forall e, preserves Inv (h e)) -> preserves Inv (try_catch m h).
Proof.
  intros Hm Hh w Hw. unfold try_catch. specialize (Hm w Hw).
  destruct (m w) as [[a|r|e] w']; simpl in *; auto. now apply Hh.
Qed.

Lemma preserves_call R A (f : M L A A) : preserves Inv f -> preserves Inv (@call L R A f).
Proof.
  intros Hf w Hw. unfold call. specialize (Hf w Hw).
  destruct (f w) as [[a|r|e] w']; simpl in *; auto.
Qed.

Lemma preserves_await R A (f : World L -> A * World L) :
  (forall w, Inv w -> Inv (snd (f w))) -> preserves Inv (@await L R A f).
Proof.
  intros Hf w Hw. unfold await. specialize (Hf w Hw).
  destruct (f w); simpl in *; auto.
Qed.

(** Reads preserve every invariant. *)
Lemma preserves_pc_read R A (f : PathChain L -> L -> thrown A) :
  preserves Inv (@pc_read L R A E f).
Proof.
  intros w Hw. unfold pc_read. destruct pathchain; [|exact Hw].
  destruct (f p (ledger w)); exact Hw.
Qed.

Lemma preserves_fs_secretFiles R h : preserves Inv (@fs_secretFiles L R E h).
Proof.
  intros w Hw. unfold fs_secretFiles.
  destruct (readSecretsDir h (ledger w)); exact Hw.
Qed.

Lemma preserves_Entity_findPioneer R : preserves Inv (@Entity.findPioneer L R).
Proof. intros w Hw. exact Hw. Qed.
Lemma preserves_Entity_findOne R p : preserves Inv (@Entity.findOne L R p).
Proof. intros w Hw. exact Hw. Qed.
Lemma preserves_Entity_findByPk R i : preserves Inv (@Entity.findByPk L R i).
Proof. intros w Hw. exact Hw. Qed.
Lemma preserves_Secret_findOne R p t : preserves Inv (@Secret.findOne L R p t).
Proof. intros w Hw. exact Hw. Qed.
Lemma preserves_Login_usernameExists R u : preserves Inv (@Login.usernameExists L R u).
Proof. intros w Hw. exact Hw. Qed.
Lemma preserves_Login_findOne R i : preserves Inv (@Login.findOne L R i).
Proof. intros w Hw. exact Hw. Qed.

End Preservation.

Create HintDb pres.
#[export] Hint Resolve preserves_ret preserves_return_ preserves_throw
  preserves_pc_read preserves_fs_secretFiles preserves_Entity_findPioneer
  preserves_Entity_findOne preserves_Entity_findByPk preserves_Secret_findOne
  preserves_Login_usernameExists preserves_Login_findOne : pres.

Ltac pres_step :=
  match goal with
  | |- preserves _ (bind _ _) => apply preserves_bind; [|intros]
  | |- preserves _ (try_catch _ _) => apply preserves_try_catch; [|intros]
  | |- preserves _ (call _) => apply preserves_call
  | |- preserves _ (match ?x with _ => _ end) => destruct x
  | |- preserves _ (let (_, _) := ?x in _) => destruct x
  | |- preserves _ _ => solve [auto with pres]
  end.

Ltac pres := repeat pres_step.

Section ReadOnly.
Context {L : Type} {E : Env L}.
Variable Inv : World L -> Prop.

Lemma preserves_getters R :
  (forall a b, preserves Inv (@getSecret L R E a b)) /\
  (forall a b, preserves Inv (@getEntity L R E a b)) /\
  (forall a, preserves Inv (@getObject L R E a)) /\
  (forall a, preserves Inv (@getPioneer L R E a)) /\
  (forall a, preserves Inv (@isSecretUsed L R E a)).
Proof. repeat split; intros; unfold getSecret, getEntity, getObject, getPioneer, isSecretUsed; pres. Qed.

Lemma preserves_lookup_chain R (a b c : M L R pcval) :
  preserves Inv a -> preserves Inv b -> preserves Inv c ->
  preserves Inv (lookup_chain a b c).
Proof. intros. unfold lookup_chain. pres. Qed.

Lemma preserves_lookup_guarded R (a b c : M L R pcval) :
  preserves Inv a -> preserves Inv b -> preserves Inv c ->
  preserves Inv (lookup_guarded a b c).
Proof. intros. unfold lookup_guarded. pres. Qed.

Lemma preserves_checkSecret_body s : preserves Inv (checkSecret_body s).
Proof.
  destruct (preserves_getters CheckResult) as (? & ? & ? & ? & ?).
  unfold checkSecret_body. pres.
Qed.

Lemma preserves_fetchEntityInfo_body i : preserves Inv (@fetchEntityInfo_body L i).
Proof. unfold fetchEntityInfo_body. pres. Qed.

End ReadOnly.

(** Invariants that no statement on the relational store can break, and
    that the two minting calls of the library keep. *)
Section Stable.
Context {L : Type} {E : Env L}.
Variable Inv : World L -> Prop.

Hypothesis Inv_db : forall w d t,
  Inv w -> Inv {| db := d; tx := t; ledger := ledger w; clock := clock w;
              journal := journal w |}.
Hypothesis Inv_clock : forall w c,
  Inv w -> Inv {| db := db w; tx := tx w; ledger := ledger w; clock := c;
              journal := journal w |}.
Hypothesis Inv_log : forall w e, is_db_effect e -> Inv w -> Inv (log_effect e w).
Hypothesis Inv_makePioneer : forall lib w,
  pathchain = Some lib -> Inv w ->
  Inv (log_effect LedgerMakePioneer
       {| db := db w; tx := tx w;
          ledger := snd (pc_makePioneer lib (ledger w));
          clock := clock w; journal := journal w |}).
Hypothesis Inv_makeEntity : forall lib s w,
  pathchain = Some lib -> Inv w ->
  Inv (log_effect (LedgerMakeEntity s)
       {| db := db w; tx := tx w;
          ledger := snd (pc_makeEntity lib s (ledger w));
          clock := clock w; journal := journal w |}).

Lemma Inv_store t d w : Inv w -> Inv (store t d w).
Proof.
  intros Hw. exact (Inv_db w d (tx w) Hw).
Qed.

Lemma preserves_new_Date R : preserves Inv (@new_Date L R).
Proof. intros w Hw. simpl. now apply Inv_clock. Qed.

Lemma preserves_Entity_create R p a t : preserves Inv (@Entity.create L R E p a t).
Proof.
  intros w Hw. unfold Entity.create. destruct (db_fault _); [exact Hw|].
  simpl. apply Inv_log; [exact I|]. exact (Inv_db w _ _ Hw).
Qed.

Lemma preserves_Secret_create R p o ot u t :
  preserves Inv (@Secret.create L R E p o ot u t).
Proof.
  intros w Hw. unfold Secret.create. destruct (db_fault _); [exact Hw|].
  simpl. apply Inv_log; [exact I|]. exact (Inv_db w _ _ Hw).
Qed.

Lemma preserves_Secret_save R r t : preserves Inv (@Secret.save L R E r t).
Proof.
  intros w Hw. unfold Secret.save. destruct (db_fault _); [exact Hw|].
  simpl. apply Inv_log; [exact I|]. exact (Inv_db w _ _ Hw).
Qed.

Lemma preserves_Login_create R i e p s t :
  preserves Inv (@Login.create L R E i e p s t).
Proof.
  intros w Hw. unfold Login.create. destruct (db_fault _); [exact Hw|].
  destruct (existsb _ _); [exact Hw|].
  simpl. apply Inv_log; [exact I|]. exact (Inv_db w _ _ Hw).
Qed.

Lemma preserves_sequelize_transaction R :
  preserves Inv (@sequelize_transaction L R E).
Proof.
  intros w Hw. unfold sequelize_transaction.
  destruct (db_fault _); [exact Hw|].
  simpl. apply Inv_log; [exact I|]. now apply (Inv_db w).
Qed.

Lemma preserves_transaction_commit R :
  preserves Inv (@transaction_commit L R E).
Proof.
  intros w Hw. unfold transaction_commit.
  destruct (db_fault _); simpl; [now apply (Inv_db w)|].
  apply Inv_log; [exact I|]. now apply (Inv_db w).
Qed.

Lemma preserves_transaction_rollback R :
  preserves Inv (@transaction_rollback L R).
Proof.
  intros w Hw. unfold transaction_rollback.
  destruct (tx w) as [[]|]; [|exact Hw].
  simpl. apply Inv_log; [exact I|]. now apply (Inv_db w).
Qed.

Lemma preserves_createPioneer R : preserves Inv (@createPioneer L R E).
Proof.
  intros w Hw. unfold createPioneer, pc_write.
  pose proof (fun lib => @Inv_makePioneer lib w) as H.
  destruct pathchain as [lib|]; [|exact Hw].
  specialize (H lib eq_refl Hw).
  destruct (pc_makePioneer lib (ledger w)) as [[a|e] l']; exact H.
Qed.

Lemma preserves_createEntity R s : preserves Inv (@createEntity L R E s).
Proof.
  intros w Hw. unfold createEntity, pc_write.
  pose proof (fun lib => @Inv_makeEntity lib s w) as H.
  destruct pathchain as [lib|]; [|exact Hw].
  specialize (H lib eq_refl Hw).
  destruct (pc_makeEntity lib s (ledger w)) as [[a|e] l']; exact H.
Qed.

Hint Resolve preserves_new_Date preserves_Entity_create
  preserves_Secret_create preserves_Secret_save preserves_Login_create
  preserves_sequelize_transaction preserves_transaction_commit
  preserves_transaction_rollback preserves_createPioneer
  preserves_createEntity : pres.

Ltac getters R :=
  destruct (preserves_getters Inv R) as (? & ? & ? & ? & ?).

Lemma preserves_pioneer_secret_hash R h :
  preserves Inv (@pioneer_secret_hash L R E h).
Proof. getters R. unfold pioneer_secret_hash. pres. Qed.

Lemma preserves_initializeSystem : preserves Inv initializeSystem.
Proof.
  getters InitResult. pose proof preserves_pioneer_secret_hash.
  unfold initializeSystem, Secret.findByPath. pres.
Qed.

Lemma preserves_markAsUsed R r : preserves Inv (@Secret.markAsUsed L R E r).
Proof. unfold Secret.markAsUsed. pres. Qed.

Lemma preserves_register_bootstrap : preserves Inv register_bootstrap.
Proof.
  pose proof preserves_initializeSystem. pose proof preserves_markAsUsed.
  unfold register_bootstrap. pres.
Qed.

Lemma preserves_register_secret n : preserves Inv (register_secret n).
Proof.
  getters RegisterResult.
  unfold register_secret. pres. apply preserves_lookup_guarded; auto.
Qed.

Lemma preserves_register_mint n : preserves Inv (register_mint n).
Proof. getters RegisterResult. unfold register_mint. pres. Qed.

Lemma preserves_register_entityObj h o : preserves Inv (register_entityObj h o).
Proof.
  getters RegisterResult.
  unfold register_entityObj. pres. apply preserves_lookup_guarded; auto.
Qed.

(** The transaction block up to and including the commit and the
    rollback; the confirmation to PathChain is a premise. *)
Lemma preserves_register_transaction n u p a o :
  preserves Inv (useSecret (R:=RegisterResult) n) ->
  preserves Inv (register_transaction n u p a o).
Proof. intros. unfold register_transaction. pres. Qed.

Lemma preserves_register_offline s n u p :
  preserves Inv (register_offline s n u p).
Proof.
  pose proof preserves_initializeSystem.
  unfold register_offline. pres.
Qed.

End Stable.

(* ------------------------------------------------------------------ *)
(** ** Queries leave the world as it was *)

Section Unchanged.
Context {L : Type} {E : Env L}.

Lemma preserves_pathchain_ancestor_path (Inv : World L -> Prop) R e :
  preserves Inv (@pathchain_ancestor_path L R E e).
Proof.
  destruct (preserves_getters Inv R) as (? & ? & ? & ? & ?).
  unfold pathchain_ancestor_path. pres. apply preserves_lookup_chain; auto.
Qed.

Lemma preserves_fetchEntityInfo (Inv : World L -> Prop) i w :
  Inv w -> Inv (snd (@fetchEntityInfo L i w)).
Proof.
  intros Hw. unfold fetchEntityInfo.
  pose proof (preserves_fetchEntityInfo_body Inv i w Hw) as H.
  destruct (fetchEntityInfo_body i w) as [[a|r|e] w']; exact H.
Qed.

Lemma preserves_getAncestorInfo_body (Inv : World L -> Prop) i :
  preserves Inv (getAncestorInfo_body i).
Proof.
  destruct (preserves_getters Inv AncestorResult) as (? & ? & ? & ? & ?).
  pose proof (preserves_pathchain_ancestor_path Inv AncestorResult).
  unfold getAncestorInfo_body, ancestor_report. pres.
  - apply preserves_lookup_chain; auto.
  - apply preserves_await. apply preserves_fetchEntityInfo.
Qed.

(** A computation that keeps every invariant leaves the world as it
    found it. *)
Lemma preserves_all_unchanged R A (m : M L R A) :
  (forall Inv, preserves Inv m) -> forall w, snd (m w) = w.
Proof. intros H w. symmetry. exact (H (eq w) w eq_refl). Qed.

Lemma checkSecret_unchanged s w : snd (checkSecret s w) = w.
Proof.
  unfold checkSecret.
  pose proof (preserves_all_unchanged _ _ _
                (fun Inv => preserves_checkSecret_body Inv s) w) as H.
  destruct (checkSecret_body s w) as [[a|r|e] w']; exact H.
Qed.

Lemma getAncestorInfo_unchanged i w : snd (getAncestorInfo i w) = w.
Proof.
  unfold getAncestorInfo.
  pose proof (preserves_all_unchanged _ _ _
                (fun Inv => preserves_getAncestorInfo_body Inv i) w) as H.
  destruct (getAncestorInfo_body i w) as [[a|r|e] w']; exact H.
Qed.

End Unchanged.

Ltac break_inner :=
  match goal with
  | |- context [match ?x with _ => _ end] =>
      lazymatch x with
      | context [match _ with _ => _ end] => fail
      | _ => destruct x eqn:?
      end
  end.

(** C9. checkSecret is a read-only probe: for every input it leaves the
    whole world unchanged (the three tables, the open transaction, the
    ledger, the journal of effects), and it returns either a verdict
    without error or a failure with valid and unused both false. *)
Theorem checkSecret_read_only {L} {E : Env L} (secretInput : string)
    (w : World L) :
  snd (checkSecret secretInput w) = w /\
  (check_error (fst (checkSecret secretInput w)) = None \/
   exists c msg, fst (checkSecret secretInput w) = check_failure c msg).
Proof.
  split; [apply checkSecret_unchanged|].
  unfold checkSecret, checkSecret_body, isSecretUsed, getSecret, getObject,
    pc_read, try_catch, bind, ret, return_, isAvailable.
  repeat (break_inner; simpl); eauto.
Qed.

(* ------------------------------------------------------------------ *)
(** ** The ancestor query *)

Section Resolver.
Context {L : Type} {E : Env L}.

Lemma reads_pc_read R A (f : PathChain L -> L -> thrown A) :
  reads (@pc_read L R A E f).
Proof.
  intros w. unfold pc_read. destruct pathchain; [|eauto].
  destruct (f p (ledger w)); eauto.
Qed.

Lemma lookup_chain_total R (a b c : M L R pcval) :
  reads a -> reads b -> reads c ->
  forall w, exists v, lookup_chain a b c w = (Val v, w).
Proof.
  intros Ha Hb Hc w. unfold lookup_chain, try_catch, bind, ret.
  destruct (Ha w) as [[v1 ->]|[e ->]]; [|eauto].
  destruct v1 as [o|s|].
  - simpl. eauto.
  - destruct (Hb w) as [[v2 ->]|[e ->]]; [|eauto].
    destruct v2; simpl; eauto;
      destruct (Hc w) as [[v3 ->]|[e ->]]; eauto.
  - simpl. destruct (Hc w) as [[v3 ->]|[e ->]]; eauto.
Qed.

Lemma pathchain_ancestor_path_total R e w :
  exists p, @pathchain_ancestor_path L R E e w = (Val p, w).
Proof.
  unfold pathchain_ancestor_path, try_catch, bind.
  destruct (lookup_chain_total R _ _ _
              (reads_pc_read R _ (fun lib => pc_getEntityObj lib (extractHash (e_path e)) ""))
              (reads_pc_read R _ (fun lib => pc_getEntityObj lib (extractHash (e_path e)) ""))
              (reads_pc_read R _ (fun lib => pc_getObj lib (e_path e))) w)
    as [v Hv].
  unfold getEntity, getObject. rewrite Hv. destruct v; simpl; eauto.
Qed.

Lemma fetchEntityInfo_found i a (w : World L) :
  i <> 0 -> find (fun r => e_id r =? i) (entity (db w)) = Some a ->
  exists l, fetchEntityInfo i w = (FetchOk a l, w).
Proof.
  intros Hi Hf. unfold fetchEntityInfo, fetchEntityInfo_body.
  destruct i; [contradiction|].
  unfold bind, Entity.findByPk, Login.findOne, return_. simpl.
  rewrite Hf. eauto.
Qed.

Lemma fetchEntityInfo_code i (w : World L) err :
  fst (fetchEntityInfo i w) = FetchErr err -> code err <> ANCESTOR_NOT_FOUND.
Proof.
  unfold fetchEntityInfo, fetchEntityInfo_body.
  destruct i; simpl.
  - intros H; inversion H; simpl; discriminate.
  - unfold bind, Entity.findByPk, Login.findOne, return_. simpl.
    destruct (find _ _); simpl; intros H; inversion H; simpl; discriminate.
Qed.

Lemma ancestor_report_run a w :
  ancestor_report a w =
  (Ret match fst (fetchEntityInfo (e_id a) w) with
       | FetchErr err => AncestorErr err
       | FetchOk row l => AncestorOk row (pathchain_data a w) l
       end, w).
Proof.
  unfold ancestor_report, pathchain_data, bind, await.
  destruct (lookup_chain_total AncestorResult _ _ _
              (reads_pc_read _ _ (fun lib => pc_getEntityObj lib (strip_entities (e_path a)) ""))
              (reads_pc_read _ _ (fun lib => pc_getEntityObj lib (strip_entities (e_path a)) ""))
              (reads_pc_read _ _ (fun lib => pc_getObj lib (e_path a))) w)
    as [v Hv].
  unfold getEntity, getObject in *. rewrite Hv. simpl.
  pose proof (preserves_fetchEntityInfo (eq w) (e_id a) w eq_refl) as Hw.
  destruct (fetchEntityInfo (e_id a) w) as [[row l|err] w']; simpl in *;
    subst w'; destruct v; reflexivity.
Qed.

Lemma getAncestorInfo_eq n e w :
  find (fun r => e_id r =? S n) (entity (db w)) = Some e ->
  fst (getAncestorInfo (S n) w) =
  match match link_row w e with
        | Some a => Some a
        | None => fallback_row w e
        end with
  | None => AncestorErr {| code := ANCESTOR_NOT_FOUND;
                           message := "Ancestor entity not found" |}
  | Some a =>
      match fst (fetchEntityInfo (e_id a) w) with
      | FetchErr err => AncestorErr err
      | FetchOk row l => AncestorOk row (pathchain_data a w) l
      end
  end.
Proof.
  intros Hf.
  unfold getAncestorInfo, getAncestorInfo_body, link_row, fallback_row.
  unfold bind, Entity.findByPk, Entity.findOne, ret, return_.
  cbv beta iota delta [view]. rewrite Hf.
  destruct (pathchain_ancestor_path_total AncestorResult e w) as [p Hp].
  destruct (ancestor_link e) as [aid|];
    [destruct (find (fun r => e_id r =? aid) (entity (db w))) as [a|]|];
    rewrite ?Hp; simpl; rewrite ?ancestor_report_run; try reflexivity;
    (destruct p as [p|];
     [destruct (find (fun r => String.eqb (e_path r) p) (entity (db w)))|];
     rewrite ?ancestor_report_run; reflexivity).
Qed.
End Resolver.

(** C7, as amended. getAncestorInfo never writes: the world, and with it
    the row's stored ancestor link, is left as it was (no repair). It
    answers with the row the stored link leads to when there is one; else
    with the row whose path is the ancestor pointer of the entity's
    PathChain record; and it answers ANCESTOR_NOT_FOUND exactly when neither
    leads to a row. *)
Theorem getAncestorInfo_resolution {L} {E : Env L} (w : World L)
    (entityId : nat) (e : EntityRow) :
  entityId <> 0 ->
  find (fun r => e_id r =? entityId) (entity (db w)) = Some e ->
  snd (getAncestorInfo entityId w) = w
  /\ (forall a, link_row w e = Some a ->
        exists data l, fst (getAncestorInfo entityId w) = AncestorOk a data l)
  /\ (forall lib o,
        pathchain = Some lib ->
        pc_getEntityObj lib (extractHash (e_path e)) "" (ledger w)
          = Returned (PObj o) ->
        fst (pathchain_ancestor_path (R:=AncestorResult) e w)
          = Val (or_null (o_ancestor o)))
  /\ (forall a, link_row w e = None -> fallback_row w e = Some a ->
        e_id a <> 0 ->
        find (fun r => e_id r =? e_id a) (entity (db w)) = Some a ->
        exists data l, fst (getAncestorInfo entityId w) = AncestorOk a data l)
  /\ (ancestor_error (fst (getAncestorInfo entityId w)) = Some ANCESTOR_NOT_FOUND
      <-> link_row w e = None /\ fallback_row w e = None).
Proof.
  intros Hid Hf. destruct entityId as [|n]; [contradiction|].
  pose proof (getAncestorInfo_eq n e w Hf) as Heq.
  split; [apply getAncestorInfo_unchanged|].
  split; [|split; [|split]].
  - intros a Ha. rewrite Heq, Ha.
    assert (Hida : e_id a <> 0 /\
                   find (fun r => e_id r =? e_id a) (entity (db w)) = Some a).
    { unfold link_row in Ha. destruct (ancestor_link e) as [aid|] eqn:Hl;
        [|discriminate].
      destruct (find_some _ _ Ha) as [_ Hq]. simpl in Hq.
      apply Nat.eqb_eq in Hq.
      unfold ancestor_link in Hl. destruct (e_ancestor_id e) as [[|k]|];
        inversion Hl; subst. split; [lia|assumption]. }
    destruct Hida as [H0 Hfa].
    destruct (fetchEntityInfo_found _ a w H0 Hfa) as [l ->]. simpl. eauto.
  - intros lib o Hlib Hobj.
    unfold pathchain_ancestor_path, lookup_chain, try_catch, bind, getEntity,
      pc_read, ret. rewrite Hlib, Hobj. reflexivity.
  - intros a Hl Hfb H0 Hfa. rewrite Heq, Hl, Hfb.
    destruct (fetchEntityInfo_found _ a w H0 Hfa) as [l ->]. simpl. eauto.
  - rewrite Heq. split.
    + intros H. destruct (link_row w e) as [a|].
      * exfalso. destruct (fst (fetchEntityInfo (e_id a) w)) eqn:Hfe;
          simpl in H; [discriminate|].
        inversion H. eapply fetchEntityInfo_code; eauto.
      * split; [reflexivity|]. destruct (fallback_row w e) as [a|]; [|reflexivity].
        exfalso. destruct (fst (fetchEntityInfo (e_id a) w)) eqn:Hfe;
          simpl in H; [discriminate|].
        inversion H. eapply fetchEntityInfo_code; eauto.
    + intros [-> ->]. reflexivity.
Qed.

Lemma getAncestorInfo_resolution_witness :
  2 <> 0 /\
  find (fun r => e_id r =? 2) (entity (db world_unlinked))
    = Some {| e_id := 2; e_path := "entities/" ++ Ledger.digest 5;
              e_ancestor_id := None |} /\
  snd (getAncestorInfo (E:=online) 2 world_unlinked) = world_unlinked.
Proof.
  split; [discriminate|]. split; [reflexivity|].
  exact (proj1 (@getAncestorInfo_resolution _ online world_unlinked 2
                  {| e_id := 2; e_path := "entities/" ++ Ledger.digest 5;
                     e_ancestor_id := None |}
                  (fun H => Nat.neq_succ_0 1 H) eq_refl)).
Defined.

Lemma getAncestorInfo_leaves_link_missing :
  ~ repairs_link (E:=online) 2 world_unlinked.
Proof.
  intros H.
  destruct (H {| e_id := 2; e_path := "entities/" ++ Ledger.digest 5;
                 e_ancestor_id := None |}
              {| e_id := 1; e_path := "entities/" ++ Ledger.digest 1;
                 e_ancestor_id := None |}
              (Some {| o_tag := "entities/" ++ Ledger.digest 1;
                       o_register := "moments/" ++ Ledger.digest 0;
                       o_ancestor := "entities/" ++ Ledger.digest 1;
                       o_author := ""; o_user := ""; o_used := false |})
              None eq_refl eq_refl eq_refl) as [e' [Hf He]].
  vm_compute in Hf. inversion Hf; subst e'. discriminate He.
Qed.

(* ------------------------------------------------------------------ *)
(** ** The transaction block of register *)

Section Rollback.
Context {L : Type} {E : Env L}.

Ltac run_tx :=
  unfold register_transaction, sequelize_transaction, try_catch, bind,
    Entity.create, Secret.findOne, Secret.save, Secret.create, Login.create,
    new_Date, transaction_commit, transaction_rollback, useSecret, pc_write,
    throw, ret, log_effect, store, view, secret_upsert_op in *;
  cbn [db tx ledger clock journal entity secret login] in *.

(** A failing write inside the transaction: register sends ROLLBACK and
    rethrows, and the rows written before the failing statement stay. *)
Lemma register_transaction_rolls_back n u p anc eo (w : World L) :
  db_fault OpBegin = false ->
  db_fault OpEntityCreate = true \/
  db_fault (secret_upsert_op (db w) n) = true \/
  db_fault OpLoginCreate = true ->
  exists msg w',
    register_transaction n u p anc eo w = (Exn msg, w') /\
    tx w' = None /\ ledger w' = ledger w /\
    login (db w') = login (db w) /\
    (db_fault OpEntityCreate = true -> db w' = db w) /\
    (db_fault OpEntityCreate = false ->
     entity (db w') =
     (entity (db w) ++
      [{| e_id := next_id (map e_id (entity (db w))); e_path := o_tag eo;
          e_ancestor_id := Some (e_id anc) |}])%list) /\
    (db_fault OpEntityCreate = false ->
     db_fault (secret_upsert_op (db w) n) = false ->
     secret (db w') =
     secret (registered_db (db w) n u (hashPassword p) (o_tag eo)
                           (e_id anc) (clock w))) /\
    exists j, journal w' = (journal w ++ DbBegin :: j ++ [DbRollback])%list /\
              no_commit j.
Proof.
  intros Hb Hfault. run_tx. unfold registered_db. rewrite Hb.
  cbn [db tx ledger clock journal entity secret login].
  destruct (db_fault OpEntityCreate) eqn:He.
  { do 2 eexists. split; [reflexivity|].
    cbn [db tx ledger clock journal entity secret login].
    repeat split; try reflexivity; try (intros; discriminate).
    exists []. split; [now rewrite <- app_assoc|]. intros []. }
  cbn [db tx ledger clock journal entity secret login].
  destruct (find _ (secret (db w))) as [s|] eqn:Hs;
    cbn [db tx ledger clock journal entity secret login].
  - destruct (db_fault OpSecretSave) eqn:Hs2.
    { do 2 eexists. split; [reflexivity|].
      cbn [db tx ledger clock journal entity secret login].
      repeat split; try reflexivity; try (intros; discriminate).
      exists [DbInsert TEntity]. split; [now rewrite <- !app_assoc|].
      intros [H|[]]; discriminate. }
    cbn [db tx ledger clock journal entity secret login].
    destruct (db_fault OpLoginCreate) eqn:Hl.
    2:{ destruct Hfault as [?|[?|?]]; discriminate. }
    do 2 eexists. split; [reflexivity|].
    cbn [db tx ledger clock journal entity secret login].
    repeat split; try reflexivity; try (intros; discriminate).
    exists [DbInsert TEntity; DbUpdate TSecret].
    split; [now rewrite <- !app_assoc|].
    intros [H|[H|[]]]; discriminate.
  - destruct (db_fault OpSecretCreate) eqn:Hs2.
    { do 2 eexists. split; [reflexivity|].
      cbn [db tx ledger clock journal entity secret login].
      repeat split; try reflexivity; try (intros; discriminate).
      exists [DbInsert TEntity]. split; [now rewrite <- !app_assoc|].
      intros [H|[]]; discriminate. }
    cbn [db tx ledger clock journal entity secret login].
    destruct (db_fault OpLoginCreate) eqn:Hl.
    2:{ destruct Hfault as [?|[?|?]]; discriminate. }
    do 2 eexists. split; [reflexivity|].
    cbn [db tx ledger clock journal entity secret login].
    repeat split; try reflexivity; try (intros; discriminate).
    exists [DbInsert TEntity; DbInsert TSecret].
    split; [now rewrite <- !app_assoc|].
    intros [H|[H|[]]]; discriminate.
Qed.
End Rollback.

Lemma confirms_ok_sound j : forall committed,
  confirms_ok committed j = true ->
  forall pre h post, j = (pre ++ LedgerUseSecret h :: post)%list ->
                     committed = true \/ In DbCommit pre.
Proof.
  induction j as [|e j IH]; intros c Hc pre h post Hj.
  - destruct pre; discriminate.
  - destruct pre as [|e' pre]; simpl in Hj; inversion Hj; subst.
    + simpl in Hc. apply andb_true_iff in Hc as [-> _]. now left.
    + destruct e'; simpl in Hc;
        try (destruct (IH _ Hc pre h post eq_refl) as [?|?];
             [now left | right; now right]).
      * apply andb_true_iff in Hc as [-> Hc]. now left.
      * right. now left.
Qed.

Lemma confirms_ok_ordered j :
  confirms_ok false j = true -> confirm_after_commit j.
Proof.
  intros H pre h post Hj.
  destruct (confirms_ok_sound j false H pre h post Hj); [discriminate|assumption].
Qed.

Lemma no_confirm_ordered j : no_confirm j -> confirm_after_commit j.
Proof.
  intros H pre h post ->. exfalso. apply (H h), in_or_app. right. now left.
Qed.

Lemma no_confirm_app j1 j2 :
  no_confirm j1 -> no_confirm j2 -> no_confirm (j1 ++ j2).
Proof. intros H1 H2 h Hin. apply in_app_or in Hin as [?|?]; [eapply H1|eapply H2]; eauto. Qed.

Lemma confirm_after_no_confirm j1 j2 :
  no_confirm j1 -> confirm_after_commit j2 -> confirm_after_commit (j1 ++ j2).
Proof.
  intros H1 H2 pre h post Hj.
  revert pre Hj. induction j1 as [|e j1 IH]; intros pre Hj.
  - simpl in Hj. eauto.
  - destruct pre as [|e' pre]; simpl in Hj; inversion Hj; subst.
    + exfalso. apply (H1 h). now left.
    + right. apply IH; [|assumption]. intros h' Hin. apply (H1 h'). now right.
Qed.

Section Commit.
Context {L : Type} {E : Env L}.

Ltac run_tx :=
  unfold register_transaction, sequelize_transaction, try_catch, bind,
    Entity.create, Secret.findOne, Secret.save, Secret.create, Login.create,
    new_Date, transaction_commit, transaction_rollback, useSecret, pc_write,
    throw, ret, log_effect, store, view, secret_upsert_op in *;
  cbn [db tx ledger clock journal entity secret login] in *.

Lemma register_transaction_commits n u p anc eo (w : World L) :
  db_fault OpBegin = false ->
  db_fault OpEntityCreate = false ->
  db_fault (secret_upsert_op (db w) n) = false ->
  db_fault OpLoginCreate = false ->
  db_fault OpCommit = false ->
  existsb (Login.has_id u) (login (db w)) = false ->
  exists w',
    register_transaction n u p anc eo w =
      (Val {| e_id := next_id (map e_id (entity (db w)));
              e_path := o_tag eo;
              e_ancestor_id := Some (e_id anc) |}, w') /\
    db w' = registered_db (db w) n u (hashPassword p) (o_tag eo)
                          (e_id anc) (clock w) /\
    tx w' = None /\
    ledger w' = match pathchain with
                | Some lib => snd (pc_useSecret lib n (ledger w))
                | None => ledger w
                end /\
    journal w' =
      (journal w ++
       [DbBegin; DbInsert TEntity; secret_upsert_effect (db w) n;
        DbInsert TLogin; DbCommit] ++
       match pathchain with
       | Some _ => [LedgerUseSecret n]
       | None => []
       end)%list.
Proof.
  intros Hb He Hs Hl Hc Hu. run_tx. unfold registered_db, secret_upsert_effect.
  rewrite Hb, He.
  cbn [db tx ledger clock journal entity secret login].
  destruct (find _ (secret (db w))) as [s|] eqn:Hfs;
    cbn [db tx ledger clock journal entity secret login];
    rewrite Hs; cbn [db tx ledger clock journal entity secret login];
    rewrite Hl, Hu; cbn [db tx ledger clock journal entity secret login];
    rewrite Hc; cbn [db tx ledger clock journal entity secret login];
    (destruct pathchain as [lib|];
     [destruct (pc_useSecret lib n (ledger w)) as [[v|e] l']|]);
    eexists; (split; [reflexivity|]);
    cbn [db tx ledger clock journal entity secret login snd];
    repeat split; rewrite <- ?app_assoc; reflexivity.
Qed.

Lemma register_transaction_ordered n u p anc eo (w : World L) :
  exists j,
    journal (snd (register_transaction n u p anc eo w))
      = (journal w ++ j)%list /\
    confirm_after_commit j.
Proof.
  run_tx.
  repeat (break_inner;
          cbn [db tx ledger clock journal entity secret login fst snd]);
    match goal with
    | |- exists j, ?a = (?a ++ j)%list /\ _ =>
        exists []; split; [now rewrite app_nil_r|]; now apply confirms_ok_ordered
    | |- exists j, _ = (_ ++ j)%list /\ _ =>
        eexists; split;
        [rewrite <- ?app_assoc; cbn [app]; reflexivity|];
        now apply confirms_ok_ordered
    end.
Qed.
End Commit.

(* ------------------------------------------------------------------ *)
(** ** From the request to the transaction *)

Lemma existsb_filter_length {A} (f : A -> bool) l :
  existsb f l = false -> (0 <? List.length (filter f l)) = false.
Proof.
  induction l as [|a l IH]; simpl; [reflexivity|].
  destruct (f a); simpl; [discriminate|exact IH].
Qed.

Lemma truthy_normalize s : truthy (normalizeSecretHash s) = true -> truthy s = true.
Proof. unfold normalizeSecretHash. destruct (truthy s); [reflexivity|discriminate]. Qed.

Lemma test_hash64_truthy h : test_hash64 h = true -> truthy h = true.
Proof.
  unfold test_hash64. intros H. apply andb_true_iff in H as [H _].
  destruct h; [discriminate|reflexivity].
Qed.

Section MainPath.
Context {L : Type} {E : Env L}.
Variable lib : PathChain L.
Hypothesis Hlib : pathchain = Some lib.

Lemma register_secret_found n o (w : World L) :
  pc_isSecretUsed lib n (ledger w) <> Returned (UBool true) ->
  pc_getSecretObj lib n "" (ledger w) = Returned (PObj o) ->
  register_secret n w = (Val o, w).
Proof.
  intros Hu Ho.
  unfold register_secret, lookup_guarded, try_catch, bind, isSecretUsed,
    getSecret, pc_read, ret. rewrite Hlib. cbv beta iota.
  destruct (pc_isSecretUsed lib n (ledger w)) as [[[|]|s]|e];
    try congruence; cbv beta iota; rewrite Ho; reflexivity.
Qed.

Lemma register_mint_hash n h l' (w : World L) :
  pc_makeEntity lib n (ledger w) = (Returned h, l') ->
  test_hash64 h = true ->
  register_mint n w = (Val h, minted n l' w).
Proof.
  intros Hm Hh.
  unfold register_mint, try_catch, bind, createEntity, pc_write, ret.
  rewrite Hlib, Hm. cbv beta iota.
  rewrite (test_hash64_truthy _ Hh), isErrorMessage_hash64, Hh. reflexivity.
Qed.

Lemma register_entityObj_found h so eo (w : World L) :
  pc_getEntityObj lib h "" (ledger w) = Returned (PObj eo) ->
  register_entityObj h so w = (Val eo, w).
Proof.
  intros Ho.
  unfold register_entityObj, lookup_guarded, try_catch, bind, getEntity,
    pc_read, ret. rewrite Hlib. cbv beta iota. rewrite Ho. reflexivity.
Qed.
End MainPath.

Section Dispatch.
Context {L : Type} {E : Env L}.
Variables (u p : string) (w : World L).
Hypothesis Hreq : well_formed_request u p.
Hypothesis Hfresh : fresh_username u w.

Lemma register_branch s :
  register s u p w =
  register_answer u
    ((if negb (truthy s) then register_bootstrap
      else if negb (truthy (normalizeSecretHash s))
           then return_ (failure INVALID_SECRET "Invalid secret format")
           else if isAvailable
                then register_online (normalizeSecretHash s) u p
                else register_offline s (normalizeSecretHash s) u p) w).
Proof.
  destruct Hreq as (Hu & Hlen & Hp).
  unfold register, register_body, register_answer.
  set (branch := if negb (truthy s) then register_bootstrap else _).
  assert (Hlen' : (255 <? String.length u) = false) by (apply Nat.ltb_ge; lia).
  unfold bind at 1. rewrite Hu, Hlen'. cbn [negb orb]. unfold ret at 1.
  unfold bind at 1. rewrite Hp. cbn [negb]. unfold ret at 1.
  unfold bind at 1. unfold Login.usernameExists at 1.
  cbv beta iota delta [view].
  rewrite (existsb_filter_length _ _ Hfresh).
  unfold bind at 1. unfold ret at 1.
  unfold bind at 1.
  destruct (branch w) as [[ent|r|e] w']; reflexivity.
Qed.

Lemma register_dispatch_bootstrap :
  register "" u p w = register_answer u (register_bootstrap w).
Proof. now rewrite register_branch. Qed.

Lemma register_dispatch_online s lib :
  truthy (normalizeSecretHash s) = true -> pathchain = Some lib ->
  register s u p w =
  register_answer u (register_online (normalizeSecretHash s) u p w).
Proof.
  intros Hs Hlib. rewrite register_branch.
  rewrite (truthy_normalize _ Hs), Hs. unfold isAvailable. now rewrite Hlib.
Qed.

Lemma register_dispatch_offline s :
  truthy (normalizeSecretHash s) = true -> pathchain = None ->
  register s u p w =
  register_answer u (register_offline s (normalizeSecretHash s) u p w).
Proof.
  intros Hs Hlib. rewrite register_branch.
  rewrite (truthy_normalize _ Hs), Hs. unfold isAvailable. now rewrite Hlib.
Qed.
End Dispatch.

Lemma register_reaches_transaction {L} {E : Env L} lib (w : World L)
    s u p so anc h l' eo :
  ReachesTransaction lib w s u p so anc h l' eo ->
  register s u p w =
  register_answer u
    (register_transaction (normalizeSecretHash s) u p anc eo
                          (minted (normalizeSecretHash s) l' w)).
Proof.
  intros [Hreq Hfresh Hs Hlib Hunused Hso Hanc Hmint Hh Heo].
  rewrite (register_dispatch_online u p w Hreq Hfresh s lib Hs Hlib).
  f_equal. unfold register_online. unfold bind at 1.
  rewrite (register_secret_found lib Hlib _ so w) by (congruence || assumption).
  unfold bind at 1. unfold Entity.findOne at 1. cbv beta iota delta [view].
  rewrite Hanc.
  unfold bind at 1. rewrite (register_mint_hash lib Hlib _ h l' w Hmint Hh).
  unfold bind at 1.
  rewrite (register_entityObj_found lib Hlib h so eo (minted _ l' w)) by exact Heo.
  reflexivity.
Qed.

(* ------------------------------------------------------------------ *)
(** ** Confirmation comes after the commit *)

Section Leads.
Context {L : Type}.

Lemma leads_bind_l R A B (P Q : World L -> Prop) (m : M L R A) (k : A -> M L R B) :
  preserves P m -> (forall w, P w -> Q w) -> (forall a, leads P Q (k a)) ->
  leads P Q (bind m k).
Proof.
  intros Hm HPQ Hk w Hw. unfold bind. specialize (Hm w Hw).
  destruct (m w) as [[a|r|e] w']; simpl in *; auto. now apply Hk.
Qed.

Lemma leads_bind_r R A B (P Q : World L -> Prop) (m : M L R A) (k : A -> M L R B) :
  leads P Q m -> (forall a, preserves Q (k a)) -> leads P Q (bind m k).
Proof.
  intros Hm Hk w Hw. unfold bind. specialize (Hm w Hw).
  destruct (m w) as [[a|r|e] w']; simpl in *; auto. now apply Hk.
Qed.

Lemma leads_weaken R A (P Q : World L -> Prop) (m : M L R A) :
  preserves P m -> (forall w, P w -> Q w) -> leads P Q m.
Proof. intros Hm HPQ w Hw. apply HPQ, Hm, Hw. Qed.
End Leads.

Section Ordering.
Context {L : Type} {E : Env L}.
Variable j0 : list Effect.
Implicit Types w : World L.

Lemma quiet_ordered (w : World L) : quiet_since j0 w -> ordered_since j0 w.
Proof. intros [j [H1 H2]]. exists j. split; [assumption|now apply no_confirm_ordered]. Qed.

Lemma quiet_log (w : World L) e :
  (forall h, e <> LedgerUseSecret h) -> quiet_since j0 w -> quiet_since j0 (log_effect e w).
Proof.
  intros He [j [H1 H2]]. exists (j ++ [e])%list. simpl. rewrite H1, app_assoc.
  split; [reflexivity|]. apply no_confirm_app; [assumption|].
  intros h [->|[]]. now apply (He h).
Qed.

Lemma quiet_stable_db : forall w d t, quiet_since j0 w ->
  quiet_since j0 {| db := d; tx := t; ledger := ledger w; clock := clock w;
                 journal := journal w |}.
Proof. intros w d t H. exact H. Qed.
Lemma quiet_stable_clock : forall w c, quiet_since j0 w ->
  quiet_since j0 {| db := db w; tx := tx w; ledger := ledger w; clock := c;
                 journal := journal w |}.
Proof. intros w c H. exact H. Qed.
Lemma quiet_stable_log : forall w e, is_db_effect e -> quiet_since j0 w -> quiet_since j0 (log_effect e w).
Proof. intros w e He. apply quiet_log. intros h ->. exact He. Qed.
Lemma quiet_stable_mk : forall (lib : PathChain L) w, pathchain = Some lib -> quiet_since j0 w ->
  quiet_since j0 (log_effect LedgerMakePioneer
       {| db := db w; tx := tx w;
          ledger := snd (pc_makePioneer lib (ledger w));
          clock := clock w; journal := journal w |}).
Proof. intros lib w _ H. apply quiet_log; [discriminate|exact H]. Qed.
Lemma quiet_stable_mint : forall (lib : PathChain L) s w, pathchain = Some lib -> quiet_since j0 w ->
  quiet_since j0 (log_effect (LedgerMakeEntity s)
       {| db := db w; tx := tx w;
          ledger := snd (pc_makeEntity lib s (ledger w));
          clock := clock w; journal := journal w |}).
Proof. intros lib s w _ H. apply quiet_log; [discriminate|exact H]. Qed.

Ltac quiet_stable :=
  first [exact quiet_stable_db | exact quiet_stable_clock
        | exact quiet_stable_log | exact quiet_stable_mk
        | exact quiet_stable_mint].

Lemma register_transaction_leads n u p anc eo :
  leads (quiet_since j0) (ordered_since j0) (register_transaction n u p anc eo).
Proof.
  intros w [j [H1 H2]].
  destruct (register_transaction_ordered n u p anc eo w) as [j2 [H3 H4]].
  exists (j ++ j2)%list. rewrite H3, H1, app_assoc. split; [reflexivity|].
  now apply confirm_after_no_confirm.
Qed.

Lemma register_body_leads s u p :
  leads (quiet_since j0) (ordered_since j0) (register_body s u p).
Proof.
  unfold register_body.
  apply leads_bind_l; [pres|apply quiet_ordered|intros _].
  apply leads_bind_l; [pres|apply quiet_ordered|intros _].
  apply leads_bind_l; [pres|apply quiet_ordered|intros taken].
  apply leads_bind_l; [pres|apply quiet_ordered|intros _].
  apply leads_bind_r; [|intros; pres].
  destruct (negb (truthy s)).
  { apply leads_weaken; [|apply quiet_ordered].
    apply preserves_register_bootstrap; quiet_stable. }
  destruct (negb (truthy (normalizeSecretHash s))).
  { apply leads_weaken; [pres|apply quiet_ordered]. }
  destruct isAvailable.
  2:{ apply leads_weaken; [|apply quiet_ordered].
      apply preserves_register_offline; quiet_stable. }
  unfold register_online.
  apply leads_bind_l;
    [apply preserves_register_secret; quiet_stable|apply quiet_ordered|intros so].
  apply leads_bind_l; [pres|apply quiet_ordered|intros [anc|]].
  2:{ apply leads_weaken; [pres|apply quiet_ordered]. }
  apply leads_bind_l;
    [apply preserves_register_mint; quiet_stable|apply quiet_ordered|intros h].
  apply leads_bind_l;
    [apply preserves_register_entityObj; quiet_stable|apply quiet_ordered|intros eo].
  apply register_transaction_leads.
Qed.
End Ordering.

Lemma register_confirms_after_commit {L} {E : Env L} s u p (w : World L) :
  exists j, journal (snd (register s u p w)) = (journal w ++ j)%list /\
            confirm_after_commit j.
Proof.
  assert (H0 : quiet_since (journal w) w).
  { exists []. split; [now rewrite app_nil_r|]. intros h []. }
  pose proof (register_body_leads (journal w) s u p w H0) as H.
  unfold register. destruct (register_body s u p w) as [[a|r|e] w']; exact H.
Qed.

(** C1. A registration that reached the Projection Store transaction (a
    valid unused secret, a fresh username, the transaction opened) and in
    which a write after the entity INSERT fails (the secret upsert or the
    login INSERT) returns DATABASE_ERROR and sends ROLLBACK, but the tables
    are MyISAM and the rollback removes nothing: the entity row of the
    attempt stays, and with it the used secret row when it was the login
    INSERT that failed, so the tables are not as they were. No login row
    is left, and the ledger keeps the secret consumed by the mint. *)
Theorem register_rollback_keeps_rows {L} {E : Env L} (lib : PathChain L)
    (w : World L) (secretHash username password : string) (secretObj : PCObj)
    (ancestor : EntityRow) (entityHash : string) (l' : L) (entityObj : PCObj) :
  ReachesTransaction lib w secretHash username password secretObj ancestor
                     entityHash l' entityObj ->
  db_fault OpBegin = false ->
  db_fault OpEntityCreate = false ->
  db_fault (secret_upsert_op (db w) (normalizeSecretHash secretHash)) = true \/
  db_fault OpLoginCreate = true ->
  let n := normalizeSecretHash secretHash in
  let w' := snd (register secretHash username password w) in
  (exists msg, fst (register secretHash username password w)
               = failure DATABASE_ERROR msg) /\
  In DbRollback (journal w') /\
  entity (db w') =
    (entity (db w) ++
     [{| e_id := next_id (map e_id (entity (db w)));
         e_path := o_tag entityObj;
         e_ancestor_id := Some (e_id ancestor) |}])%list /\
  (db_fault (secret_upsert_op (db w) n) = false ->
   secret (db w') =
   secret (registered_db (db w) n username (hashPassword password)
                         (o_tag entityObj) (e_id ancestor) (clock w))) /\
  login (db w') = login (db w) /\
  db w' <> db w /\
  tx w' = None /\ ledger w' = l'.
Proof.
  intros Hr Hb He Hfault n w'. subst n w'.
  rewrite (register_reaches_transaction lib w _ _ _ _ _ _ _ _ Hr).
  destruct (register_transaction_rolls_back (normalizeSecretHash secretHash)
              username password ancestor entityObj
              (minted (normalizeSecretHash secretHash) l' w) Hb
              (or_intror Hfault))
    as (msg & w1 & Hrun & Htx & Hl & Hlogin & _ & Hent & Hsec & j & Hj & _).
  rewrite Hrun. cbn [register_answer fst snd].
  specialize (Hent He). specialize (Hsec He).
  cbn [minted db log_effect ledger clock] in *.
  split; [eauto|]. split.
  { rewrite Hj. apply in_or_app. right. right. apply in_or_app. right.
    now left. }
  split; [exact Hent|]. split; [exact Hsec|]. split; [exact Hlogin|].
  split; [|split; assumption].
  intros Heq. rewrite Heq in Hent.
  apply (f_equal (@List.length _)) in Hent. rewrite length_app in Hent.
  simpl in Hent. lia.
Qed.

(** C8. In a registration whose transaction commits, useSecret is
    called once, right after the commit, and when it throws the exception
    is swallowed: the journal ends with the commit followed by the
    confirmation, the ledger is the one the failed call left, register
    returns success with the token and the entity summary, and the tables
    are those of the three writes. In every run of register, a call of
    useSecret comes only after a commit. *)
Theorem register_confirmation_best_effort {L} {E : Env L} (lib : PathChain L)
    (w : World L) (secretHash username password : string) (secretObj : PCObj)
    (ancestor : EntityRow) (entityHash : string) (l' : L) (entityObj : PCObj)
    (msg : string) (l'' : L) :
  ReachesTransaction lib w secretHash username password secretObj ancestor
                     entityHash l' entityObj ->
  db_fault OpBegin = false ->
  db_fault OpEntityCreate = false ->
  db_fault (secret_upsert_op (db w) (normalizeSecretHash secretHash)) = false ->
  db_fault OpLoginCreate = false ->
  db_fault OpCommit = false ->
  pc_useSecret lib (normalizeSecretHash secretHash) l' = (Threw msg, l'') ->
  let n := normalizeSecretHash secretHash in
  let newId := next_id (map e_id (entity (db w))) in
  let w' := snd (register secretHash username password w) in
  fst (register secretHash username password w)
    = Success (generateToken newId username (o_tag entityObj))
              {| sum_id := newId; sum_path := o_tag entityObj;
                 sum_username := username |} /\
  db w' = registered_db (db w) n username
                        (hashPassword password) (o_tag entityObj)
                        (e_id ancestor) (clock w) /\
  tx w' = None /\
  ledger w' = l'' /\
  journal w' =
    (journal w ++
     [LedgerMakeEntity n; DbBegin; DbInsert TEntity;
      secret_upsert_effect (db w) n; DbInsert TLogin; DbCommit;
      LedgerUseSecret n])%list /\
  (forall s u p (w0 : World L),
     exists j, journal (snd (register s u p w0)) = (journal w0 ++ j)%list /\
               confirm_after_commit j).
Proof.
  intros Hr Hb He Hs Hl Hc Huse n newId w'. subst n newId w'.
  rewrite (register_reaches_transaction lib w _ _ _ _ _ _ _ _ Hr).
  assert (Hfresh : fresh_username username w) by (now destruct Hr).
  assert (Hlib : pathchain = Some lib) by (now destruct Hr).
  destruct (register_transaction_commits (normalizeSecretHash secretHash)
              username password ancestor entityObj
              (minted (normalizeSecretHash secretHash) l' w)
              Hb He Hs Hl Hc Hfresh)
    as (w1 & Hrun & Hdb & Htx & Hledger & Hj).
  rewrite Hrun. cbn [register_answer fst snd e_id e_path].
  rewrite Hlib in Hledger, Hj.
  cbn [minted db log_effect ledger clock journal] in *.
  rewrite Huse in Hledger. cbn [snd] in Hledger.
  split; [reflexivity|]. split; [assumption|]. split; [assumption|].
  split; [assumption|]. split.
  - rewrite Hj, <- app_assoc. reflexivity.
  - intros. apply register_confirms_after_commit.
Qed.

Ltac reaches :=
  constructor;
  [ repeat split; vm_compute; lia
  | reflexivity
  | vm_compute; reflexivity
  | reflexivity
  | vm_compute; reflexivity .. ].

Lemma register_rollback_keeps_rows_witness :
  ReachesTransaction (E:=login_fails) Ledger.lib world_bootstrapped
                     S0 "bob" "pw2" S0_obj pioneer_row bob_hash
                     ledger_minted bob_obj /\
  fst (register (E:=login_fails) S0 "bob" "pw2" world_bootstrapped)
    = failure DATABASE_ERROR "SequelizeDatabaseError: INSERT INTO login" /\
  entity (db (snd (register (E:=login_fails) S0 "bob" "pw2"
                            world_bootstrapped)))
    = [pioneer_row;
       {| e_id := 2; e_path := "entities/" ++ bob_hash;
          e_ancestor_id := Some 1 |}] /\
  login (db (snd (register (E:=login_fails) S0 "bob" "pw2"
                           world_bootstrapped))) = [].
Proof.
  assert (Hr : ReachesTransaction (E:=login_fails) Ledger.lib world_bootstrapped
                     S0 "bob" "pw2" S0_obj pioneer_row bob_hash
                     ledger_minted bob_obj) by reaches.
  split; [exact Hr|]. split; [vm_compute; reflexivity|].
  destruct (@register_rollback_keeps_rows _ login_fails Ledger.lib
              world_bootstrapped S0 "bob" "pw2" S0_obj pioneer_row bob_hash
              ledger_minted bob_obj Hr eq_refl eq_refl (or_intror eq_refl))
    as (_ & _ & Hent & _ & Hlogin & _).
  split; [exact Hent|exact Hlogin].
Defined.

Lemma register_confirmation_best_effort_witness :
  ReachesTransaction (E:=unconfirmed) lib_unconfirmed world_bootstrapped
                     S0 "bob" "pw2" S0_obj pioneer_row bob_hash
                     ledger_minted bob_obj /\
  pc_useSecret lib_unconfirmed S0 ledger_minted
    = (Threw "EIO: cannot write secret", ledger_minted) /\
  fst (register (E:=unconfirmed) S0 "bob" "pw2" world_bootstrapped)
    = Success "jwt:bob:entities/0000000000000000000000000000000000000000000000000000000000000005"
              {| sum_id := 2; sum_path := "entities/" ++ bob_hash;
                 sum_username := "bob" |} /\
  db (snd (register (E:=unconfirmed) S0 "bob" "pw2" world_bootstrapped))
    = db world_bob.
Proof.
  assert (Hr : ReachesTransaction (E:=unconfirmed) lib_unconfirmed
                     world_bootstrapped
                     S0 "bob" "pw2" S0_obj pioneer_row bob_hash
                     ledger_minted bob_obj) by reaches.
  split; [exact Hr|]. split; [reflexivity|].
  pose proof (@register_confirmation_best_effort _ unconfirmed lib_unconfirmed
           world_bootstrapped S0 "bob" "pw2" S0_obj pioneer_row bob_hash
           ledger_minted bob_obj "EIO: cannot write secret" ledger_minted
           Hr eq_refl eq_refl eq_refl eq_refl eq_refl eq_refl)
    as (H1 & H2 & _).
  split.
  - etransitivity; [exact H1|vm_compute; reflexivity].
  - etransitivity; [exact H2|vm_compute; reflexivity].
Defined.

(* ------------------------------------------------------------------ *)
(** ** Registration without PathChain *)

Lemma register_used_secret_now {L} {E : Env L} (lib : PathChain L)
    (w : World L) (s u p : string) :
  pathchain = Some lib ->
  well_formed_request u p -> fresh_username u w ->
  truthy (normalizeSecretHash s) = true ->
  pc_isSecretUsed lib (normalizeSecretHash s) (ledger w)
    = Returned (UBool true) ->
  register s u p w = (failure USED_SECRET "Secret has already been used", w).
Proof.
  intros Hlib Hreq Hfresh Hs Hused.
  rewrite (register_dispatch_online u p w Hreq Hfresh s lib Hs Hlib).
  unfold register_online, register_secret. unfold bind at 1. unfold bind at 1.
  unfold bind at 1. unfold try_catch, isSecretUsed, pc_read.
  rewrite Hlib, Hused. reflexivity.
Qed.

(** C10, as amended. When PathChain is not loaded, register with a secret
    input that is non-empty after normalization, well-formed credentials
    and a fresh username, on a store that already has a pioneer row and
    without database faults, consults no ledger and creates in one
    transaction the entity row 'entities/{normalized secret}' under the
    pioneer, a secret row already marked used and the login row, and
    returns success. *)
Theorem register_offline_accepts {L} {E : Env L} (w : World L)
    (secretHash username password : string) (pioneer : EntityRow) :
  pathchain = None ->
  well_formed_request username password ->
  fresh_username username w ->
  truthy (normalizeSecretHash secretHash) = true ->
  Entity.lowest_id (filter Entity.is_root (entity (db w))) = Some pioneer ->
  db_fault OpBegin = false ->
  db_fault OpEntityCreate = false ->
  db_fault OpSecretCreate = false ->
  db_fault OpLoginCreate = false ->
  db_fault OpCommit = false ->
  let n := normalizeSecretHash secretHash in
  let newId := next_id (map e_id (entity (db w))) in
  let w' := snd (register secretHash username password w) in
  fst (register secretHash username password w)
    = Success (generateToken newId username ("entities/" ++ n))
              {| sum_id := newId; sum_path := "entities/" ++ n;
                 sum_username := username |} /\
  db w' =
    {| entity := (entity (db w) ++
                  [{| e_id := newId; e_path := "entities/" ++ n;
                      e_ancestor_id := Some (e_id pioneer) |}])%list;
       secret := (secret (db w) ++
                  [{| s_id := next_id (map s_id (secret (db w)));
                      s_path := "secrets/" ++ n;
                      s_owner_id := e_id pioneer;
                      s_owner_type_id := OwnerType_ENTITY;
                      s_used_at := Some (clock w) |}])%list;
       login := (login (db w) ++
                 [{| l_id := username; l_entity_id := newId;
                     l_password := hashPassword password;
                     l_secret := Some n |}])%list |} /\
  ledger w' = ledger w /\
  journal w' = (journal w ++ [DbBegin; DbInsert TEntity; DbInsert TSecret;
                              DbInsert TLogin; DbCommit])%list.
Proof.
  intros Hlib Hreq Hfresh Hs Hp Hb He Hsc Hl Hc n newId. subst n newId.
  rewrite (register_dispatch_offline username password w Hreq Hfresh
             secretHash Hs Hlib).
  unfold register_offline, sequelize_transaction, try_catch, bind,
    Entity.findPioneer, Entity.create, Secret.create, Login.create,
    new_Date, transaction_commit, ret, log_effect, store, view, or_null.
  cbn [db tx ledger clock journal entity secret login].
  rewrite Hp, Hb. cbn [db tx ledger clock journal entity secret login].
  rewrite He. cbn [db tx ledger clock journal entity secret login].
  rewrite Hsc. cbn [db tx ledger clock journal entity secret login].
  rewrite Hl. unfold fresh_username in Hfresh. rewrite Hfresh.
  cbn [db tx ledger clock journal entity secret login].
  rewrite Hc, Hs.
  cbn [register_answer fst snd db tx ledger clock journal e_id e_path].
  repeat split. now rewrite <- !app_assoc.
Qed.

Lemma register_offline_accepts_witness :
  well_formed_request "zed" "pw" /\
  fresh_username "zed" world_bootstrapped /\
  fst (register (E:=offline) " secrets/abc " "zed" "pw" world_bootstrapped)
    = Success "jwt:zed:entities/abc"
              {| sum_id := 2; sum_path := "entities/abc";
                 sum_username := "zed" |}.
Proof.
  assert (Hreq : well_formed_request "zed" "pw")
    by (repeat split; vm_compute; lia).
  split; [exact Hreq|]. split; [reflexivity|].
  exact (proj1 (@register_offline_accepts _ offline world_bootstrapped
                  " secrets/abc " "zed" "pw" pioneer_row eq_refl Hreq
                  eq_refl eq_refl eq_refl eq_refl eq_refl eq_refl eq_refl
                  eq_refl)).
Defined.

Lemma register_offline_rejects_blank_secret :
  ~ offline_accepts_any_secret (E:=offline) world_bootstrapped "  " "zed" "pw".
Proof.
  intros H.
  assert (Hreq : well_formed_request "zed" "pw")
    by (repeat split; vm_compute; lia).
  destruct (H eq_refl ltac:(discriminate) Hreq eq_refl) as (tok & summary & Hs).
  vm_compute in Hs. discriminate Hs.
Qed.

(** A secret of two blanks is answered with INVALID_SECRET, and on a store
    without pioneer row the call ends in DATABASE_ERROR. *)
Example register_offline_answers :
  fst (register (E:=offline) "  " "zed" "pw" world_bootstrapped)
    = failure INVALID_SECRET "Invalid secret format" /\
  fst (register (E:=offline) "abc" "zed" "pw" fresh_world)
    = failure DATABASE_ERROR "PathChain library not available".
Proof. split; vm_compute; reflexivity. Qed.

(* ------------------------------------------------------------------ *)
(** ** Reading the answer of createEntity *)

Lemma register_mint_cases {L} {E : Env L} (lib : PathChain L)
    (normalizedSecretHash : string) (w : World L) :
  pathchain = Some lib ->
  let r := pc_makeEntity lib normalizedSecretHash (ledger w) in
  let text := mint_text (fst r) in
  snd (register_mint normalizedSecretHash w)
    = minted normalizedSecretHash (snd r) w /\
  match mint_reading text
          (pc_isSecretUsed lib normalizedSecretHash (snd r)) with
  | Minted h => fst (register_mint normalizedSecretHash w) = Val h
  | Refused c =>
      exists msg,
        fst (register_mint normalizedSecretHash w) = Ret (failure c msg)
  | Crashed msg => fst (register_mint normalizedSecretHash w) = Exn msg
  end /\
  ((exists h, fst (register_mint normalizedSecretHash w) = Val h)
   <-> test_hash64 text = true).
Proof.
  assert (Hno : forall (A B : Type) (x : outcome A B),
            (forall h, x <> Val h) ->
            ((exists h, x = Val h) <-> false = true)).
  { intros A B x Hx. split; [intros [h Hv]; now apply Hx in Hv|discriminate]. }
  intros Hlib r text. subst r text.
  unfold register_mint, mint_reading, minted, try_catch, bind, createEntity,
    isSecretUsed, pc_write, pc_read, ret, return_.
  rewrite Hlib.
  destruct (pc_makeEntity lib normalizedSecretHash (ledger w)) as [[s|e] l'];
    cbn [fst snd mint_text ledger];
    set (text := _ : string) in *.
  all: rewrite isErrorMessage_hash64; unfold log_effect; cbn [ledger].
  all: destruct (test_hash64 text) eqn:Hh;
    [rewrite (test_hash64_truthy _ Hh); cbn [negb];
     split; [reflexivity|split; [reflexivity|
       split; [reflexivity|intros _; eexists; reflexivity]]]|].
  all: destruct (truthy text); cbn [negb];
    [|split; [reflexivity|split; [eexists; reflexivity|
        apply Hno; discriminate]]].
  all: destruct (includes "used" text || includes "already" text);
    cbn [ledger db tx clock journal fst snd];
    [destruct (pc_isSecretUsed lib normalizedSecretHash l') as [[[|]|u]|msg]|];
    cbv beta iota;
    destruct (includes "Updater" text || includes "not identified" text
              || includes "not found" text);
    cbv beta iota; cbn [fst snd].
  all: (split; [reflexivity|]);
    (split; [solve [reflexivity | eexists; reflexivity]|]);
    (apply Hno; discriminate).
Qed.

(** C3, as amended. register takes the string that createEntity gave as
    a success exactly when it is 64 hexadecimal digits. Any other string is
    a failure: the empty string is ENTITY_RETRIEVAL_FAILED; a text with
    "used" or "already" is USED_SECRET when a second isSecretUsed returns
    true, and the exception itself when that call throws; failing that, a
    text with "Updater", "not identified" or "not found" is INVALID_SECRET;
    every other text is ENTITY_RETRIEVAL_FAILED. *)
Theorem register_mint_reading {L} {E : Env L} (lib : PathChain L)
    (normalizedSecretHash : string) (w : World L) :
  pathchain = Some lib ->
  let r := pc_makeEntity lib normalizedSecretHash (ledger w) in
  let text := mint_text (fst r) in
  snd (register_mint normalizedSecretHash w)
    = minted normalizedSecretHash (snd r) w /\
  match mint_reading text
          (pc_isSecretUsed lib normalizedSecretHash (snd r)) with
  | Minted h => fst (register_mint normalizedSecretHash w) = Val h
  | Refused c =>
      exists msg,
        fst (register_mint normalizedSecretHash w) = Ret (failure c msg)
  | Crashed msg => fst (register_mint normalizedSecretHash w) = Exn msg
  end /\
  ((exists h, fst (register_mint normalizedSecretHash w) = Val h)
   <-> test_hash64 text = true).
Proof. exact (register_mint_cases lib normalizedSecretHash w). Qed.

Lemma register_mint_reading_witness :
  @pathchain _ online = Some Ledger.lib /\
  fst (register_mint (E:=online) S0 world_bootstrapped) = Val bob_hash /\
  ((exists h, fst (register_mint (E:=online) S0 world_bootstrapped) = Val h)
   <-> test_hash64 bob_hash = true).
Proof.
  split; [reflexivity|].
  pose proof (@register_mint_reading _ online Ledger.lib S0 world_bootstrapped
                eq_refl) as (_ & H2 & H3).
  split; [exact H2|exact H3].
Defined.

Lemma register_mint_updater_is_invalid_secret :
  ~ mint_failure_is_used_or_failed (E:=updater) lib_updater S0
      world_bootstrapped.
Proof.
  intros H.
  destruct (H "Updater not identified" (ledger world_bootstrapped)
              eq_refl eq_refl) as [msg Hm].
  vm_compute in Hm. discriminate Hm.
Qed.

Example register_updater_answer :
  fst (register (E:=updater) S0 "bob" "pw2" world_bootstrapped)
  = failure INVALID_SECRET
      "Invalid secret: Updater not identified. The secret may have already been used or does not exist.".
Proof. vm_compute. reflexivity. Qed.

(* ------------------------------------------------------------------ *)
(** ** When the usage check fails *)

Section Extends.
Context {L : Type} {E : Env L}.
Variable j1 : list Effect.
Implicit Types w : World L.

Lemma extends_log e w : extends j1 w -> extends j1 (log_effect e w).
Proof.
  intros [j Hj]. exists (j ++ [e])%list. simpl. now rewrite Hj, app_assoc.
Qed.

Lemma preserves_useSecret_extends R n :
  preserves (extends j1) (@useSecret L R E n).
Proof.
  intros w Hw. unfold useSecret, pc_write.
  destruct pathchain as [lib|]; [|exact Hw].
  destruct (pc_useSecret lib n (ledger w)) as [[v|e] l'];
    simpl; apply (extends_log (LedgerUseSecret n)
      {| db := db w; tx := tx w; ledger := l'; clock := clock w;
         journal := journal w |}); exact Hw.
Qed.

Lemma register_tail_extends n u p anc so h :
  preserves (extends j1)
    (entityObj <- register_entityObj h so ;;
     register_transaction n u p anc entityObj).
Proof.
  assert (Hdb : forall w d t, extends j1 w ->
    extends j1 {| db := d; tx := t; ledger := ledger w; clock := clock w;
               journal := journal w |}) by (intros ? ? ? H; exact H).
  assert (Hck : forall w c, extends j1 w ->
    extends j1 {| db := db w; tx := tx w; ledger := ledger w; clock := c;
               journal := journal w |}) by (intros ? ? H; exact H).
  assert (Hlog : forall w e, is_db_effect e -> extends j1 w ->
                             extends j1 (log_effect e w))
    by (intros ? ? _; apply extends_log).
  apply preserves_bind.
  - pose proof (preserves_getters (extends j1) RegisterResult) as (? & ? & ? & ? & ?).
    unfold register_entityObj. pres. apply preserves_lookup_guarded; auto.
  - intros eo. apply preserves_register_transaction; auto.
    apply preserves_useSecret_extends.
Qed.
End Extends.

(** C5, as amended. When the usage check throws or returns a string,
    register and checkSecret do not stop there but go on to look the secret
    up. If a secret object is found, checkSecret reports it valid with
    unused = !used, and register, given the ancestor row, calls
    createEntity. If none is found (error strings from getSecret and
    getObject), both answer INVALID_SECRET and register changes nothing. *)
Theorem usage_check_error_falls_back_to_lookup {L} {E : Env L}
    (lib : PathChain L) (w : World L) (secretInput username password : string) :
  pathchain = Some lib ->
  well_formed_request username password ->
  fresh_username username w ->
  truthy (normalizeSecretHash secretInput) = true ->
  (forall b, pc_isSecretUsed lib (normalizeSecretHash secretInput) (ledger w)
             <> Returned (UBool b)) ->
  let n := normalizeSecretHash secretInput in
  (forall o,
     pc_getSecretObj lib n "" (ledger w) = Returned (PObj o) ->
     fst (checkSecret secretInput w)
       = {| valid := true; unused := negb (o_used o); check_error := None |}
     /\ forall ancestor,
          find (fun r => String.eqb (e_path r) (o_author o)) (entity (db w))
            = Some ancestor ->
          exists j,
            journal (snd (register secretInput username password w))
              = (journal w ++ LedgerMakeEntity n :: j)%list)
  /\
  (forall e1 e2,
     pc_getSecretObj lib n "" (ledger w) = Returned (PStr e1) ->
     pc_getObj lib ("secrets/" ++ n) (ledger w) = Returned (PStr e2) ->
     fst (checkSecret secretInput w)
       = check_failure INVALID_SECRET ("Invalid secret: " ++ e2)
     /\ register secretInput username password w
        = (failure INVALID_SECRET ("Invalid secret: " ++ e2), w)).
Proof.
  intros Hlib Hreq Hfresh Hs Herr n. subst n.
  set (n := normalizeSecretHash secretInput) in *.
  assert (Hin : truthy secretInput = true) by now apply truthy_normalize.
  split.
  - intros o Ho. split.
    + unfold checkSecret, checkSecret_body. rewrite Hin. fold n. rewrite Hs.
      unfold isAvailable. rewrite Hlib. cbn [negb].
      unfold try_catch, bind, isSecretUsed, getSecret, getObject, pc_read,
        ret, return_. rewrite Hlib. cbv beta iota.
      destruct (pc_isSecretUsed lib n (ledger w)) as [[b|m]|m];
        [now destruct (Herr b)| |]; cbv beta iota; rewrite Ho; reflexivity.
    + intros anc Hanc.
      rewrite (register_dispatch_online username password w Hreq Hfresh
                 secretInput lib Hs Hlib). fold n.
      unfold register_online. unfold bind at 1.
      rewrite (register_secret_found lib Hlib n o w (Herr true) Ho).
      unfold bind at 1. unfold Entity.findOne at 1.
      cbv beta iota delta [view]. rewrite Hanc.
      destruct (register_mint_cases lib n w Hlib) as (Hw1 & _ & _).
      unfold bind at 1.
      destruct (register_mint n w) as [[h|r|e] w1] eqn:Hm;
        cbn [snd] in Hw1; subst w1; cbn [register_answer snd].
      2,3: exists []; reflexivity.
      assert (H0 : extends (journal w ++ [LedgerMakeEntity n])
                     (minted n (snd (pc_makeEntity lib n (ledger w))) w))
        by (exists []; simpl; now rewrite app_nil_r).
      pose proof (register_tail_extends _ n username password anc o h _ H0)
        as [j Hj].
      match type of Hj with journal (snd ?X) = _ =>
        destruct X as [[ent|r|e] w2] end;
        cbn [snd] in Hj; cbn [register_answer snd]; exists j;
        rewrite Hj, <- app_assoc; reflexivity.
  - intros e1 e2 H1 H2. split.
    + unfold checkSecret, checkSecret_body. rewrite Hin. fold n. rewrite Hs.
      unfold isAvailable. rewrite Hlib. cbn [negb].
      unfold try_catch, bind, isSecretUsed, getSecret, getObject, pc_read,
        ret, return_. rewrite Hlib. cbv beta iota.
      destruct (pc_isSecretUsed lib n (ledger w)) as [[b|m]|m];
        [now destruct (Herr b)| |]; cbv beta iota; rewrite H1;
        cbv beta iota; rewrite H1; cbn [unusable]; cbv beta iota;
        rewrite H2; reflexivity.
    + rewrite (register_dispatch_online username password w Hreq Hfresh
                 secretInput lib Hs Hlib). fold n.
      unfold register_online, register_secret, lookup_guarded.
      unfold try_catch, bind, isSecretUsed, getSecret, getObject, pc_read,
        ret, return_. rewrite Hlib. cbv beta iota.
      destruct (pc_isSecretUsed lib n (ledger w)) as [[b|m]|m];
        [now destruct (Herr b)| |]; cbv beta iota; rewrite H1;
        cbv beta iota; rewrite H1; cbn [unusable]; cbv beta iota;
        rewrite H2; reflexivity.
Qed.

Lemma usage_check_error_falls_back_to_lookup_witness :
  well_formed_request "bob" "pw2" /\
  fresh_username "bob" world_bootstrapped /\
  (forall b, pc_isSecretUsed lib_unreadable (normalizeSecretHash S0)
               (ledger world_bootstrapped) <> Returned (UBool b)) /\
  fst (checkSecret (E:=unreadable) S0 world_bootstrapped)
    = {| valid := true; unused := true; check_error := None |}.
Proof.
  assert (Hreq : well_formed_request "bob" "pw2")
    by (repeat split; vm_compute; lia).
  assert (Herr : forall b, pc_isSecretUsed lib_unreadable
               (normalizeSecretHash S0) (ledger world_bootstrapped)
               <> Returned (UBool b)) by (intros b; discriminate).
  split; [exact Hreq|]. split; [reflexivity|]. split; [exact Herr|].
  exact (proj1 (proj1 (@usage_check_error_falls_back_to_lookup _ unreadable
           lib_unreadable world_bootstrapped S0 "bob" "pw2" eq_refl Hreq
           eq_refl ltac:(vm_compute; reflexivity) Herr) S0_obj
           ltac:(vm_compute; reflexivity))).
Defined.

Lemma register_mints_after_usage_check_error :
  ~ usage_error_blocks_mint (E:=unreadable) lib_unreadable
      world_bootstrapped S0 "bob" "pw2".
Proof.
  intros H. apply H; [reflexivity|intros b; discriminate|].
  vm_compute. tauto.
Qed.

(* ------------------------------------------------------------------ *)
(** ** initializeSystem *)

Section FirstCall.
Context {L : Type} {E : Env L}.

Lemma lowest_id_none rows : Entity.lowest_id rows = None -> rows = [].
Proof.
  destruct rows as [|r rows]; [reflexivity|]. simpl.
  destruct (Entity.lowest_id rows) as [m|]; [destruct (e_id r <=? e_id m)|];
    discriminate.
Qed.

Lemma initializeSystem_found (w : World L) p :
  Entity.lowest_id (roots (db w)) = Some p ->
  exists sh,
    initializeSystem w =
    (Ret {| init_pioneer := p; init_secret := None; init_isNew := false;
            init_secretHash := sh |}, w).
Proof.
  intros Hp. unfold initializeSystem, try_catch, bind, Entity.findPioneer,
    fs_secretFiles, ret, return_.
  cbv beta iota delta [view]. unfold roots in Hp. rewrite Hp.
  destruct (readSecretsDir (last_segment (e_path p)) (ledger w));
    cbv beta iota; eauto.
Qed.

Lemma initializeSystem_fresh (w : World L) :
  Entity.lowest_id (roots (db w)) = None ->
  match initializeSystem w with
  | (Ret r, w') =>
      init_isNew r = true /\
      entity (db w') = (entity (db w) ++ [init_pioneer r])%list /\
      e_ancestor_id (init_pioneer r) = None
  | (Exn _, w') => entity (db w') = entity (db w)
  | (Val _, _) => False
  end.
Proof.
  intros Hp. unfold initializeSystem, pioneer_secret_hash, try_catch, bind,
    Entity.findPioneer, Entity.create, Secret.findByPath, Secret.findOne,
    Secret.create, createPioneer, getPioneer, getSecret, pc_write, pc_read,
    fs_secretFiles, throw, ret, return_, log_effect, store, view.
  unfold roots in Hp. rewrite Hp.
  cbn [db tx ledger clock journal entity secret login].
  repeat (break_inner;
          cbn [db tx ledger clock journal entity secret login fst snd
               init_isNew init_pioneer e_ancestor_id]);
    auto.
Qed.
End FirstCall.

Section Roots.
Context {L : Type} {E : Env L}.

Lemma initializeSystem_run_found (w : World L) p :
  Entity.lowest_id (roots (db w)) = Some p ->
  exists sh,
    initializeSystem_run w =
    (Returned {| init_pioneer := p; init_secret := None;
                 init_isNew := false; init_secretHash := sh |}, w).
Proof.
  intros Hp. destruct (initializeSystem_found w p Hp) as [sh Hsh].
  exists sh. unfold initializeSystem_run. now rewrite Hsh.
Qed.

Lemma roots_app d row :
  Entity.is_root row = true ->
  filter Entity.is_root (entity d ++ [row]) = (roots d ++ [row])%list.
Proof. intros Hr. unfold roots. rewrite filter_app. simpl. now rewrite Hr. Qed.

Lemma is_root_none row : e_ancestor_id row = None -> Entity.is_root row = true.
Proof. unfold Entity.is_root. now intros ->. Qed.

(** One call: either nothing changes in the entity table, or the table
    had no root and gets exactly one. *)
Lemma initializeSystem_run_roots (w : World L) :
  roots (db (snd (initializeSystem_run w))) = roots (db w) \/
  (roots (db w) = [] /\
   exists p, roots (db (snd (initializeSystem_run w))) = [p] /\
             exists sec sh,
               fst (initializeSystem_run w) =
               Returned {| init_pioneer := p; init_secret := sec;
                           init_isNew := true; init_secretHash := sh |}).
Proof.
  unfold initializeSystem_run.
  destruct (Entity.lowest_id (roots (db w))) as [p|] eqn:Hp.
  - destruct (initializeSystem_found w p Hp) as [sh ->]. now left.
  - pose proof (initializeSystem_fresh w Hp) as H.
    destruct (initializeSystem w) as [[a|r|e] w']; [contradiction| |].
    + destruct H as (Hnew & Hent & Hanc). right.
      pose proof (lowest_id_none _ Hp) as H0. split; [exact H0|].
      exists (init_pioneer r). split.
      * unfold roots at 1. cbn [snd]. rewrite Hent.
        rewrite roots_app by now apply is_root_none. now rewrite H0.
      * destruct r as [rp rs rn rh]; simpl in *. subst rn. eauto.
    + left. cbn [snd]. unfold roots. now rewrite H.
Qed.

Lemma initializeSystem_times_roots n : forall (w : World L),
  List.length (roots (db w)) <= 1 ->
  List.length (roots (db (initializeSystem_times n w))) <= 1.
Proof.
  induction n as [|n IH]; intros w Hw; [exact Hw|].
  simpl. apply IH.
  destruct (initializeSystem_run_roots w) as [->|[_ [p [-> _]]]];
    [exact Hw|simpl; lia].
Qed.

Lemma lowest_id_single p : Entity.lowest_id [p] = Some p.
Proof. reflexivity. Qed.
End Roots.

(** C6. From a store with at most one root row, any number of calls of
    initializeSystem in a row leaves at most one root row. Once a call has
    returned, the row it returned is the only root row, and every later call
    returns that same row with isNew false and no secret, and leaves the
    store, the ledger and the journal as they were. *)
Theorem initializeSystem_idempotent {L} {E : Env L} (w w1 : World L)
    (r : InitResult) (n : nat) :
  List.length (roots (db w)) <= 1 ->
  initializeSystem_run w = (Returned r, w1) ->
  (forall k, List.length (roots (db (initializeSystem_times k w))) <= 1) /\
  roots (db w1) = [init_pioneer r] /\
  initializeSystem_times n w1 = w1 /\
  exists sh,
    initializeSystem_run w1 =
    (Returned {| init_pioneer := init_pioneer r; init_secret := None;
                 init_isNew := false; init_secretHash := sh |}, w1).
Proof.
  intros Hw Hrun.
  split; [intros k; now apply initializeSystem_times_roots|].
  assert (Hroots : roots (db w1) = [init_pioneer r]).
  { destruct (Entity.lowest_id (roots (db w))) as [p|] eqn:Hp.
    - destruct (initializeSystem_run_found w p Hp) as [sh Hsh].
      rewrite Hsh in Hrun. inversion Hrun; subst. cbn [init_pioneer].
      destruct (roots (db w1)) as [|x [|y rest]];
        [discriminate Hp| |simpl in Hw; lia].
      rewrite lowest_id_single in Hp. now inversion Hp.
    - destruct (initializeSystem_run_roots w) as [Hsame|[_ [p [Hp1 [sec [sh Hr]]]]]].
      + rewrite Hrun in Hsame. cbn [snd] in Hsame.
        exfalso. pose proof (initializeSystem_fresh w Hp) as H.
        unfold initializeSystem_run in Hrun.
        destruct (initializeSystem w) as [[a|r'|e] w'];
          [contradiction| |discriminate Hrun].
        inversion Hrun; subst. destruct H as (_ & Hent & Hanc).
        unfold roots at 1 in Hsame. rewrite Hent in Hsame.
        rewrite roots_app in Hsame by now apply is_root_none.
        apply (f_equal (@List.length _)) in Hsame.
        rewrite length_app in Hsame. simpl in Hsame. lia.
      + rewrite Hrun in Hp1, Hr. cbn [fst snd] in *. inversion Hr; subst.
        exact Hp1. }
  split; [exact Hroots|].
  assert (Hlow : Entity.lowest_id (roots (db w1)) = Some (init_pioneer r))
    by now rewrite Hroots.
  destruct (initializeSystem_run_found w1 _ Hlow) as [sh Hsh].
  split; [|eauto].
  induction n as [|k IH]; [reflexivity|].
  simpl. rewrite Hsh. exact IH.
Qed.

Lemma initializeSystem_idempotent_witness :
  List.length (roots (db fresh_world)) <= 1 /\
  initializeSystem_run (E:=online) fresh_world
    = (Returned first_init, world_initialized) /\
  roots (db world_initialized) = [pioneer_row] /\
  initializeSystem_times (E:=online) 3 world_initialized = world_initialized.
Proof.
  assert (H0 : List.length (roots (db fresh_world)) <= 1) by (simpl; lia).
  assert (Hrun : initializeSystem_run (E:=online) fresh_world
                 = (Returned first_init, world_initialized))
    by (vm_compute; reflexivity).
  split; [exact H0|]. split; [exact Hrun|].
  destruct (@initializeSystem_idempotent _ online fresh_world
              world_initialized first_init 3 H0 Hrun) as (_ & H2 & H3 & _).
  split; [exact H2|exact H3].
Defined.

(* ------------------------------------------------------------------ *)
(** ** Registration without a secret *)

Section PioneerSecret.
Context {L : Type} {E : Env L}.

Lemma pioneer_secret_hash_listed R h sh rest (w : World L) :
  readSecretsDir h (ledger w) = Returned (Some (sh :: rest)) ->
  truthy sh = true ->
  @pioneer_secret_hash L R E h w = (Val sh, w).
Proof.
  intros Hdir Hsh.
  unfold pioneer_secret_hash, try_catch, bind, fs_secretFiles, getSecret,
    pc_read, ret. rewrite Hdir. cbn [first_file].
  repeat (break_inner; cbv beta iota);
    try reflexivity;
    match goal with
    | H : negb (truthy sh) = true |- _ => rewrite Hsh in H; discriminate H
    end.
Qed.
End PioneerSecret.

(** C4. register without a secret: when a root row exists the answer is
    INVALID_SECRET and nothing changes; when none exists and PathChain
    creates and returns the pioneer, the new root row (null ancestor) is the
    registered entity itself, and the row of the pioneer's secret in the
    secret table has its used_at set. *)
Theorem register_without_secret {L} {E : Env L} (w : World L)
    (username password : string) :
  well_formed_request username password ->
  fresh_username username w ->
  (forall root,
     Entity.lowest_id (roots (db w)) = Some root ->
     register "" username password w
       = (failure INVALID_SECRET "Secret is required for registration", w))
  /\
  (forall lib pioneerHash l1 pioneerObj secretFile others,
     Entity.lowest_id (roots (db w)) = None ->
     pathchain = Some lib ->
     pc_makePioneer lib (ledger w) = (Returned pioneerHash, l1) ->
     truthy pioneerHash = true ->
     includes "error" pioneerHash = false ->
     pc_getPioneerObj lib pioneerHash l1 = Returned (PObj pioneerObj) ->
     readSecretsDir pioneerHash l1 = Returned (Some (secretFile :: others)) ->
     truthy secretFile = true ->
     db_fault OpEntityCreate = false ->
     db_fault OpSecretCreate = false ->
     db_fault OpSecretSave = false ->
     let newId := next_id (map e_id (entity (db w))) in
     let w' := snd (register "" username password w) in
     fst (register "" username password w)
       = Success (generateToken newId username (o_tag pioneerObj))
                 {| sum_id := newId; sum_path := o_tag pioneerObj;
                    sum_username := username |} /\
     entity (db w') = (entity (db w) ++
                       [{| e_id := newId; e_path := o_tag pioneerObj;
                           e_ancestor_id := None |}])%list /\
     (exists row, In row (secret (db w')) /\
                  s_path row = "secrets/" ++ secretFile /\
                  s_used_at row = Some (clock w)) /\
     ledger w' = l1).
Proof.
  intros Hreq Hfresh. split.
  - intros root Hroot.
    rewrite (register_dispatch_bootstrap username password w Hreq Hfresh).
    unfold register_bootstrap, bind, Entity.findPioneer.
    cbv beta iota delta [view]. unfold roots in Hroot. rewrite Hroot.
    reflexivity.
  - intros lib h l1 o sh rest Hnone Hlib Hmk Hh Herr Hobj Hdir Hsh He Hsc Hss
           newId w'. subst newId w'.
    cut (exists wf,
           register "" username password w =
           (Success (generateToken (next_id (map e_id (entity (db w))))
                                   username (o_tag o))
                    {| sum_id := next_id (map e_id (entity (db w)));
                       sum_path := o_tag o; sum_username := username |}, wf)
           /\ entity (db wf) = (entity (db w) ++
                       [{| e_id := next_id (map e_id (entity (db w)));
                           e_path := o_tag o;
                           e_ancestor_id := None |}])%list
           /\ (exists row, In row (secret (db wf)) /\
                  s_path row = "secrets/" ++ sh /\
                  s_used_at row = Some (clock w))
           /\ ledger wf = l1).
    { intros (wf & -> & H1 & H2 & H3). cbn [fst snd]. auto. }
    rewrite (register_dispatch_bootstrap username password w Hreq Hfresh).
    unfold register_bootstrap. unfold bind at 1. unfold Entity.findPioneer at 1.
    cbv beta iota delta [view]. unfold roots in Hnone. rewrite Hnone.
    unfold bind at 1. unfold call, initializeSystem.
    unfold try_catch at 1. unfold bind at 1. unfold Entity.findPioneer at 1.
    cbv beta iota delta [view]. rewrite Hnone.
    unfold bind at 1. unfold createPioneer, pc_write. rewrite Hlib, Hmk.
    cbv beta iota. unfold bind at 1. rewrite Hh, Herr. cbn [negb orb].
    unfold ret at 1. unfold bind at 1. unfold getPioneer, pc_read.
    rewrite Hlib. unfold log_effect at 1. cbn [ledger]. rewrite Hobj.
    unfold bind at 1. unfold Entity.create. rewrite He.
    cbv beta iota delta [view store]. cbn [db tx ledger clock journal entity].
    unfold bind at 1.
    rewrite (pioneer_secret_hash_listed _ h sh rest) by (cbn [ledger]; assumption).
    unfold bind at 1. unfold try_catch at 1. unfold bind at 1.
    unfold Secret.findByPath, Secret.findOne.
    cbn [db tx ledger clock journal entity secret login log_effect store
         view fst snd].
    destruct (find (fun r => String.eqb (s_path r) ("secrets/" ++ sh))
                   (secret (db w))) as [s|] eqn:Hfind.
    + unfold ret at 1. unfold return_ at 1. cbn [init_isNew negb init_secret].
      unfold bind at 1. unfold Secret.markAsUsed, bind, new_Date, Secret.save.
      rewrite Hss. unfold ret.
      cbn [db tx ledger clock journal entity secret login log_effect store
           view fst snd register_answer init_pioneer e_id e_path].
      eexists. split; [reflexivity|].
      cbn [db tx ledger clock journal entity secret login].
      split; [reflexivity|split; [|reflexivity]].
      exists (Secret.set_used_at s (clock w)).
      destruct (find_some _ _ Hfind) as [Hin Hpath].
      apply String.eqb_eq in Hpath. repeat split; [|exact Hpath].
      apply in_map_iff. exists s. split; [|exact Hin].
      now rewrite Nat.eqb_refl.
    + unfold bind at 1. unfold Secret.create. rewrite Hsc.
      unfold ret, return_.
      cbn [db tx ledger clock journal entity secret login log_effect store
           view fst snd init_isNew negb init_secret].
      unfold bind at 1. unfold Secret.markAsUsed, bind, new_Date, Secret.save.
      rewrite Hss. unfold ret.
      cbn [db tx ledger clock journal entity secret login log_effect store
           view fst snd register_answer init_pioneer e_id e_path].
      eexists. split; [reflexivity|].
      cbn [db tx ledger clock journal entity secret login].
      split; [reflexivity|split; [|reflexivity]].
      eexists. split.
      * apply in_map_iff. eexists. split; [|apply in_or_app; right; now left].
        cbn [s_id Secret.set_used_at]. rewrite Nat.eqb_refl. reflexivity.
      * split; reflexivity.
Qed.

Lemma register_without_secret_witness :
  well_formed_request "alice" "pw" /\
  fresh_username "alice" fresh_world /\
  fresh_username "alice" world_bootstrapped /\
  fst (register (E:=online) "" "alice" "pw" fresh_world)
    = Success ("jwt:alice:entities/" ++ Ledger.digest 1)
              {| sum_id := 1; sum_path := "entities/" ++ Ledger.digest 1;
                 sum_username := "alice" |} /\
  register (E:=online) "" "alice" "pw" world_bootstrapped
    = (failure INVALID_SECRET "Secret is required for registration",
       world_bootstrapped).
Proof.
  assert (Hreq : well_formed_request "alice" "pw")
    by (repeat split; vm_compute; lia).
  split; [exact Hreq|]. split; [reflexivity|]. split; [reflexivity|].
  split.
  - pose proof (proj2 (@register_without_secret _ online fresh_world
                         "alice" "pw" Hreq eq_refl)
                  Ledger.lib (Ledger.digest 1) ledger_rooted pioneer_obj
                  S0 []) as H.
    assert (Hno : Entity.lowest_id (roots (db fresh_world)) = None)
      by reflexivity.
    assert (Hmk : pc_makePioneer Ledger.lib (ledger fresh_world)
                  = (Returned (Ledger.digest 1), ledger_rooted))
      by (vm_compute; reflexivity).
    assert (Hh : truthy (Ledger.digest 1) = true) by (vm_compute; reflexivity).
    assert (He : includes "error" (Ledger.digest 1) = false)
      by (vm_compute; reflexivity).
    assert (Ho : pc_getPioneerObj Ledger.lib (Ledger.digest 1) ledger_rooted
                 = Returned (PObj pioneer_obj)) by (vm_compute; reflexivity).
    assert (Hd : readSecretsDir (Env:=online) (Ledger.digest 1) ledger_rooted
                 = Returned (Some [S0])) by (vm_compute; reflexivity).
    assert (Hf : truthy S0 = true) by (vm_compute; reflexivity).
    destruct (H Hno eq_refl Hmk Hh He Ho Hd Hf eq_refl eq_refl eq_refl)
      as (H1 & _).
    etransitivity; [exact H1|vm_compute; reflexivity].
  - exact (proj1 (@register_without_secret _ online world_bootstrapped
                    "alice" "pw" Hreq eq_refl) pioneer_row eq_refl).
Defined.

Lemma lookup_app n t t' :
  Ledger.lookup n (t ++ t') =
  match Ledger.lookup n t with
  | Some o => Some o
  | None => Ledger.lookup n t'
  end.
Proof.
  induction t as [|[k o] t IH]; simpl; [reflexivity|].
  destruct (String.eqb k n); [reflexivity|exact IH].
Qed.

Lemma lookup_update n h o t :
  Ledger.lookup n (Ledger.update h o t) =
  if String.eqb h n
  then match Ledger.lookup n t with Some _ => Some o | None => None end
  else Ledger.lookup n t.
Proof.
  induction t as [|[k o'] t IH]; simpl.
  - now destruct (String.eqb h n).
  - destruct (String.eqb k h) eqn:Hkh; simpl.
    + apply String.eqb_eq in Hkh. subst k.
      destruct (String.eqb h n); reflexivity.
    + rewrite IH. destruct (String.eqb h n) eqn:Hhn.
      * apply String.eqb_eq in Hhn. subst n. now rewrite Hkh.
      * reflexivity.
Qed.

Lemma consumed_issueSecret n a l : consumed n l -> consumed n (snd (Ledger.issueSecret a l)).
Proof.
  intros [o [Ho Hu]]. exists o. simpl. rewrite lookup_app, Ho. auto.
Qed.

Lemma consumed_bootstrapRoot n l :
  consumed n l -> consumed n (snd (Ledger.bootstrapRoot l)).
Proof.
  intros H. unfold Ledger.bootstrapRoot. destruct (Ledger.root l); [exact H|].
  cbn [snd]. apply consumed_issueSecret.
  destruct H as [o [Ho Hu]]. exists o. simpl. auto.
Qed.

Lemma consumed_mintEntity n h l :
  consumed n l -> consumed n (snd (Ledger.mintEntity h l)).
Proof.
  intros [o [Ho Hu]]. unfold Ledger.mintEntity.
  destruct (Ledger.lookup h (Ledger.secrets l)) as [s|] eqn:Hs;
    [|exists o; auto].
  destruct (o_used s); [exists o; auto|].
  unfold consumed. cbn [snd Ledger.secrets]. rewrite lookup_update, Ho.
  destruct (String.eqb h n); eexists; split; eauto.
Qed.

Lemma consumed_markSecretUsed n h l :
  consumed n l -> consumed n (snd (Ledger.markSecretUsed h l)).
Proof.
  intros [o [Ho Hu]]. unfold Ledger.markSecretUsed.
  destruct (Ledger.lookup h (Ledger.secrets l)) as [s|] eqn:Hs;
    [|exists o; auto].
  destruct (o_used s); [exists o; auto|].
  unfold consumed. cbn [snd Ledger.secrets]. rewrite lookup_update, Ho.
  destruct (String.eqb h n); eexists; split; eauto.
Qed.

Lemma mintEntity_consumes n l :
  test_hash64 (mint_text (fst (Ledger.mintEntity n l))) = true ->
  consumed n (snd (Ledger.mintEntity n l)).
Proof.
  unfold Ledger.mintEntity.
  destruct (Ledger.lookup n (Ledger.secrets l)) as [s|] eqn:Hs;
    [|intros H; vm_compute in H; discriminate H].
  destruct (o_used s); [intros H; vm_compute in H; discriminate H|].
  intros _. unfold consumed. cbn [snd Ledger.secrets]. eexists. split.
  - rewrite lookup_update, String.eqb_refl, Hs. reflexivity.
  - reflexivity.
Qed.

Lemma consumed_isSecretUsed n l :
  consumed n l -> Ledger.isSecretUsed n l = Returned (UBool true).
Proof. intros [o [Ho Hu]]. unfold Ledger.isSecretUsed. now rewrite Ho, Hu. Qed.

(* ------------------------------------------------------------------ *)
(** ** Invariants of the whole of register *)

Section StableRegister.
Context {L : Type} {E : Env L}.
Variable Inv : World L -> Prop.
Hypothesis Inv_db : forall w d t,
  Inv w -> Inv {| db := d; tx := t; ledger := ledger w; clock := clock w;
              journal := journal w |}.
Hypothesis Inv_clock : forall w c,
  Inv w -> Inv {| db := db w; tx := tx w; ledger := ledger w; clock := c;
              journal := journal w |}.
Hypothesis Inv_log : forall w e, is_db_effect e -> Inv w -> Inv (log_effect e w).
Hypothesis Inv_makePioneer : forall lib w,
  pathchain = Some lib -> Inv w ->
  Inv (log_effect LedgerMakePioneer
       {| db := db w; tx := tx w;
          ledger := snd (pc_makePioneer lib (ledger w));
          clock := clock w; journal := journal w |}).
Hypothesis Inv_makeEntity : forall lib s w,
  pathchain = Some lib -> Inv w ->
  Inv (log_effect (LedgerMakeEntity s)
       {| db := db w; tx := tx w;
          ledger := snd (pc_makeEntity lib s (ledger w));
          clock := clock w; journal := journal w |}).
Hypothesis Inv_useSecret : forall lib s w,
  pathchain = Some lib -> Inv w ->
  Inv (log_effect (LedgerUseSecret s)
       {| db := db w; tx := tx w;
          ledger := snd (pc_useSecret lib s (ledger w));
          clock := clock w; journal := journal w |}).

Lemma preserves_useSecret R s : preserves Inv (@useSecret L R E s).
Proof.
  intros w Hw. unfold useSecret, pc_write.
  pose proof (fun lib => @Inv_useSecret lib s w) as H.
  destruct pathchain as [lib|]; [|exact Hw].
  specialize (H lib eq_refl Hw).
  destruct (pc_useSecret lib s (ledger w)) as [[a|e] l']; exact H.
Qed.

Lemma preserves_register_online n u p :
  preserves Inv (register_online n u p).
Proof.
  unfold register_online.
  apply preserves_bind; [now apply preserves_register_secret|intros so].
  apply preserves_bind; [pres|intros [anc|]]; [|pres].
  apply preserves_bind; [now apply preserves_register_mint|intros h].
  apply preserves_bind; [now apply preserves_register_entityObj|intros eo].
  apply preserves_register_transaction; auto. apply preserves_useSecret.
Qed.

Lemma preserves_register_body s u p : preserves Inv (register_body s u p).
Proof.
  unfold register_body.
  apply preserves_bind; [pres|intros _].
  apply preserves_bind; [pres|intros _].
  apply preserves_bind; [pres|intros taken].
  apply preserves_bind; [pres|intros _].
  apply preserves_bind; [|intros; pres].
  destruct (negb (truthy s)); [now apply preserves_register_bootstrap|].
  destruct (negb (truthy (normalizeSecretHash s))); [pres|].
  destruct isAvailable;
    [apply preserves_register_online|now apply preserves_register_offline].
Qed.

Lemma preserves_register s u p w : Inv w -> Inv (snd (register s u p w)).
Proof.
  intros Hw. pose proof (preserves_register_body s u p w Hw) as H.
  unfold register. destruct (register_body s u p w) as [[a|r|e] w']; exact H.
Qed.

Lemma preserves_initializeSystem_run w :
  Inv w -> Inv (snd (initializeSystem_run w)).
Proof.
  intros Hw.
  assert (H : Inv (snd (initializeSystem w)))
    by (apply preserves_initializeSystem; assumption).
  unfold initializeSystem_run.
  destruct (initializeSystem w) as [[a|r|e] w']; exact H.
Qed.
End StableRegister.

(* ------------------------------------------------------------------ *)
(** ** A secret is used once *)

Section OnSuccess.
Context {L : Type}.

Lemma on_success_bind_skip A B Q (m : M L RegisterResult A)
    (k : A -> M L RegisterResult B) :
  fails_only m -> (forall a, on_success Q (k a)) -> on_success Q (bind m k).
Proof.
  intros Hm Hk w. unfold bind. specialize (Hm w).
  destruct (m w) as [[a|[t s|e]|e] w']; simpl in *; auto; try contradiction.
  apply Hk.
Qed.

Lemma on_success_bind_here A B Q (m : M L RegisterResult A)
    (k : A -> M L RegisterResult B) :
  on_success Q m -> (forall a, preserves Q (k a)) -> on_success Q (bind m k).
Proof.
  intros Hm Hk w. unfold bind. specialize (Hm w).
  destruct (m w) as [[a|[t s|e]|e] w']; simpl in *; auto.
  specialize (Hk a w' Hm).
  destruct (k a w') as [[b|[t s|e]|e] w'']; simpl in *; auto.
Qed.

Lemma on_success_failure A Q c msg :
  on_success Q (@return_ L RegisterResult A (failure c msg)).
Proof. intros w. exact I. Qed.

Lemma fails_only_guard (b : bool) c msg :
  fails_only (if b then return_ (failure c msg) else @ret L _ unit tt).
Proof. intros w. destruct b; exact I. Qed.
End OnSuccess.

Section SingleUse.
Variable E : Env Ledger.t.
Hypothesis HE : ledger_backed E.
Variable n : string.

Lemma marks_db w d t : marks_consumed n w ->
  marks_consumed n {| db := d; tx := t; ledger := ledger w; clock := clock w;
                    journal := journal w |}.
Proof. intros H; exact H. Qed.
Lemma marks_clock w c : marks_consumed n w ->
  marks_consumed n {| db := db w; tx := tx w; ledger := ledger w; clock := c;
                    journal := journal w |}.
Proof. intros H; exact H. Qed.
Lemma marks_log w e : is_db_effect e -> marks_consumed n w ->
  marks_consumed n (log_effect e w).
Proof. intros _ H; exact H. Qed.
Lemma marks_makePioneer lib w :
  pathchain = Some lib -> marks_consumed n w ->
  marks_consumed n (log_effect LedgerMakePioneer
       {| db := db w; tx := tx w;
          ledger := snd (pc_makePioneer lib (ledger w));
          clock := clock w; journal := journal w |}).
Proof.
  intros Hl H. rewrite (HE lib Hl). now apply consumed_bootstrapRoot.
Qed.
Lemma marks_makeEntity lib s w :
  pathchain = Some lib -> marks_consumed n w ->
  marks_consumed n (log_effect (LedgerMakeEntity s)
       {| db := db w; tx := tx w;
          ledger := snd (pc_makeEntity lib s (ledger w));
          clock := clock w; journal := journal w |}).
Proof.
  intros Hl H. rewrite (HE lib Hl). now apply consumed_mintEntity.
Qed.
Lemma marks_useSecret lib s w :
  pathchain = Some lib -> marks_consumed n w ->
  marks_consumed n (log_effect (LedgerUseSecret s)
       {| db := db w; tx := tx w;
          ledger := snd (pc_useSecret lib s (ledger w));
          clock := clock w; journal := journal w |}).
Proof.
  intros Hl H. rewrite (HE lib Hl). now apply consumed_markSecretUsed.
Qed.

Ltac stable_marks :=
  first [exact marks_db | exact marks_clock | exact marks_log
        | exact marks_makePioneer | exact marks_makeEntity
        | exact marks_useSecret].

Lemma perform_marks c w : marks_consumed n w -> marks_consumed n (perform E c w).
Proof.
  intros H. destruct c as [s u p|s|i|]; simpl.
  - apply preserves_register; solve [stable_marks | exact H].
  - now rewrite checkSecret_unchanged.
  - now rewrite getAncestorInfo_unchanged.
  - apply preserves_initializeSystem_run; solve [stable_marks | exact H].
Qed.

Lemma fails_only_register_secret : fails_only (register_secret n).
Proof.
  intros w.
  unfold register_secret, lookup_guarded, try_catch, bind, isSecretUsed,
    getSecret, getObject, pc_read, ret, return_, failure.
  repeat (break_inner; cbn [fst]); exact I.
Qed.

Lemma on_success_register_mint :
  on_success (marks_consumed n) (register_mint n).
Proof.
  intros w.
  destruct (@pathchain _ E) as [lib|] eqn:Hlib.
  - pose proof (register_mint_cases lib n w Hlib) as (Hw & Hv & Hiff).
    rewrite (HE lib Hlib) in *. cbn [pc_makeEntity Ledger.lib] in *.
    destruct (register_mint n w) as [[h|[t s|e]|e] w'] eqn:Hrun;
      cbn [fst snd] in *; auto.
    + subst w'. unfold marks_consumed, minted. cbn [ledger log_effect].
      apply mintEntity_consumes. apply Hiff. eauto.
    + destruct (mint_reading _ _); try discriminate Hv.
      destruct Hv as [msg Hv]. discriminate Hv.
  - unfold register_mint, try_catch, bind, createEntity, pc_write, ret,
      return_. rewrite Hlib. cbv beta iota.
    rewrite isErrorMessage_hash64.
    replace (test_hash64 ("error: " ++ lib_unavailable)) with false
      by (vm_compute; reflexivity).
    cbn. exact I.
Qed.

Lemma on_success_register_online u p :
  on_success (marks_consumed n) (register_online n u p).
Proof.
  unfold register_online.
  apply on_success_bind_skip; [apply fails_only_register_secret|intros so].
  apply on_success_bind_skip; [intros w; exact I|intros [anc|]];
    [|apply on_success_failure].
  apply on_success_bind_here; [apply on_success_register_mint|intros h].
  apply preserves_bind.
  - apply preserves_register_entityObj.
  - intros eo. apply preserves_register_transaction; try stable_marks.
    apply preserves_useSecret; stable_marks.
Qed.

Lemma on_success_register_body s u p :
  truthy s = true -> isAvailable = true -> n = normalizeSecretHash s ->
  on_success (marks_consumed n) (register_body s u p).
Proof.
  intros Hs Hav Hn. unfold register_body.
  apply on_success_bind_skip; [apply fails_only_guard|intros _].
  apply on_success_bind_skip; [apply fails_only_guard|intros _].
  apply on_success_bind_skip; [intros w; exact I|intros taken].
  apply on_success_bind_skip; [apply fails_only_guard|intros _].
  apply on_success_bind_here; [|intros; pres].
  rewrite Hs, Hav, <- Hn. cbn [negb].
  destruct (negb (truthy n)); [apply on_success_failure|].
  apply on_success_register_online.
Qed.

Lemma register_success_consumes s u p w token summary w1 :
  truthy s = true -> isAvailable = true -> n = normalizeSecretHash s ->
  register s u p w = (Success token summary, w1) ->
  marks_consumed n w1.
Proof.
  intros Hs Hav Hn Hrun.
  pose proof (on_success_register_body s u p Hs Hav Hn w) as H.
  unfold register in Hrun.
  destruct (register_body s u p w) as [[r|r|e] w'];
    inversion Hrun; subst; exact H.
Qed.
End SingleUse.

Lemma perform_all_marks n calls : forall w,
  Forall (fun ec => ledger_backed (fst ec)) calls ->
  marks_consumed n w -> marks_consumed n (perform_all calls w).
Proof.
  induction calls as [|[E c] calls IH]; intros w Hall Hw; [exact Hw|].
  inversion Hall; subst. simpl. apply IH; [assumption|].
  now apply perform_marks.
Qed.

(** C2. When PathChain reports the secret as used (isSecretUsed returns
    true), register with well-formed credentials and a fresh username
    returns USED_SECRET and changes nothing: no entity, secret or login row
    is created. In particular, over the ledger of section 4.2, once a
    registration with a secret has succeeded, every later registration with
    that secret, whatever calls were made in between, returns
    USED_SECRET. *)
Theorem register_rejects_used_secret {L} {E : Env L} (lib : PathChain L)
    (w : World L) (secretHash username password : string) :
  pathchain = Some lib ->
  well_formed_request username password ->
  fresh_username username w ->
  truthy (normalizeSecretHash secretHash) = true ->
  pc_isSecretUsed lib (normalizeSecretHash secretHash) (ledger w)
    = Returned (UBool true) ->
  register secretHash username password w
    = (failure USED_SECRET "Secret has already been used", w)
  /\
  (forall (E1 E2 : Env Ledger.t) (w0 w1 : World Ledger.t)
          (u1 p1 u2 p2 token : string) (summary : EntitySummary)
          (calls : list (Env Ledger.t * Call)),
     @pathchain _ E1 = Some Ledger.lib ->
     register (E:=E1) secretHash u1 p1 w0 = (Success token summary, w1) ->
     Forall (fun ec => ledger_backed (fst ec)) calls ->
     @pathchain _ E2 = Some Ledger.lib ->
     well_formed_request u2 p2 ->
     fresh_username u2 (perform_all calls w1) ->
     register (E:=E2) secretHash u2 p2 (perform_all calls w1)
       = (failure USED_SECRET "Secret has already been used",
          perform_all calls w1)).
Proof.
  intros Hlib Hreq Hfresh Hs Hused.
  split; [now apply (register_used_secret_now lib)|].
  intros E1 E2 w0 w1 u1 p1 u2 p2 token summary calls H1 Hrun Hall H2 Hreq2 Hfresh2.
  apply (register_used_secret_now (E:=E2) Ledger.lib); auto.
  apply consumed_isSecretUsed.
  apply perform_all_marks; [assumption|].
  apply (register_success_consumes E1) with (s := secretHash) (u := u1)
    (p := p1) (w := w0) (token := token) (summary := summary); auto.
  - intros lib' Hl. congruence.
  - now apply truthy_normalize.
  - unfold isAvailable. now rewrite H1.
Qed.

Lemma register_rejects_used_secret_witness :
  well_formed_request "carol" "pw3" /\
  fresh_username "carol" world_bob /\
  pc_isSecretUsed Ledger.lib (normalizeSecretHash S0) (ledger world_bob)
    = Returned (UBool true) /\
  register (E:=online) S0 "carol" "pw3" world_bob
    = (failure USED_SECRET "Secret has already been used", world_bob) /\
  let later := perform_all [(online, CallCheckSecret S0);
                            (offline, CallRegister "abc" "dave" "pw4");
                            (online, CallInitializeSystem)] world_bob in
  register (E:=online) S0 "carol" "pw3" later
    = (failure USED_SECRET "Secret has already been used", later).
Proof.
  assert (Hreq : well_formed_request "carol" "pw3")
    by (repeat split; vm_compute; lia).
  assert (Hs : truthy (normalizeSecretHash S0) = true)
    by (vm_compute; reflexivity).
  assert (Hused : pc_isSecretUsed Ledger.lib (normalizeSecretHash S0)
                    (ledger world_bob) = Returned (UBool true))
    by (vm_compute; reflexivity).
  assert (Hon : ledger_backed online)
    by (intros lib H; injection H as <-; reflexivity).
  assert (Hoff : ledger_backed offline) by (intros lib H; discriminate H).
  assert (Hbob : register (E:=online) S0 "bob" "pw2" world_bootstrapped
                 = (Success ("jwt:bob:entities/" ++ bob_hash)
                            {| sum_id := 2; sum_path := "entities/" ++ bob_hash;
                               sum_username := "bob" |}, world_bob))
    by (vm_compute; reflexivity).
  assert (Hall : Forall (fun ec : Env Ledger.t * Call => ledger_backed (fst ec))
            [(online, CallCheckSecret S0);
             (offline, CallRegister "abc" "dave" "pw4");
             (online, CallInitializeSystem)])
    by (repeat constructor; assumption).
  assert (Hlater : fresh_username "carol"
            (perform_all [(online, CallCheckSecret S0);
                          (offline, CallRegister "abc" "dave" "pw4");
                          (online, CallInitializeSystem)] world_bob))
    by (vm_compute; reflexivity).
  split; [exact Hreq|]. split; [reflexivity|]. split; [exact Hused|].
  pose proof (@register_rejects_used_secret _ online Ledger.lib world_bob
                S0 "carol" "pw3" eq_refl Hreq eq_refl Hs Hused) as [H1 H2].
  split; [exact H1|].
  exact (H2 online online world_bootstrapped world_bob "bob" "pw2"
            "carol" "pw3" ("jwt:bob:entities/" ++ bob_hash)
            {| sum_id := 2; sum_path := "entities/" ++ bob_hash;
               sum_username := "bob" |}
            [(online, CallCheckSecret S0);
             (offline, CallRegister "abc" "dave" "pw4");
             (online, CallInitializeSystem)]
            eq_refl Hbob
            Hall
            eq_refl Hreq Hlater).
Defined.

(* ------------------------------------------------------------------ *)
(** * The rest of the service, its helpers and its controllers *)

(* ------------------------------------------------------------------ *)
(** ** The pure helpers of utils/pathchain.js *)

Lemma trimStart_blank_app a x : blank a = true -> trimStart (a ++ x) = trimStart x.
Proof.
  induction a as [|c a IH]; simpl; [reflexivity|].
  intros H. apply andb_true_iff in H as [Hc Ha]. rewrite Hc. now apply IH.
Qed.

Lemma trimEnd_blank b : blank b = true -> trimEnd b = "".
Proof.
  induction b as [|c b IH]; simpl; [reflexivity|].
  intros H. apply andb_true_iff in H as [Hc Hb]. now rewrite IH, Hc.
Qed.

Lemma trimEnd_app_blank x b : blank b = true -> trimEnd (x ++ b) = trimEnd x.
Proof.
  intros Hb. induction x as [|c x IH]; simpl; [now apply trimEnd_blank|].
  now rewrite IH.
Qed.

Lemma trim_fixed_parts h :
  trim h = h -> trimStart h = h /\ trimEnd h = h.
Proof.
  intros H. unfold trim in H.
  pose proof (trimStart_length h) as H1.
  pose proof (trimEnd_length (trimStart h)) as H2.
  assert (Hlen : String.length (trimStart h) = String.length h).
  { rewrite H in H2. lia. }
  pose proof (trimStart_same h Hlen) as Hs. rewrite Hs in H. auto.
Qed.

Lemma trimStart_blank b : blank b = true -> trimStart b = "".
Proof.
  induction b as [|c b IH]; simpl; [reflexivity|].
  intros H. apply andb_true_iff in H as [Hc Hb]. rewrite Hc. now apply IH.
Qed.

(** Blank padding around a string that [trim] leaves alone is removed. *)
Lemma trim_padded a h b :
  blank a = true -> blank b = true -> trim h = h -> trim (a ++ h ++ b) = h.
Proof.
  intros Ha Hb Hh. apply trim_fixed_parts in Hh as [Hs He].
  unfold trim. rewrite (trimStart_blank_app a _ Ha).
  destruct h as [|c h].
  - simpl. now rewrite (trimStart_blank b Hb).
  - assert (Hc : is_ws c = false).
    { destruct (is_ws c) eqn:Hc; [|reflexivity]. exfalso.
      simpl in Hs. rewrite Hc in Hs.
      pose proof (trimStart_length h) as Hl. rewrite Hs in Hl.
      simpl in Hl. lia. }
    change ((String c h ++ b)) with (String c (h ++ b)).
    cbn [trimStart]. rewrite Hc.
    change (String c (h ++ b)) with (String c h ++ b).
    now rewrite trimEnd_app_blank.
Qed.

Lemma trim_secrets_prefix h : trim h = h -> trim ("secrets/" ++ h) = "secrets/" ++ h.
Proof.
  intros Hh. apply trim_fixed_parts in Hh as [_ He].
  unfold trim. cbn [append trimStart is_ws]. 
  assert (Hpre : forall c s, is_ws c = false -> trimEnd s = s ->
                             trimEnd (String c s) = String c s).
  { intros c s Hc Hs. simpl. rewrite Hs. destruct s; [now rewrite Hc|reflexivity]. }
  repeat (apply Hpre; [reflexivity|]). exact He.
Qed.

Lemma truthy_app_r a x : truthy x = true -> truthy (a ++ x) = true.
Proof. destruct a; [auto|reflexivity]. Qed.

(** X17. normalizeSecretHash accepts both forms of a secret, padded or not: for
    a string [h] that [trim] leaves alone, ["secrets/" ++ h] and, when [h]
    does not itself start with ["secrets/"], [h] alone both give [h] back,
    whatever white space surrounds them. *)
Theorem normalizeSecretHash_both_forms (a b h : string) :
  blank a = true -> blank b = true -> trim h = h ->
  normalizeSecretHash (a ++ ("secrets/" ++ h) ++ b) = h /\
  (startsWith "secrets/" h = false ->
   normalizeSecretHash (a ++ h ++ b) = h).
Proof.
  intros Ha Hb Hh. split.
  - unfold normalizeSecretHash.
    rewrite truthy_app_r by reflexivity.
    rewrite (trim_padded a _ b Ha Hb (trim_secrets_prefix h Hh)).
    unfold startsWith. destruct h; reflexivity.
  - intros Hp. unfold normalizeSecretHash.
    destruct (truthy (a ++ h ++ b)) eqn:Ht.
    + rewrite (trim_padded a h b Ha Hb Hh), Hp. reflexivity.
    + destruct a; [|discriminate]. destruct h; [reflexivity|discriminate].
Qed.

Lemma last_segment_from_no_slash acc h :
  no_slash h = true -> last_segment_from acc h = acc.
Proof.
  revert acc. induction h as [|c h IH]; intros acc; simpl; [reflexivity|].
  intros H. apply andb_true_iff in H as [Hc Hh].
  apply negb_true_iff in Hc. rewrite Hc. now apply IH.
Qed.

Lemma last_segment_from_app acc dir h :
  no_slash h = true -> last_segment_from acc (dir ++ "/" ++ h) = h.
Proof.
  intros Hh. revert acc. induction dir as [|c dir IH]; intros acc.
  - simpl. now apply last_segment_from_no_slash.
  - change ((String c dir ++ "/" ++ h)) with (String c (dir ++ "/" ++ h)).
    cbn [last_segment_from]. destruct (Ascii.eqb c "/"); apply IH.
Qed.

Lemma append_snoc pre c t : pre ++ String c t = (pre ++ String c "") ++ t.
Proof. induction pre as [|x pre IH]; simpl; [reflexivity|now rewrite IH]. Qed.

Lemma append_empty pre : pre ++ "" = pre.
Proof. induction pre as [|x pre IH]; simpl; [reflexivity|now rewrite IH]. Qed.

Lemma no_slash_snoc pre c :
  no_slash pre = true -> Ascii.eqb c "/"%char = false ->
  no_slash (pre ++ String c "") = true.
Proof.
  intros Hp Hc. induction pre as [|x pre IH]; simpl in *.
  - now rewrite Hc.
  - apply andb_true_iff in Hp as [Hx Hp]. rewrite Hx. now apply IH.
Qed.

Lemma last_segment_from_clean s : forall pre,
  no_slash pre = true -> no_slash (last_segment_from (pre ++ s) s) = true.
Proof.
  induction s as [|c s IH]; intros pre Hp; simpl.
  - now rewrite append_empty.
  - destruct (Ascii.eqb c "/") eqn:Hc.
    + apply (IH "" eq_refl).
    + rewrite append_snoc. apply IH. now apply no_slash_snoc.
Qed.

(** X18. extractHash gives what follows the last slash: the hash of
    ['entities/{hash}'] and of ['{author}/entities/{hash}'], and a string
    without slash unchanged; its result never has a slash. *)
Theorem extractHash_last_component (dir h : string) :
  no_slash h = true ->
  extractHash (dir ++ "/" ++ h) = h /\
  extractHash h = h /\
  forall path, no_slash (extractHash path) = true.
Proof.
  intros Hh. split; [|split].
  - unfold extractHash. rewrite truthy_app_r by reflexivity.
    now apply last_segment_from_app.
  - unfold extractHash, last_segment.
    destruct h; [reflexivity|]. cbn [truthy].
    now apply last_segment_from_no_slash.
  - intros path. unfold extractHash, last_segment.
    destruct (truthy path); [|reflexivity].
    apply (last_segment_from_clean path "" eq_refl).
Qed.

Lemma split_no_slash h : no_slash h = true -> split h = [h].
Proof.
  induction h as [|c h IH]; simpl; [reflexivity|].
  intros H. apply andb_true_iff in H as [Hc Hh].
  apply negb_true_iff in Hc. rewrite Hc, (IH Hh). reflexivity.
Qed.

Lemma split_app a rest :
  no_slash a = true -> split (a ++ "/" ++ rest) = a :: split rest.
Proof.
  induction a as [|c a IH]; simpl in *; [reflexivity|].
  intros H. apply andb_true_iff in H as [Hc Ha].
  apply negb_true_iff in Hc. rewrite Hc, (IH Ha). reflexivity.
Qed.

Lemma type_names_no_slash t : In t type_names -> no_slash t = true.
Proof.
  unfold type_names. intros H.
  repeat (destruct H as [<-|H]; [reflexivity|]). destruct H.
Qed.

Lemma type_names_known t :
  In t type_names -> existsb (String.eqb t) type_names = true.
Proof.
  intros H. apply existsb_exists. exists t. split; [assumption|].
  apply String.eqb_refl.
Qed.

(** X19. extractType reads the type of both layouts of an address:
    ['{type}/{hash}'] and ['{author}/{type}/{hash}'] for an author
    component that is not itself a type name give [{type}]; a single
    component that is not a type name is given back as it is. *)
Theorem extractType_layouts (t author rest : string) :
  In t type_names ->
  extractType (t ++ "/" ++ rest) = t /\
  (no_slash author = true ->
   existsb (String.eqb author) type_names = false ->
   extractType (author ++ "/" ++ t ++ "/" ++ rest) = t) /\
  (no_slash author = true ->
   existsb (String.eqb author) type_names = false ->
   truthy author = true ->
   extractType author = author).
Proof.
  intros Ht. pose proof (type_names_no_slash t Ht) as Hns.
  pose proof (type_names_known t Ht) as Hk.
  split; [|split].
  - unfold extractType. rewrite truthy_app_r by reflexivity.
    rewrite (split_app t rest Hns). cbn [find]. now rewrite Hk.
  - intros Ha Hna. unfold extractType.
    rewrite truthy_app_r by reflexivity.
    rewrite (split_app author _ Ha), (split_app t rest Hns).
    cbn [find]. now rewrite Hna, Hk.
  - intros Ha Hna Htr. unfold extractType. rewrite Htr.
    rewrite (split_no_slash author Ha). cbn [find hd]. now rewrite Hna.
Qed.

(* ------------------------------------------------------------------ *)
(** ** What a registration leaves in the tables *)

Section Attempts.
Context {L : Type} {E : Env L}.
Variables (d : DB) (u : string).

Lemma attempts_bind A B (Q : B -> World L -> Prop)
    (m : M L RegisterResult A) (k : A -> M L RegisterResult B) :
  attempts d u (fun _ w => db w = d) m ->
  (forall a, attempts d u Q (k a)) ->
  attempts d u Q (bind m k).
Proof.
  intros Hm Hk w Hw. unfold bind. specialize (Hm w Hw).
  destruct (m w) as [[a|[t s|e]|e] w']; auto. now apply Hk.
Qed.

(** A step that keeps the tables and never answers for register. *)
Lemma attempts_step A (m : M L RegisterResult A) :
  preserves (fun w => db w = d) m -> fails_only m ->
  attempts d u (fun _ w => db w = d) m.
Proof.
  intros Hp Hf w Hw. specialize (Hp w Hw). specialize (Hf w).
  destruct (m w) as [[a|[t s|e]|e] w']; cbn [fst snd] in *;
    try contradiction; try (now left); assumption.
Qed.

Lemma attempts_weaken A (Q Q' : A -> World L -> Prop)
    (m : M L RegisterResult A) :
  (forall a w, Q a w -> Q' a w) ->
  attempts d u Q m -> attempts d u Q' m.
Proof.
  intros HQ Hm w Hw. specialize (Hm w Hw).
  destruct (m w) as [[a|[t s|e]|e] w']; auto.
Qed.

Lemma left_entity e sec :
  e_id e = next_id (map e_id (entity d)) ->
  attempt_left d {| entity := (entity d ++ [e])%list; secret := sec;
                    login := login d |} u.
Proof. intros He. right. exists e. cbn [entity login]. auto. Qed.

Lemma left_user e sec r :
  e_id e = next_id (map e_id (entity d)) ->
  l_id r = u -> l_entity_id r = e_id e ->
  existsb (Login.has_id u) (login d) = false ->
  attempt_left d {| entity := (entity d ++ [e])%list; secret := sec;
                    login := (login d ++ [r])%list |} u.
Proof.
  intros He Hr1 Hr2 Hu. right. exists e. cbn [entity login].
  split; [assumption|]. split; [reflexivity|]. right. exists r. auto.
Qed.

End Attempts.

Section RegisterAttempts.
Context {L : Type} {E : Env L}.
Variable d : DB.

Ltac run_tables :=
  unfold register_transaction, register_offline, sequelize_transaction,
    try_catch, bind, Entity.findPioneer,
    Entity.create, Secret.findOne, Secret.save, Secret.create, Login.create,
    new_Date, transaction_commit, transaction_rollback, useSecret, pc_write,
    throw, ret, return_, log_effect, store, view in *;
  cbn [db tx ledger clock journal entity secret login] in *.

Ltac leftover :=
  first
    [ left; reflexivity
    | apply left_entity; reflexivity
    | apply left_user; solve [reflexivity | assumption] ].

Lemma register_transaction_attempts n u p anc eo :
  attempts d u
    (fun e w' =>
       tx w' = None /\
       e = {| e_id := next_id (map e_id (entity d)); e_path := o_tag eo;
              e_ancestor_id := Some (e_id anc) |} /\
       existsb (Login.has_id u) (login d) = false /\
       exists now,
         db w' = registered_db d n u (hashPassword p) (o_tag eo) (e_id anc)
                               now)
    (register_transaction n u p anc eo).
Proof.
  intros w Hw. subst d. run_tables. unfold registered_db.
  repeat (break_inner;
          cbn [db tx ledger clock journal entity secret login fst snd] in *);
    try discriminate.
  all: repeat match goal with
              | H : (_, _) = (_, _) |- _ => inversion H; clear H; subst
              end;
       cbn [db tx ledger clock journal entity secret login fst snd];
       try discriminate.
  all: try reflexivity.
  all: try leftover.
  all: try (repeat split; try reflexivity; try assumption;
            eexists; reflexivity).
Qed.

Lemma register_secret_never_succeeds n : fails_only (register_secret n).
Proof.
  intros w.
  unfold register_secret, lookup_guarded, try_catch, bind, isSecretUsed,
    getSecret, getObject, pc_read, ret, return_, failure.
  repeat (break_inner; cbn [fst]); exact I.
Qed.

Lemma register_mint_never_succeeds n : fails_only (register_mint n).
Proof.
  intros w.
  unfold register_mint, try_catch, bind, isSecretUsed, createEntity,
    pc_read, pc_write, ret, return_, failure.
  repeat (break_inner; cbn [fst]); exact I.
Qed.

Lemma register_entityObj_never_succeeds h so :
  fails_only (register_entityObj h so).
Proof.
  intros w.
  unfold register_entityObj, lookup_guarded, try_catch, bind,
    getEntity, getObject, pc_read, ret, return_, failure.
  repeat (break_inner; cbn [fst]); exact I.
Qed.

Lemma register_online_attempts n u p :
  attempts d u
    (fun e w' =>
       tx w' = None /\
       existsb (Login.has_id u) (login d) = false /\
       exists anc tag now,
         In anc (entity d) /\
         e = {| e_id := next_id (map e_id (entity d)); e_path := tag;
                e_ancestor_id := Some (e_id anc) |} /\
         db w' = registered_db d n u (hashPassword p) tag (e_id anc) now)
    (register_online n u p).
Proof.
  unfold register_online.
  apply attempts_bind.
  { apply attempts_step;
      [apply preserves_register_secret|apply register_secret_never_succeeds]. }
  intros so. unfold Entity.findOne.
  intros w Hw. unfold bind at 1. cbv beta iota delta [view].
  cbn [db tx]. rewrite Hw.
  destruct (find _ (entity d)) as [anc|] eqn:Hanc; [|exact Hw].
  apply find_some in Hanc as [Hin _].
  revert w Hw. change (attempts d u
    (fun e w' =>
       tx w' = None /\
       existsb (Login.has_id u) (login d) = false /\
       exists anc tag now,
         In anc (entity d) /\
         e = {| e_id := next_id (map e_id (entity d)); e_path := tag;
                e_ancestor_id := Some (e_id anc) |} /\
         db w' = registered_db d n u (hashPassword p) tag (e_id anc) now)
    (entityHash <- register_mint n ;;
     entityObj <- register_entityObj entityHash so ;;
     register_transaction n u p anc entityObj)).
  apply attempts_bind.
  { apply attempts_step; [|apply register_mint_never_succeeds].
    apply preserves_register_mint; intros lib; intros; assumption. }
  intros h. apply attempts_bind.
  { apply attempts_step;
      [apply preserves_register_entityObj
      |apply register_entityObj_never_succeeds]. }
  intros eo.
  eapply attempts_weaken;
    [|apply register_transaction_attempts].
  intros e w' (Htx & He & Hu & now & Hdb).
  split; [assumption|]. split; [assumption|].
  exists anc, (o_tag eo), now. auto.
Qed.

Lemma initializeSystem_unavailable (w : World L) :
  pathchain = None ->
  Entity.lowest_id (roots (db w)) = None ->
  initializeSystem w = (Exn lib_unavailable, w).
Proof.
  intros Hp Hr. unfold initializeSystem, try_catch, bind, Entity.findPioneer,
    createPioneer, pc_write, throw, view.
  unfold roots in Hr. cbn [tx]. rewrite Hr, Hp. reflexivity.
Qed.

Lemma register_offline_attempts s n u p :
  pathchain = None ->
  attempts d u
    (fun e w' =>
       tx w' = None /\
       existsb (Login.has_id u) (login d) = false /\
       exists anc now,
         In anc (entity d) /\
         e = {| e_id := next_id (map e_id (entity d));
                e_path := "entities/" ++ n;
                e_ancestor_id := Some (e_id anc) |} /\
         db w' =
         {| entity := (entity d ++ [e])%list;
            secret := (secret d ++
                       [{| s_id := next_id (map s_id (secret d));
                           s_path := "secrets/" ++ n;
                           s_owner_id := e_id anc;
                           s_owner_type_id := OwnerType_ENTITY;
                           s_used_at := Some now |}])%list;
            login := (login d ++
                      [new_login u (hashPassword p) (normalizeSecretHash s)
                                 e])%list |})
    (register_offline s n u p).
Proof.
  intros Hp w Hw. subst d.
  destruct (Entity.lowest_id (roots (db w))) as [a|] eqn:Hroot.
  - assert (Hin : In a (entity (db w))).
    { unfold roots in Hroot.
      assert (H : forall rows r, Entity.lowest_id rows = Some r -> In r rows).
      { induction rows as [|x rows IH]; intros r Hr; [discriminate|].
        simpl in Hr. destruct (Entity.lowest_id rows) as [m|].
        - destruct (e_id x <=? e_id m); inversion Hr; subst;
            [now left|right; now apply IH].
        - inversion Hr; subst. now left. }
      apply H in Hroot. apply filter_In in Hroot. tauto. }
    unfold roots in Hroot. run_tables. rewrite Hroot. unfold new_login.
    repeat (break_inner;
            cbn [db tx ledger clock journal entity secret login fst snd
                 e_id] in *);
      try discriminate.
    all: repeat match goal with
                | H : (_, _) = (_, _) |- _ => inversion H; clear H; subst
                end;
         cbn [db tx ledger clock journal entity secret login fst snd e_id];
         try discriminate.
    all: try reflexivity.
    all: try leftover.
    all: try (repeat split; try reflexivity; try assumption;
              eexists; eexists; repeat split; try eassumption; reflexivity).
  - unfold register_offline, bind, Entity.findPioneer, call.
    cbv beta iota delta [view]. cbn [tx].
    unfold roots in Hroot. rewrite Hroot.
    rewrite (initializeSystem_unavailable w Hp Hroot). now left.
Qed.

End RegisterAttempts.

Section RegisterTables.
Context {L : Type} {E : Env L}.

Lemma filter_length_existsb {A} (f : A -> bool) l :
  (0 <? List.length (filter f l)) = existsb f l.
Proof.
  induction l as [|a l IH]; simpl; [reflexivity|].
  destruct (f a); simpl; [reflexivity|exact IH].
Qed.

(** What the input validation of register answers. *)
Lemma register_validation s u p (w : World L) :
  (well_formed_request u p /\ fresh_username u w) \/
  (exists c msg, register s u p w = (failure c msg, w) /\
                 (c = INVALID_REQUEST \/ c = USERNAME_EXISTS)).
Proof.
  unfold well_formed_request, fresh_username.
  destruct (truthy u) eqn:Hu.
  2:{ right. exists INVALID_REQUEST. eexists. split; [|now left].
      unfold register, register_body. unfold bind at 1. rewrite Hu.
      reflexivity. }
  destruct (255 <? String.length u) eqn:Hlen.
  { right. exists INVALID_REQUEST. eexists. split; [|now left].
    unfold register, register_body. unfold bind at 1. rewrite Hu, Hlen.
    reflexivity. }
  destruct (truthy p) eqn:Hp.
  2:{ right. exists INVALID_REQUEST. eexists. split; [|now left].
      unfold register, register_body. unfold bind at 1. rewrite Hu, Hlen.
      cbn [negb orb ret]. unfold bind at 1. rewrite Hp. reflexivity. }
  destruct (existsb (Login.has_id u) (login (db w))) eqn:Hex.
  { right. exists USERNAME_EXISTS. eexists. split; [|now right].
    unfold register, register_body. unfold bind at 1. rewrite Hu, Hlen.
    cbn [negb orb ret]. unfold bind at 1. rewrite Hp. cbn [negb ret].
    unfold bind at 1. unfold Login.usernameExists.
    cbv beta iota delta [view]. cbn [tx].
    rewrite filter_length_existsb, Hex. reflexivity. }
  left. apply Nat.ltb_ge in Hlen. auto.
Qed.

Lemma registered_db_added d n u hashed tag anc now e :
  In anc (entity d) ->
  e = {| e_id := next_id (map e_id (entity d)); e_path := tag;
         e_ancestor_id := Some (e_id anc) |} ->
  registration_added d (registered_db d n u hashed tag (e_id anc) now)
                     e n u hashed.
Proof.
  intros Hin ->. unfold registration_added, registered_db, new_login.
  cbn [e_id e_ancestor_id entity login secret].
  split; [reflexivity|]. split; [eauto|]. split; [reflexivity|].
  split; [reflexivity|].
  destruct (find _ (secret d)) as [s0|] eqn:Hf.
  - apply find_some in Hf as [Hs0 Hpath]. apply String.eqb_eq in Hpath.
    split.
    + exists (Secret.set_used_at s0 now). split; [|split].
      * apply in_map_iff. exists s0. now rewrite Nat.eqb_refl.
      * exact Hpath.
      * reflexivity.
    + rewrite length_map. lia.
  - split.
    + eexists. split; [apply in_or_app; right; left; reflexivity|].
      split; reflexivity.
    + rewrite length_app. simpl. lia.
Qed.

End RegisterTables.

(** What register with a secret leaves behind, by its answer. *)
Lemma register_outcome {L} {E : Env L} (s u p : string)
    (w : World L) :
  truthy s = true ->
  match register s u p w with
  | (Failure err, w') =>
      attempt_left (db w) (db w') u /\
      (code err <> DATABASE_ERROR -> db w' = db w)
  | (Success token summary, w') =>
      tx w' = None /\
      well_formed_request u p /\ fresh_username u w /\
      truthy (normalizeSecretHash s) = true /\
      exists e,
        summary = {| sum_id := e_id e; sum_path := e_path e;
                     sum_username := u |} /\
        token = generateToken (e_id e) u (e_path e) /\
        registration_added (db w) (db w') e (normalizeSecretHash s) u
                           (hashPassword p)
  end.
Proof.
  intros Hs.
  destruct (register_validation s u p w) as [[Hreq Hfresh]|(c & msg & -> & _)];
    [|split; [now left|reflexivity]].
  rewrite (register_branch u p w Hreq Hfresh s), Hs. cbn [negb].
  destruct (truthy (normalizeSecretHash s)) eqn:Hn;
    [|split; [now left|reflexivity]].
  cbn [negb]. destruct isAvailable eqn:Hav.
  - pose proof (register_online_attempts (db w)
                  (normalizeSecretHash s) u p w eq_refl) as H.
    destruct (register_online _ u p w) as [[e|[t sm|err]|msg] w'];
      cbn [register_answer failure code]; try contradiction;
      try (split; [now left|now intros _]);
      try (split; [assumption|intros Hc; now contradiction Hc]).
    destruct H as (Htx & _ & anc & tag & now & Hin & He & Hdb).
    repeat (split; [assumption|]). split; [reflexivity|].
    exists e. split; [reflexivity|]. split; [reflexivity|].
    rewrite Hdb. now apply registered_db_added.
  - assert (Hp : pathchain = None).
    { unfold isAvailable in Hav. now destruct pathchain. }
    pose proof (register_offline_attempts (db w) s
                  (normalizeSecretHash s) u p Hp w eq_refl) as H.
    destruct (register_offline s _ u p w) as [[e|[t sm|err]|msg] w'];
      cbn [register_answer failure code]; try contradiction;
      try (split; [now left|now intros _]);
      try (split; [assumption|intros Hc; now contradiction Hc]).
    destruct H as (Htx & _ & anc & now & Hin & He & Hdb).
    repeat (split; [assumption|]). split; [reflexivity|].
    exists e. split; [reflexivity|]. split; [reflexivity|].
    rewrite Hdb. unfold registration_added.
    cbn [entity login secret]. subst e. cbn [e_id e_ancestor_id].
    split; [reflexivity|]. split; [eauto|]. split; [reflexivity|].
    split; [reflexivity|]. split.
    + eexists. split; [apply in_or_app; right; left; reflexivity|].
      split; reflexivity.
    + rewrite length_app. simpl. lia.
Qed.


(* ------------------------------------------------------------------ *)
(** ** Logging in after a registration *)

Lemma find_app_last {A} (f : A -> bool) l x :
  (forall r, In r l -> f r = false) -> f x = true ->
  find f (l ++ [x]) = Some x.
Proof.
  intros Hl Hx. induction l as [|a l IH]; simpl.
  - now rewrite Hx.
  - rewrite (Hl a (or_introl eq_refl)). apply IH.
    intros r Hr. apply Hl. now right.
Qed.

Lemma existsb_false_In {A} (f : A -> bool) l :
  existsb f l = false -> forall r, In r l -> f r = false.
Proof.
  intros H r Hr. destruct (f r) eqn:Hf; [|reflexivity].
  rewrite <- H. symmetry. apply existsb_exists. eauto.
Qed.

Lemma next_id_above ids i : In i ids -> i < next_id ids.
Proof.
  intros Hin. unfold next_id.
  assert (H : list_max ids <= list_max ids) by lia.
  apply list_max_le in H. rewrite Forall_forall in H.
  specialize (H i Hin). lia.
Qed.

Section AfterRegistration.
Variables (d d' : DB) (e : EntityRow) (n u hashed : string).
Hypothesis Hadded : registration_added d d' e n u hashed.

Lemma registered_entity_found :
  find (fun r => e_id r =? e_id e) (entity d') = Some e.
Proof.
  destruct Hadded as (Hid & _ & He & _). rewrite He.
  apply find_app_last; [|apply Nat.eqb_refl].
  intros r Hr. apply Nat.eqb_neq. rewrite Hid.
  pose proof (next_id_above (map e_id (entity d)) (e_id r)
                (in_map e_id _ _ Hr)). lia.
Qed.

Lemma registered_login_found :
  existsb (Login.has_id u) (login d) = false ->
  find (Login.has_id u) (login d') = Some (new_login u hashed n e).
Proof.
  intros Hfresh. destruct Hadded as (_ & _ & _ & Hl & _). rewrite Hl.
  apply find_app_last; [now apply existsb_false_In|].
  unfold Login.has_id, new_login. cbn [l_id]. apply String.eqb_refl.
Qed.

Lemma registered_secret_found :
  truthy n = true ->
  (forall r, In r (login d) -> has_secret n r = false) ->
  find (has_secret n) (login d') = Some (new_login u hashed n e).
Proof.
  intros Hn Hnone. destruct Hadded as (_ & _ & _ & Hl & _). rewrite Hl.
  apply find_app_last; [assumption|].
  unfold has_secret, new_login, or_null. cbn [l_secret]. rewrite Hn.
  apply String.eqb_refl.
Qed.

Lemma registered_owner_found :
  references_ok d ->
  find (fun r => l_entity_id r =? e_id e) (login d')
    = Some (new_login u hashed n e).
Proof.
  intros Hrefs. destruct Hadded as (Hid & _ & _ & Hl & _). rewrite Hl.
  apply find_app_last; [|unfold new_login; cbn [l_entity_id];
                         apply Nat.eqb_refl].
  intros r Hr. apply Nat.eqb_neq. rewrite Hid.
  pose proof (next_id_above _ _ (Hrefs r Hr)). lia.
Qed.

Lemma registered_references_ok : references_ok d -> references_ok d'.
Proof.
  intros Hrefs r Hr. destruct Hadded as (_ & _ & He & Hl & _).
  rewrite He, map_app, in_app_iff. rewrite Hl, in_app_iff in Hr.
  destruct Hr as [Hr|[<-|[]]]; [left; now apply Hrefs|].
  right. now left.
Qed.

Lemma registered_ids_distinct :
  NoDup (map e_id (entity d)) -> NoDup (map e_id (entity d')).
Proof.
  intros Hnd. destruct Hadded as (Hid & _ & He & _).
  rewrite He, map_app. simpl.
  apply NoDup_app; [assumption|repeat constructor; now intros []|].
  intros i Hi [<-|[]].
  pose proof (next_id_above _ _ Hi). lia.
Qed.

End AfterRegistration.

Section LoginService.
Context {L : Type} {E : Env L}.

Lemma login_unchanged u p (w : World L) : snd (authService.login u p w) = w.
Proof.
  unfold authService.login, authService.login_body, bind,
    Login_findByUsername, Entity.findByPk, return_, ret.
  repeat (break_inner; cbn [fst snd]);
    repeat match goal with
           | H : (_, _) = (_, _) |- _ => inversion H; clear H; subst
           end; reflexivity.
Qed.

(** login on tables where the username's row and its entity
    are found. *)
Lemma login_found u p r e (w : World L) :
  truthy u = true -> truthy p = true ->
  find (Login.has_id u) (login (db w)) = Some r ->
  l_password r = hashPassword p ->
  find (fun x => e_id x =? l_entity_id r) (entity (db w)) = Some e ->
  authService.login u p w =
  (Success (generateToken (e_id e) u (e_path e))
           {| sum_id := e_id e; sum_path := e_path e; sum_username := u |},
   w).
Proof.
  intros Hu Hp Hr Hpw He.
  unfold authService.login, authService.login_body, bind,
    Login_findByUsername, Entity.findByPk, verifyPassword.
  cbv beta iota delta [view]. cbn [tx]. rewrite Hu, Hp. cbn [negb orb ret].
  rewrite Hr, Hpw, String.eqb_refl. cbn [negb]. rewrite He. reflexivity.
Qed.

End LoginService.

(** X8. After a successful registration with a secret, login with the same
    username and password succeeds and names the same entity; it changes
    nothing. *)
Theorem login_after_register {L} {E : Env L} (s u p : string)
    (w w' : World L) (token : string) (summary : EntitySummary) :
  truthy s = true ->
  register s u p w = (Success token summary, w') ->
  authService.login u p w' =
  (Success (generateToken (sum_id summary) u (sum_path summary)) summary,
   w').
Proof.
  intros Hs Hrun. pose proof (register_outcome s u p w Hs) as H.
  rewrite Hrun in H.
  destruct H as (_ & (Hu & _ & Hp) & Hfresh & _ & e & -> & _ & Hadd).
  cbn [sum_id sum_path].
  apply login_found with (r := new_login u (hashPassword p)
                                         (normalizeSecretHash s) e);
    try assumption; try reflexivity.
  - now apply (registered_login_found _ _ _ _ _ _ Hadd).
  - apply (registered_entity_found _ _ _ _ _ _ Hadd).
Qed.

Section SecretLogin.
Context {L : Type} {E : Env L}.

Lemma loginWithSecret_unchanged s (w : World L) :
  snd (authService.loginWithSecret s w) = w.
Proof.
  unfold authService.loginWithSecret, authService.loginWithSecret_body,
    authService.loginWithSecret_pathchain, bind, Login_findBySecret,
    Login.findOne, Entity.findByPk, Entity.findOne, getSecret, pc_read,
    return_, ret.
  repeat (break_inner; cbn [fst snd]);
    repeat match goal with
           | H : (_, _) = (_, _) |- _ => inversion H; clear H; subst
           end; reflexivity.
Qed.

Lemma loginWithSecret_found s r e (w : World L) :
  truthy s = true ->
  find (has_secret (normalizeSecretHash s)) (login (db w)) = Some r ->
  find (fun x => e_id x =? l_entity_id r) (entity (db w)) = Some e ->
  authService.loginWithSecret s w =
  (Success (generateToken (e_id e) (l_id r) (e_path e))
           {| sum_id := e_id e; sum_path := e_path e;
              sum_username := l_id r |}, w).
Proof.
  intros Hs Hr He.
  unfold authService.loginWithSecret, authService.loginWithSecret_body, bind,
    Login_findBySecret, Entity.findByPk.
  cbv beta iota delta [view]. cbn [tx]. rewrite Hs. cbn [negb ret].
  rewrite Hr. cbn [ret]. rewrite He. reflexivity.
Qed.

End SecretLogin.

(** X11. After a successful registration with a secret that no earlier login
    row carries, loginWithSecret with that secret logs in as the user who
    registered with it; it changes nothing. *)
Theorem secret_login_after_register {L} {E : Env L} (s u p : string)
    (w w' : World L) (token : string) (summary : EntitySummary) :
  truthy s = true ->
  (forall r, In r (login (db w)) ->
             has_secret (normalizeSecretHash s) r = false) ->
  register s u p w = (Success token summary, w') ->
  authService.loginWithSecret s w' =
  (Success (generateToken (sum_id summary) u (sum_path summary)) summary,
   w').
Proof.
  intros Hs Hnone Hrun. pose proof (register_outcome s u p w Hs) as H.
  rewrite Hrun in H.
  destruct H as (_ & _ & _ & Hn & e & -> & _ & Hadd).
  cbn [sum_id sum_path].
  rewrite (loginWithSecret_found s
             (new_login u (hashPassword p) (normalizeSecretHash s) e) e w' Hs).
  - reflexivity.
  - now apply (registered_secret_found _ _ _ _ _ _ Hadd).
  - apply (registered_entity_found _ _ _ _ _ _ Hadd).
Qed.

Section Verify.
Context {L : Type}.

Lemma verifyToken_found i j e l (w : World L) :
  i <> 0 ->
  find (fun x => e_id x =? i) (entity (db w)) = Some e ->
  find (fun x => l_entity_id x =? i) (login (db w)) = Some l ->
  authController.verifyToken {| p_entityId := i; p_id := j |} w =
  ({| status := 200;
      body := VerifyBody "Token is valid" (e_id e) (l_id l) (e_id e) |}, w).
Proof.
  intros Hi He Hl. apply Nat.eqb_neq in Hi.
  unfold authController.verifyToken, authController.verifyToken_body, bind,
    Entity.findByPk, Login.findOne.
  cbv beta iota delta [view]. cbn [tx p_entityId p_id]. rewrite Hi.
  cbn [ret]. rewrite Hi. cbn [ret]. rewrite He, Hl. reflexivity.
Qed.

Lemma verifyToken_no_login i j e (w : World L) :
  i <> 0 ->
  find (fun x => e_id x =? i) (entity (db w)) = Some e ->
  find (fun x => l_entity_id x =? i) (login (db w)) = None ->
  authController.verifyToken {| p_entityId := i; p_id := j |} w =
  ({| status := 401;
      body := ErrorBody 40104
                "Login record no longer exists. Please register again." |},
   w).
Proof.
  intros Hi He Hl. apply Nat.eqb_neq in Hi.
  unfold authController.verifyToken, authController.verifyToken_body, bind,
    Entity.findByPk, Login.findOne.
  cbv beta iota delta [view]. cbn [tx p_entityId p_id]. rewrite Hi.
  cbn [ret]. rewrite Hi. cbn [ret]. rewrite He, Hl. reflexivity.
Qed.

End Verify.

(** X23. On tables where every login row belongs to an entity row, the token
    of a successful registration with a secret verifies: verifyToken finds
    the entity and its login row and names the user. The tables after the
    registration have the same property. *)
Theorem token_verifies_after_register {L} {E : Env L} (s u p : string)
    (w w' : World L) (token : string) (summary : EntitySummary) :
  truthy s = true ->
  references_ok (db w) ->
  register s u p w = (Success token summary, w') ->
  authController.verifyToken
    {| p_entityId := sum_id summary; p_id := 0 |} w' =
  ({| status := 200;
      body := VerifyBody "Token is valid" (sum_id summary) u
                         (sum_id summary) |}, w') /\
  references_ok (db w').
Proof.
  intros Hs Hrefs Hrun. pose proof (register_outcome s u p w Hs) as H.
  rewrite Hrun in H.
  destruct H as (_ & _ & _ & _ & e & -> & _ & Hadd).
  cbn [sum_id sum_path].
  split; [|apply (registered_references_ok _ _ _ _ _ _ Hadd Hrefs)].
  rewrite (verifyToken_found (e_id e) 0 e
             (new_login u (hashPassword p) (normalizeSecretHash s) e) w').
  - reflexivity.
  - destruct Hadd as (-> & _). discriminate.
  - apply (registered_entity_found _ _ _ _ _ _ Hadd).
  - now apply (registered_owner_found _ _ _ _ _ _ Hadd).
Qed.

(** X12. On tables where every login row belongs to an entity row,
    getUserInfo of the id a successful registration with a secret returned
    gives the new entity row and the username, and changes nothing. *)
Theorem user_info_after_register {L} {E : Env L} (s u p : string)
    (w w' : World L) (token : string) (summary : EntitySummary) :
  truthy s = true ->
  references_ok (db w) ->
  register s u p w = (Success token summary, w') ->
  exists row,
    authService.getUserInfo (sum_id summary) w' =
    (FetchOk row (Some {| li_id := u; li_entity_id := sum_id summary |}),
     w') /\
    e_id row = sum_id summary /\ e_path row = sum_path summary /\
    exists a, In a (entity (db w)) /\ e_ancestor_id row = Some (e_id a).
Proof.
  intros Hs Hrefs Hrun. pose proof (register_outcome s u p w Hs) as H.
  rewrite Hrun in H.
  destruct H as (_ & _ & _ & _ & e & -> & _ & Hadd).
  cbn [sum_id sum_path]. exists e.
  split; [|split; [reflexivity|split; [reflexivity|apply Hadd]]].
  unfold authService.getUserInfo, fetchEntityInfo, fetchEntityInfo_body.
  assert (Hid : exists k, e_id e = S k).
  { destruct Hadd as (-> & _). unfold next_id. eauto. }
  destruct Hid as [k Hk]. rewrite Hk.
  unfold bind, Entity.findByPk, Login.findOne.
  cbv beta iota delta [view]. cbn [tx]. rewrite <- Hk.
  rewrite (registered_entity_found _ _ _ _ _ _ Hadd).
  rewrite (registered_owner_found _ _ _ _ _ _ Hadd Hrefs).
  reflexivity.
Qed.

(* ------------------------------------------------------------------ *)
(** ** The first user *)

Section FirstUser.
Context {L : Type} {E : Env L}.

(** What the branch without secret leaves when it goes on: a new root
    row, and the login table as it was. *)
Lemma register_bootstrap_tables (w : World L) :
  match register_bootstrap w with
  | (Val e, w') =>
      roots (db w) = [] /\
      e_ancestor_id e = None /\
      e_id e = next_id (map e_id (entity (db w))) /\
      entity (db w') = (entity (db w) ++ [e])%list /\
      login (db w') = login (db w)
  | (Ret (Success _ _), _) => False
  | _ => True
  end.
Proof.
  destruct (Entity.lowest_id (roots (db w))) as [r|] eqn:Hroot.
  - unfold register_bootstrap, bind, Entity.findPioneer.
    cbv beta iota delta [view]. cbn [tx]. unfold roots in Hroot.
    rewrite Hroot. exact I.
  - pose proof (lowest_id_none _ Hroot) as Hnil.
    unfold register_bootstrap, initializeSystem, pioneer_secret_hash,
      Secret.markAsUsed, Secret.save, new_Date, call, try_catch, bind,
      Entity.findPioneer, Entity.create, Secret.findByPath, Secret.findOne,
      Secret.create, createPioneer, getPioneer, getSecret, pc_write, pc_read,
      fs_secretFiles, throw, ret, return_, log_effect, store, view.
    unfold roots in Hroot. rewrite Hroot.
    cbn [db tx ledger clock journal entity secret login].
    repeat (break_inner;
            cbn [db tx ledger clock journal entity secret login fst snd
                 init_isNew init_pioneer init_secret e_ancestor_id e_id
                 negb] in *);
      try exact I; try discriminate.
    all: repeat match goal with
                | H : (_, _) = (_, _) |- _ => inversion H; clear H; subst
                end;
         cbn [db tx ledger clock journal entity secret login fst snd
              init_isNew init_pioneer init_secret e_ancestor_id e_id] in *;
         try discriminate; auto.
Qed.

End FirstUser.

Section Status.
Context {L : Type} {E : Env L}.

Lemma getSystemStatus_eq (w : World L) :
  authService.getSystemStatus w =
  (StatusOk match Entity.lowest_id (roots (db w)) with
            | Some _ => true
            | None => false
            end
            (option_map (fun r => (e_id r, e_path r))
                        (Entity.lowest_id (roots (db w))))
            (List.length (entity (db w))) (List.length (login (db w)))
            (List.length (secret (db w))) isAvailable, w).
Proof. reflexivity. Qed.

End Status.

(** X9. The registration without secret that creates the pioneer makes no
    login row: it answers with the new root entity, which isPioneer and
    getSystemStatus then report as the pioneer, and login with the same
    username and password is refused with INVALID_CREDENTIALS. *)
Theorem first_user_has_no_login {L} {E : Env L} (s u p : string)
    (w w' : World L) (token : string) (summary : EntitySummary) :
  truthy s = false ->
  register s u p w = (Success token summary, w') ->
  login (db w') = login (db w) /\
  (exists e, entity (db w') = (entity (db w) ++ [e])%list /\
             Entity_isPioneer e = true /\
             summary = {| sum_id := e_id e; sum_path := e_path e;
                          sum_username := u |}) /\
  (exists ne nl ns av,
     fst (authService.getSystemStatus w') =
     StatusOk true (Some (sum_id summary, sum_path summary)) ne nl ns av) /\
  authService.login u p w' =
  (failure INVALID_CREDENTIALS "Invalid username or password", w').
Proof.
  intros Hs Hrun.
  destruct (register_validation s u p w) as [[Hreq Hfresh]|(c & msg & Hf & _)];
    [|rewrite Hf in Hrun; discriminate Hrun].
  rewrite (register_branch u p w Hreq Hfresh s), Hs in Hrun. cbn [negb] in Hrun.
  pose proof (register_bootstrap_tables w) as H.
  destruct (register_bootstrap w) as [[e|[t sm|err]|msg] w1];
    cbn [register_answer] in Hrun; try contradiction;
    inversion Hrun; subst; clear Hrun.
  destruct H as (Hnil & Hroot & _ & He & Hl).
  split; [exact Hl|]. split; [|split].
  - exists e. split; [exact He|]. split; [|reflexivity].
    unfold Entity_isPioneer. now rewrite Hroot.
  - rewrite getSystemStatus_eq. cbn [fst sum_id sum_path].
    assert (Hr : roots (db w') = [e]).
    { unfold roots in *. rewrite He, filter_app, Hnil. simpl.
      unfold Entity.is_root. now rewrite Hroot. }
    rewrite Hr. simpl. eauto.
  - destruct Hreq as (Hu & _ & Hp).
    unfold authService.login, authService.login_body, bind,
      Login_findByUsername.
    cbv beta iota delta [view]. cbn [tx]. rewrite Hu, Hp. cbn [negb orb ret].
    rewrite Hl.
    assert (Hnone : find (Login.has_id u) (login (db w)) = None).
    { destruct (find _ _) as [r|] eqn:Hfind; [|reflexivity].
      apply find_some in Hfind as [Hin Hid].
      unfold fresh_username in Hfresh.
      now rewrite (existsb_false_In _ _ Hfresh r Hin) in Hid. }
    rewrite Hnone. reflexivity.
Qed.

(* ------------------------------------------------------------------ *)
(** ** The ancestor and the status after a registration *)

(** X13. On tables without id 0, getAncestorInfo of a newly registered entity
    takes the stored link: it answers with a row that was there before the
    registration and whose id is the new row's [ancestor_id], never with
    ANCESTOR_NOT_FOUND. *)
Theorem ancestor_after_register {L} {E : Env L} (s u p : string)
    (w w' : World L) (token : string) (summary : EntitySummary) :
  truthy s = true ->
  (forall r, In r (entity (db w)) -> e_id r <> 0) ->
  register s u p w = (Success token summary, w') ->
  exists e a data l,
    find (fun r => e_id r =? sum_id summary) (entity (db w')) = Some e /\
    getAncestorInfo (sum_id summary) w' = (AncestorOk a data l, w') /\
    In a (entity (db w)) /\
    e_ancestor_id e = Some (e_id a).
Proof.
  intros Hs Hpos Hrun. pose proof (register_outcome s u p w Hs) as H.
  rewrite Hrun in H.
  destruct H as (_ & _ & _ & _ & e & -> & _ & Hadd).
  cbn [sum_id]. exists e.
  pose proof (registered_entity_found _ _ _ _ _ _ Hadd) as Hfind.
  destruct Hadd as (Hid & (anc & Hanc & Hlink) & He & _).
  assert (Hk : exists k, e_id e = S k) by (rewrite Hid; unfold next_id; eauto).
  destruct Hk as [k Hk].
  (* the row the link leads to *)
  destruct (find (fun r => e_id r =? e_id anc) (entity (db w)))
    as [a|] eqn:Ha.
  2:{ exfalso. apply (find_none _ _ Ha) in Hanc.
      now rewrite Nat.eqb_refl in Hanc. }
  assert (Ha' : find (fun r => e_id r =? e_id anc) (entity (db w')) = Some a).
  { rewrite He. clear - Ha. induction (entity (db w)) as [|x l IH];
      simpl in *; [discriminate|].
    destruct (e_id x =? e_id anc); [assumption|now apply IH]. }
  apply find_some in Ha as [Hain Haid]. apply Nat.eqb_eq in Haid.
  assert (Hnz : exists j, e_id anc = S j).
  { specialize (Hpos anc Hanc). destruct (e_id anc); [contradiction|eauto]. }
  destruct Hnz as [j Hj].
  assert (Hlr : link_row w' e = Some a).
  { unfold link_row, ancestor_link. rewrite Hlink, Hj, <- Hj. exact Ha'. }
  assert (Ha'' : find (fun r => e_id r =? e_id a) (entity (db w')) = Some a)
    by (now rewrite Haid).
  destruct (fetchEntityInfo_found (e_id a) a w') as [l Hl];
    [rewrite Haid, Hj; discriminate|exact Ha''|].
  exists a, (pathchain_data a w'), l.
  split; [exact Hfind|]. split; [|split; [exact Hain|now rewrite Haid]].
  rewrite (surjective_pairing (getAncestorInfo (e_id e) w')).
  rewrite getAncestorInfo_unchanged. f_equal.
  rewrite Hk in *. rewrite (getAncestorInfo_eq k e w' Hfind), Hlr, Hl.
  reflexivity.
Qed.

(** X14. getSystemStatus counts a successful registration with a secret: one
    more entity, one more login, at most one more secret, and the same
    pioneer. *)
Theorem status_after_register {L} {E : Env L} (s u p : string)
    (w w' : World L) (token : string) (summary : EntitySummary)
    (i : bool) (pio : option (nat * string)) (ne nl ns : nat) (av : bool) :
  truthy s = true ->
  register s u p w = (Success token summary, w') ->
  fst (authService.getSystemStatus w) = StatusOk i pio ne nl ns av ->
  exists ns',
    authService.getSystemStatus w' =
      (StatusOk i pio (S ne) (S nl) ns' av, w') /\
    ns <= ns' <= S ns.
Proof.
  intros Hs Hrun Hst. pose proof (register_outcome s u p w Hs) as H.
  rewrite Hrun in H.
  destruct H as (_ & _ & _ & _ & e & _ & _ & Hadd).
  destruct Hadd as (_ & (anc & _ & Hlink) & He & Hl & _ & Hlen).
  rewrite getSystemStatus_eq in Hst. cbn [fst] in Hst.
  inversion Hst; subst; clear Hst.
  exists (List.length (secret (db w'))). split; [|exact Hlen].
  rewrite getSystemStatus_eq.
  assert (Hroots : roots (db w') = roots (db w)).
  { unfold roots. rewrite He, filter_app. simpl.
    unfold Entity.is_root. rewrite Hlink. apply app_nil_r. }
  rewrite Hroots, He, Hl, !length_app. simpl.
  rewrite !Nat.add_1_r. reflexivity.
Qed.

(* ------------------------------------------------------------------ *)
(** ** What register refuses before it looks at the secret *)

(** X3. register refuses a missing or too long username and a missing
    password with INVALID_REQUEST, and a username that has a login row
    with USERNAME_EXISTS, whatever the secret is; nothing is changed and
    PathChain is not called. *)
Theorem register_refuses_bad_credentials {L} {E : Env L} (s u p : string)
    (w : World L) :
  (truthy u = false \/ 255 < String.length u ->
   register s u p w =
   (failure INVALID_REQUEST
            "Username is required and must be max 255 characters", w)) /\
  (truthy u = true -> String.length u <= 255 -> truthy p = false ->
   register s u p w = (failure INVALID_REQUEST "Password is required", w)) /\
  (well_formed_request u p ->
   existsb (Login.has_id u) (login (db w)) = true ->
   register s u p w = (failure USERNAME_EXISTS "Username already exists", w)).
Proof.
  split; [|split].
  - intros H. unfold register, register_body. unfold bind at 1.
    assert (Hb : negb (truthy u) || (255 <? String.length u) = true).
    { destruct H as [->|H]; [reflexivity|].
      apply Nat.ltb_lt in H. rewrite H. apply orb_true_r. }
    rewrite Hb. reflexivity.
  - intros Hu Hlen Hp. apply Nat.ltb_ge in Hlen.
    unfold register, register_body. unfold bind at 1. rewrite Hu, Hlen.
    cbn [negb orb ret]. unfold bind at 1. rewrite Hp. reflexivity.
  - intros (Hu & Hlen & Hp) Hex. apply Nat.ltb_ge in Hlen.
    unfold register, register_body. unfold bind at 1. rewrite Hu, Hlen.
    cbn [negb orb ret]. unfold bind at 1. rewrite Hp. cbn [negb ret].
    unfold bind at 1. unfold Login.usernameExists.
    cbv beta iota delta [view]. cbn [tx].
    rewrite filter_length_existsb, Hex. reflexivity.
Qed.

Lemma normalizeSecretHash_blank a b :
  blank a = true -> blank b = true ->
  normalizeSecretHash (a ++ b) = "" /\
  normalizeSecretHash (a ++ "secrets/" ++ b) = "".
Proof.
  intros Ha Hb. split.
  - unfold normalizeSecretHash. destruct (truthy (a ++ b)); [|reflexivity].
    change (a ++ b) with (a ++ "" ++ b).
    rewrite (trim_padded a "" b Ha Hb eq_refl). reflexivity.
  - unfold normalizeSecretHash. rewrite truthy_app_r by reflexivity.
    change (a ++ "secrets/" ++ b) with (a ++ ("secrets/" ++ "") ++ b).
    rewrite (trim_padded a _ b Ha Hb (trim_secrets_prefix "" eq_refl)).
    reflexivity.
Qed.

(** X4. A secret that is only white space, or only ['secrets/'] with white
    space around it, is refused with INVALID_SECRET before PathChain or
    the tables are looked at, with or without PathChain. *)
Theorem register_refuses_blank_secret {L} {E : Env L} (a b u p : string)
    (w : World L) :
  blank a = true -> blank b = true ->
  well_formed_request u p -> fresh_username u w ->
  (truthy (a ++ b) = true ->
   register (a ++ b) u p w =
   (failure INVALID_SECRET "Invalid secret format", w)) /\
  register (a ++ "secrets/" ++ b) u p w =
  (failure INVALID_SECRET "Invalid secret format", w).
Proof.
  intros Ha Hb Hreq Hfresh.
  destruct (normalizeSecretHash_blank a b Ha Hb) as [H1 H2].
  split.
  - intros Ht. rewrite (register_branch u p w Hreq Hfresh), Ht, H1.
    reflexivity.
  - rewrite (register_branch u p w Hreq Hfresh), H2.
    rewrite truthy_app_r by reflexivity. reflexivity.
Qed.

(* ------------------------------------------------------------------ *)
(** ** login *)

(** X6. login succeeds only with the password whose hash the username's
    login row stores, names the entity of that row, and never changes
    anything. *)
Theorem login_checks_password {L} {E : Env L} (u p : string) (w w' : World L)
    (token : string) (summary : EntitySummary) :
  authService.login u p w = (Success token summary, w') ->
  w' = w /\
  exists r e,
    find (Login.has_id u) (login (db w)) = Some r /\
    l_password r = hashPassword p /\
    find (fun x => e_id x =? l_entity_id r) (entity (db w)) = Some e /\
    summary = {| sum_id := e_id e; sum_path := e_path e;
                 sum_username := u |}.
Proof.
  intros Hrun. split.
  { rewrite <- (login_unchanged u p w), Hrun. reflexivity. }
  revert Hrun.
  unfold authService.login, authService.login_body, bind,
    Login_findByUsername, Entity.findByPk, verifyPassword, return_, ret.
  cbv beta iota delta [view]. cbn [tx].
  destruct (negb (truthy u) || negb (truthy p)); [discriminate|].
  destruct (find (Login.has_id u) (login (db w))) as [r|]; [|discriminate].
  destruct (String.eqb (hashPassword p) (l_password r)) eqn:Hpw;
    [|discriminate].
  cbn [negb].
  destruct (find _ (entity (db w))) as [e|] eqn:He; [|discriminate].
  intros H. inversion H; subst. apply String.eqb_eq in Hpw.
  exists r, e. auto.
Qed.

(** X7. An unknown username and a wrong password get the same answer from
    login. *)
Theorem login_failure_is_uniform {L} {E : Env L} (u p : string)
    (w : World L) :
  truthy u = true -> truthy p = true ->
  (forall r, find (Login.has_id u) (login (db w)) = Some r ->
             l_password r <> hashPassword p) ->
  authService.login u p w =
  (failure INVALID_CREDENTIALS "Invalid username or password", w).
Proof.
  intros Hu Hp Hwrong.
  unfold authService.login, authService.login_body, bind,
    Login_findByUsername, verifyPassword.
  cbv beta iota delta [view]. cbn [tx]. rewrite Hu, Hp. cbn [negb orb ret].
  destruct (find (Login.has_id u) (login (db w))) as [r|]; [|reflexivity].
  destruct (String.eqb (hashPassword p) (l_password r)) eqn:Hpw;
    [|reflexivity].
  apply String.eqb_eq in Hpw. exfalso. now apply (Hwrong r eq_refl).
Qed.

(* ------------------------------------------------------------------ *)
(** ** initializeSystem without PathChain *)

(** X15. Without PathChain and without a root row the system cannot be
    initialized: initializeSystem throws and changes nothing, its
    controller answers 500 with code 50001, and register with a secret
    answers DATABASE_ERROR. *)
Theorem initializeSystem_needs_pathchain {L} {E : Env L} (w : World L) :
  pathchain = None -> roots (db w) = [] ->
  initializeSystem_run w = (Threw "PathChain library not available", w) /\
  authController.initializeSystem w =
  ({| status := 500;
      body := ErrorBody 50001
        "Failed to initialize system: PathChain library not available" |},
   w) /\
  forall s u p,
    truthy (normalizeSecretHash s) = true ->
    well_formed_request u p -> fresh_username u w ->
    register s u p w =
    (failure DATABASE_ERROR "PathChain library not available", w).
Proof.
  intros Hp Hroots.
  assert (Hnone : Entity.lowest_id (roots (db w)) = None)
    by (now rewrite Hroots).
  pose proof (initializeSystem_unavailable w Hp Hnone) as Hinit.
  split; [|split].
  - unfold initializeSystem_run. now rewrite Hinit.
  - unfold authController.initializeSystem. now rewrite Hinit.
  - intros s u p Hs Hreq Hfresh.
    rewrite (register_dispatch_offline u p w Hreq Hfresh s Hs Hp).
    unfold register_offline, bind, Entity.findPioneer, call.
    cbv beta iota delta [view]. cbn [tx].
    unfold roots in Hnone. rewrite Hnone, Hinit. reflexivity.
Qed.

(* ------------------------------------------------------------------ *)
(** ** The Secret model *)

Lemma filter_unused_map (row' : SecretRow) (i o : nat) rows :
  Secret.isUsed row' = true ->
  filter (fun r => (s_owner_id r =? o) && negb (Secret.isUsed r))
         (map (fun r => if s_id r =? i then row' else r) rows)
  = filter (fun r => negb (s_id r =? i))
           (filter (fun r => (s_owner_id r =? o) && negb (Secret.isUsed r))
                   rows).
Proof.
  intros Hused. induction rows as [|r rows IH]; simpl; [reflexivity|].
  destruct (s_id r =? i) eqn:Hid.
  - rewrite Hused, andb_false_r.
    destruct ((s_owner_id r =? o) && negb (Secret.isUsed r)); simpl;
      [rewrite Hid; simpl|]; exact IH.
  - destruct ((s_owner_id r =? o) && negb (Secret.isUsed r)); simpl;
      [rewrite Hid; simpl; now rewrite IH|exact IH].
Qed.

(** X16. markAsUsed stamps the row with the current time and saves it: the
    row it returns is used, the rows with its id are no longer listed by
    findUnusedByOwner, and no other row changes its listing. When the
    UPDATE fails the tables are left as they were. *)
Theorem markAsUsed_unlists {L} {E : Env L} (row : SecretRow) (w : World L) :
  let w' := snd (Secret.markAsUsed (R:=unit) row w) in
  (db_fault OpSecretSave = false ->
   fst (Secret.markAsUsed (R:=unit) row w)
     = Val (Secret.set_used_at row (clock w)) /\
   Secret.isUsed (Secret.set_used_at row (clock w)) = true /\
   forall o unused,
     fst (Secret_findUnusedByOwner (R:=unit) o w) = Val unused ->
     fst (Secret_findUnusedByOwner (R:=unit) o w')
       = Val (filter (fun r => negb (s_id r =? s_id row)) unused)) /\
  (db_fault OpSecretSave = true ->
   fst (Secret.markAsUsed (R:=unit) row w) = Exn (db_error "UPDATE secret") /\
   db w' = db w).
Proof.
  unfold Secret.markAsUsed, Secret.save, new_Date, bind, ret,
    Secret_findUnusedByOwner.
  cbv beta iota delta [view store]. cbn [db tx clock fst snd].
  split; intros Hf; rewrite Hf; cbn [fst snd log_effect db secret].
  - split; [reflexivity|]. split; [reflexivity|].
    intros o unused Hu. inversion Hu; subst. f_equal.
    cbn [Secret.set_used_at s_id].
    now apply filter_unused_map.
  - split; reflexivity.
Qed.

(* ------------------------------------------------------------------ *)
(** ** checkSecret, its controller and register *)

(** X20. The controller of checkSecret always finds the error it reads: its
    own catch is never reached. It answers 200 with a valid secret, 400
    with INVALID_SECRET or INVALID_REQUEST, and 500 with DATABASE_ERROR,
    and changes nothing. *)
Theorem checkSecret_controller_answers {L} {E : Env L} (s : string)
    (w : World L) :
  snd (authController.checkSecret s w) = w /\
  let r := fst (authController.checkSecret s w) in
  (exists un, r = {| status := 200; body := CheckBody true un |}) \/
  (exists c msg,
     r = {| status := 400;
            body := CheckErrorBody (code_number c) msg |} /\
     (c = INVALID_SECRET \/ c = INVALID_REQUEST)) \/
  (exists msg,
     r = {| status := 500;
            body := CheckErrorBody (code_number DATABASE_ERROR) msg |}).
Proof.
  split.
  { unfold authController.checkSecret.
    pose proof (checkSecret_unchanged s w) as H.
    destruct (checkSecret s w) as [r w']. cbn [snd] in H. subst w'.
    destruct (negb (valid r)); [destruct (check_error r)|]; reflexivity. }
  unfold authController.checkSecret, checkSecret, checkSecret_body,
    isSecretUsed, getSecret, getObject, pc_read, try_catch, bind, ret,
    return_, isAvailable, check_failure, statusCode.
  repeat (break_inner;
          cbn [valid unused check_error negb fst snd code message
               code_number N.ltb N.compare] in *);
    repeat match goal with
           | H : (_, _) = (_, _) |- _ => inversion H; clear H; subst
           end;
    cbn [valid unused check_error negb fst snd code message] in *;
    try discriminate.
  all: try match goal with
           | H : N.ltb _ _ = _ |- _ => vm_compute in H; try discriminate H
           end.
  all: first
    [ left; eexists; reflexivity
    | right; left; exists INVALID_SECRET; eexists; split;
      [reflexivity|left; reflexivity]
    | right; left; exists INVALID_REQUEST; eexists; split;
      [reflexivity|right; reflexivity]
    | right; right; eexists; reflexivity ].
Qed.

(** X5. register and checkSecret look a secret up the same way: when
    checkSecret answers INVALID_SECRET, register with well-formed
    credentials answers INVALID_SECRET too and changes nothing; when
    checkSecret finds the secret valid and unused, register gets past
    the usage check and the lookup with an unused secret record. *)
Theorem register_follows_checkSecret {L} {E : Env L} (s u p : string)
    (w : World L) :
  well_formed_request u p -> fresh_username u w ->
  (forall err,
     check_error (fst (checkSecret s w)) = Some err ->
     code err = INVALID_SECRET ->
     exists msg, register s u p w = (failure INVALID_SECRET msg, w)) /\
  (fst (checkSecret s w)
     = {| valid := true; unused := true; check_error := None |} ->
   exists o,
     register_secret (normalizeSecretHash s) w = (Val o, w) /\
     o_used o = false).
Proof.
  intros Hreq Hfresh.
  rewrite (register_branch u p w Hreq Hfresh s).
  unfold checkSecret, checkSecret_body.
  destruct (truthy s); cbn [negb].
  2:{ split; [intros err H Hc|intros H]; cbn in H;
        inversion H; subst; discriminate. }
  destruct (truthy (normalizeSecretHash s)); cbn [negb].
  2:{ split; [intros err H Hc|intros H]; cbn in H;
        inversion H; subst; discriminate. }
  destruct isAvailable eqn:Hav; cbn [negb].
  2:{ split; [intros err H Hc|intros H]; cbn in H;
        inversion H; subst; discriminate. }
  generalize (normalizeSecretHash s). intros n.
  unfold register_online, register_secret, lookup_guarded,
    isSecretUsed, getSecret, getObject, pc_read, try_catch, bind, ret,
    return_, check_failure, failure.
  unfold isAvailable in Hav.
  destruct pathchain as [lib|]; [clear Hav|discriminate Hav].
  destruct (pc_isSecretUsed lib n (ledger w)) as [[[|]|us]|eu] eqn:HX;
    destruct (pc_getSecretObj lib n "" (ledger w)) as [[o1|s1|]|e1] eqn:HG;
    destruct (pc_getObj lib ("secrets/" ++ n) (ledger w))
      as [[o2|s2|]|e2] eqn:HO;
    repeat (cbn [unusable fst snd register_answer check_error valid unused];
            rewrite ?HX, ?HG, ?HO).
  all: split; [intros err H Hc|intros H];
       try (inversion H; subst; cbn [code] in *; try discriminate).
  all: try (eexists; reflexivity).
  all: try (eexists; split; [reflexivity|]).
  all: try match goal with
           | H : negb ?x = true |- ?x = false =>
               now apply negb_true_iff in H
           end.
Qed.

(* ------------------------------------------------------------------ *)
(** ** loginWithSecret, the controllers and the integrity of the tables *)

(** X10. loginWithSecret only ever opens a session for a login row of the
    tables and the entity row it belongs to, and never changes anything:
    neither the tables nor the ledger, so the secret is not consumed. *)
Theorem loginWithSecret_names_a_login_row {L} {E : Env L} (s : string)
    (w w' : World L) (token : string) (summary : EntitySummary) :
  authService.loginWithSecret s w = (Success token summary, w') ->
  w' = w /\
  exists r e,
    In r (login (db w)) /\ In e (entity (db w)) /\
    l_entity_id r = e_id e /\
    summary = {| sum_id := e_id e; sum_path := e_path e;
                 sum_username := l_id r |}.
Proof.
  intros Hrun. split.
  { rewrite <- (loginWithSecret_unchanged s w), Hrun. reflexivity. }
  revert Hrun.
  unfold authService.loginWithSecret, authService.loginWithSecret_body,
    authService.loginWithSecret_pathchain, bind, Login_findBySecret,
    Login.findOne, Entity.findByPk, Entity.findOne, getSecret, pc_read,
    return_, ret, failure.
  cbv beta iota delta [view]. cbn [tx].
  repeat (break_inner; cbn [fst snd] in *);
    repeat match goal with
           | H : (_, _) = (_, _) |- _ => inversion H; clear H; subst
           end;
    try discriminate.
  all: intros Hrun; inversion Hrun; subst; clear Hrun.
  all: repeat match goal with
              | H : find _ _ = Some _ |- _ =>
                  apply find_some in H; destruct H
              end.
  all: repeat match goal with
              | H : (_ =? _) = true |- _ => apply Nat.eqb_eq in H
              end.
  all: eexists; eexists; repeat split; eauto.
Qed.


(** X22. The controllers of the two queries by id answer 400 when the id is
    missing, and 500, not 404, when no entity row has the id; the
    ancestor query answers 400 when the entity has no ancestor row. *)
Theorem query_controllers_statuses {L} {E : Env L} (i : nat) (w : World L) :
  authController.getUserInfo 0 w =
  ({| status := 400; body := ErrorBody 40102 "Entity ID is required" |}, w) /\
  authController.getAncestorInfo 0 w =
  ({| status := 400; body := ErrorBody 40102 "Entity ID is required" |}, w) /\
  (i <> 0 ->
   find (fun r => e_id r =? i) (entity (db w)) = None ->
   authController.getUserInfo i w =
   ({| status := 500; body := ErrorBody 50005 "Entity not found" |}, w) /\
   authController.getAncestorInfo i w =
   ({| status := 500; body := ErrorBody 50005 "Entity not found" |}, w)) /\
  (forall e,
     i <> 0 ->
     find (fun r => e_id r =? i) (entity (db w)) = Some e ->
     (exists l, authController.getUserInfo i w =
                ({| status := 200; body := UserBody (FetchOk e l) |}, w)) /\
     (link_row w e = None -> fallback_row w e = None ->
      authController.getAncestorInfo i w =
      ({| status := 400;
          body := ErrorBody 40105 "Ancestor entity not found" |}, w))).
Proof.
  split; [reflexivity|]. split; [reflexivity|]. split.
  - intros Hi Hnone. destruct i as [|k]; [contradiction|].
    unfold authController.getUserInfo, authService.getUserInfo,
      authController.getAncestorInfo, fetchEntityInfo, fetchEntityInfo_body,
      getAncestorInfo, getAncestorInfo_body, bind, Entity.findByPk.
    cbv beta iota delta [view]. cbn [tx]. rewrite Hnone. split; reflexivity.
  - intros e Hi He. split.
    + destruct (fetchEntityInfo_found i e w Hi He) as [l Hl].
      exists l. unfold authController.getUserInfo, authService.getUserInfo.
      now rewrite Hl.
    + intros Hlink Hfall. destruct i as [|k]; [contradiction|].
      unfold authController.getAncestorInfo.
      pose proof (getAncestorInfo_eq k e w He) as Heq.
      pose proof (getAncestorInfo_unchanged (S k) w) as Hw.
      destruct (getAncestorInfo (S k) w) as [r w'].
      cbn [fst snd] in *. subst w'. rewrite Heq, Hlink, Hfall.
      reflexivity.
Qed.

(** X2. register with a secret keeps the tables well-formed, whether it
    succeeds or fails: entity ids stay distinct, usernames stay distinct,
    and every login row still belongs to an entity row. *)
Theorem register_keeps_integrity {L} {E : Env L} (s u p : string)
    (w : World L) :
  truthy s = true ->
  NoDup (map e_id (entity (db w))) ->
  NoDup (map l_id (login (db w))) ->
  references_ok (db w) ->
  let w' := snd (register s u p w) in
  NoDup (map e_id (entity (db w'))) /\
  NoDup (map l_id (login (db w'))) /\
  references_ok (db w').
Proof.
  intros Hs Hids Hnames Hrefs.
  pose proof (register_outcome s u p w Hs) as H.
  destruct (register s u p w) as [[token summary|err] w']; cbn [snd].
  2:{ destruct H as [[->|(e & Hid & He & Hl)] _]; [auto|].
      assert (Hids' : NoDup (map e_id (entity (db w')))).
      { rewrite He, map_app. simpl.
        apply NoDup_app; [assumption|repeat constructor; now intros []|].
        intros i Hi [<-|[]]. pose proof (next_id_above _ _ Hi). lia. }
      split; [exact Hids'|].
      destruct Hl as [Hl|(r & Hr1 & Hr2 & Hfresh & Hl)]; rewrite Hl.
      - split; [assumption|]. intros x Hx. rewrite Hl in Hx.
        rewrite He, map_app, in_app_iff. left. now apply Hrefs.
      - split.
        + rewrite map_app. simpl.
          apply NoDup_app; [assumption|repeat constructor; now intros []|].
          intros x Hx [<-|[]]. apply in_map_iff in Hx as (r0 & Hr0 & Hin).
          pose proof (existsb_false_In _ _ Hfresh r0 Hin) as Hno.
          unfold Login.has_id in Hno.
          rewrite Hr0, Hr1, String.eqb_refl in Hno. discriminate.
        + intros x Hx. rewrite Hl, in_app_iff in Hx.
          rewrite He, map_app, in_app_iff.
          destruct Hx as [Hx|[<-|[]]]; [left; now apply Hrefs|].
          right. left. now rewrite Hr2. }
  destruct H as (_ & _ & Hfresh & _ & e & _ & _ & Hadd).
  split; [apply (registered_ids_distinct _ _ _ _ _ _ Hadd Hids)|].
  split; [|apply (registered_references_ok _ _ _ _ _ _ Hadd Hrefs)].
  destruct Hadd as (_ & _ & _ & Hl & _). rewrite Hl, map_app. simpl.
  apply NoDup_app; [assumption|repeat constructor; now intros []|].
  intros x Hx [<-|[]]. apply in_map_iff in Hx as (r & Hr & Hin).
  unfold fresh_username in Hfresh.
  pose proof (existsb_false_In _ _ Hfresh r Hin) as Hno.
  unfold Login.has_id in Hno. rewrite Hr, String.eqb_refl in Hno.
  discriminate.
Qed.

(** X24. The middleware lets a request through only with a token that
    verifies, strips one leading ['Bearer '] and takes any other header
    whole, so ['Bearer ' + t] and [t] alone are treated alike; a token
    that does not verify is answered 401 with code 40104, and a missing
    or empty header 401 with code 40103. *)
Theorem authMiddleware_bearer (verifyToken : string -> option TokenPayload)
    (t : string) :
  authMiddleware verifyToken (Some ("Bearer " ++ t)) =
    match verifyToken t with
    | Some user => Next user
    | None => Answered {| status := 401;
                          body := ErrorBody 40104
                                    "Invalid or expired token" |}
    end /\
  (truthy t = true -> startsWith "Bearer " t = false ->
   authMiddleware verifyToken (Some t) =
   authMiddleware verifyToken (Some ("Bearer " ++ t))) /\
  (forall header user,
     authMiddleware verifyToken header = Next user ->
     exists token, verifyToken token = Some user) /\
  authMiddleware verifyToken None =
    Answered {| status := 401;
                body := ErrorBody 40103
                          "No authorization header provided" |} /\
  authMiddleware verifyToken (Some "") =
    Answered {| status := 401;
                body := ErrorBody 40103
                          "No authorization header provided" |}.
Proof.
  assert (H1 : authMiddleware verifyToken (Some ("Bearer " ++ t)) =
               match verifyToken t with
               | Some user => Next user
               | None => Answered {| status := 401;
                                     body := ErrorBody 40104
                                               "Invalid or expired token" |}
               end).
  { unfold authMiddleware, startsWith. cbn [append truthy].
    replace (prefix "Bearer " (String "B" (String "e" (String "a"
               (String "r" (String "e" (String "r" (String " " t))))))))
      with true by (destruct t; reflexivity).
    reflexivity. }
  split; [exact H1|]. split; [|split].
  - intros Ht Hp. rewrite H1. unfold authMiddleware. now rewrite Ht, Hp.
  - clear H1. intros header user. unfold authMiddleware.
    destruct header as [h|]; [|intros H; discriminate H].
    destruct (truthy h); [|intros H; discriminate H].
    match goal with
    | |- context [verifyToken ?x] => destruct (verifyToken x) as [d|] eqn:Hv
    end; intros H; [|discriminate H].
    inversion H; subst. eauto.
  - split; reflexivity.
Qed.

(* ------------------------------------------------------------------ *)
(** ** Instances *)

Ltac dave_registers H :=
  assert (H : register (E:=offline) "abc" "dave" "pw4" world_bootstrapped
              = (Success "jwt:dave:entities/abc" dave_summary, world_dave))
    by (vm_compute; reflexivity).


Lemma login_after_register_witness :
  truthy "abc" = true /\
  register (E:=offline) "abc" "dave" "pw4" world_bootstrapped
    = (Success "jwt:dave:entities/abc" dave_summary, world_dave) /\
  authService.login (E:=offline) "dave" "pw4" world_dave
    = (Success "jwt:dave:entities/abc" dave_summary, world_dave).
Proof.
  dave_registers Hrun.
  split; [reflexivity|]. split; [exact Hrun|].
  exact (@login_after_register _ offline "abc" "dave" "pw4"
           world_bootstrapped world_dave _ _ eq_refl Hrun).
Defined.

Lemma secret_login_after_register_witness :
  truthy "abc" = true /\
  (forall r, In r (login (db world_bootstrapped)) ->
             has_secret (normalizeSecretHash "abc") r = false) /\
  authService.loginWithSecret (E:=offline) "abc" world_dave
    = (Success "jwt:dave:entities/abc" dave_summary, world_dave).
Proof.
  dave_registers Hrun.
  assert (Hnone : forall r, In r (login (db world_bootstrapped)) ->
                            has_secret (normalizeSecretHash "abc") r = false)
    by (intros r []).
  split; [reflexivity|]. split; [exact Hnone|].
  exact (@secret_login_after_register _ offline "abc" "dave" "pw4"
           world_bootstrapped world_dave _ _ eq_refl Hnone Hrun).
Defined.

Lemma token_verifies_after_register_witness :
  truthy "abc" = true /\
  references_ok (db world_bootstrapped) /\
  authController.verifyToken {| p_entityId := 2; p_id := 0 |} world_dave
    = ({| status := 200;
          body := VerifyBody "Token is valid" 2 "dave" 2 |}, world_dave).
Proof.
  dave_registers Hrun.
  assert (Hrefs : references_ok (db world_bootstrapped)) by (intros r []).
  split; [reflexivity|]. split; [exact Hrefs|].
  exact (proj1 (@token_verifies_after_register _ offline "abc" "dave" "pw4"
                  world_bootstrapped world_dave _ _ eq_refl Hrefs Hrun)).
Defined.

Lemma user_info_after_register_witness :
  truthy "abc" = true /\
  references_ok (db world_bootstrapped) /\
  exists row,
    authService.getUserInfo 2 world_dave
      = (FetchOk row (Some {| li_id := "dave"; li_entity_id := 2 |}),
         world_dave) /\
    e_id row = 2 /\ e_path row = "entities/abc" /\
    exists a, In a (entity (db world_bootstrapped)) /\
              e_ancestor_id row = Some (e_id a).
Proof.
  dave_registers Hrun.
  assert (Hrefs : references_ok (db world_bootstrapped)) by (intros r []).
  split; [reflexivity|]. split; [exact Hrefs|].
  exact (@user_info_after_register _ offline "abc" "dave" "pw4"
           world_bootstrapped world_dave _ _ eq_refl Hrefs Hrun).
Defined.

Lemma first_user_has_no_login_witness :
  truthy "" = false /\
  authService.login (E:=online) "alice" "pw" world_bootstrapped
    = (failure INVALID_CREDENTIALS "Invalid username or password",
       world_bootstrapped).
Proof.
  assert (Hrun : register (E:=online) "" "alice" "pw" fresh_world
                 = (Success ("jwt:alice:entities/" ++ Ledger.digest 1)
                            {| sum_id := 1;
                               sum_path := "entities/" ++ Ledger.digest 1;
                               sum_username := "alice" |},
                    world_bootstrapped))
    by (vm_compute; reflexivity).
  split; [reflexivity|].
  exact (proj2 (proj2 (proj2
           (@first_user_has_no_login _ online "" "alice" "pw" fresh_world
              world_bootstrapped _ _ eq_refl Hrun)))).
Defined.

Lemma ancestor_after_register_witness :
  truthy "abc" = true /\
  (forall r, In r (entity (db world_bootstrapped)) -> e_id r <> 0) /\
  exists e a data l,
    find (fun r => e_id r =? 2) (entity (db world_dave)) = Some e /\
    getAncestorInfo (E:=offline) 2 world_dave = (AncestorOk a data l, world_dave) /\
    In a (entity (db world_bootstrapped)) /\
    e_ancestor_id e = Some (e_id a).
Proof.
  dave_registers Hrun.
  assert (Hpos : forall r, In r (entity (db world_bootstrapped)) ->
                           e_id r <> 0).
  { intros r [<-|[]]. discriminate. }
  split; [reflexivity|]. split; [exact Hpos|].
  exact (@ancestor_after_register _ offline "abc" "dave" "pw4"
           world_bootstrapped world_dave _ _ eq_refl Hpos Hrun).
Defined.

Lemma status_after_register_witness :
  truthy "abc" = true /\
  fst (authService.getSystemStatus (E:=offline) world_bootstrapped)
    = StatusOk true (Some (1, "entities/" ++ Ledger.digest 1)) 1 0 1 false /\
  exists ns',
    authService.getSystemStatus (E:=offline) world_dave
      = (StatusOk true (Some (1, "entities/" ++ Ledger.digest 1)) 2 1 ns'
                  false, world_dave) /\
    1 <= ns' <= 2.
Proof.
  dave_registers Hrun.
  assert (Hst : fst (authService.getSystemStatus (E:=offline)
                       world_bootstrapped)
                = StatusOk true (Some (1, "entities/" ++ Ledger.digest 1))
                           1 0 1 false) by reflexivity.
  split; [reflexivity|]. split; [exact Hst|].
  exact (@status_after_register _ offline "abc" "dave" "pw4"
           world_bootstrapped world_dave _ _ _ _ _ _ _ _ eq_refl Hrun Hst).
Defined.

Lemma normalizeSecretHash_both_forms_witness :
  blank " " = true /\ trim "abc" = "abc" /\
  normalizeSecretHash " secrets/abc " = "abc".
Proof.
  split; [reflexivity|]. split; [reflexivity|].
  exact (proj1 (normalizeSecretHash_both_forms " " " " "abc"
                  eq_refl eq_refl eq_refl)).
Defined.

Lemma extractHash_last_component_witness :
  no_slash "abc" = true /\ extractHash "entities/abc" = "abc".
Proof.
  split; [reflexivity|].
  exact (proj1 (extractHash_last_component "entities" "abc" eq_refl)).
Defined.

Lemma extractType_layouts_witness :
  In "secrets" type_names /\ extractType "secrets/abc" = "secrets".
Proof.
  assert (H : In "secrets" type_names) by (right; left; reflexivity).
  split; [exact H|].
  exact (proj1 (extractType_layouts "secrets" "" "abc" H)).
Defined.

Lemma register_refuses_blank_secret_witness :
  blank " " = true /\
  well_formed_request "zed" "pw" /\
  fresh_username "zed" world_bootstrapped /\
  register (E:=offline) " secrets/ " "zed" "pw" world_bootstrapped
    = (failure INVALID_SECRET "Invalid secret format", world_bootstrapped).
Proof.
  assert (Hreq : well_formed_request "zed" "pw")
    by (repeat split; vm_compute; lia).
  split; [reflexivity|]. split; [exact Hreq|]. split; [reflexivity|].
  exact (proj2 (@register_refuses_blank_secret _ offline " " " " "zed" "pw"
                  world_bootstrapped eq_refl eq_refl Hreq eq_refl)).
Defined.

Lemma login_checks_password_witness :
  authService.login (E:=offline) "dave" "pw4" world_dave
    = (Success "jwt:dave:entities/abc" dave_summary, world_dave) /\
  exists r e,
    find (Login.has_id "dave") (login (db world_dave)) = Some r /\
    l_password r = @hashPassword _ offline "pw4" /\
    find (fun x => e_id x =? l_entity_id r) (entity (db world_dave))
      = Some e /\
    dave_summary = {| sum_id := e_id e; sum_path := e_path e;
                      sum_username := "dave" |}.
Proof.
  assert (Hrun : authService.login (E:=offline) "dave" "pw4" world_dave
                 = (Success "jwt:dave:entities/abc" dave_summary, world_dave))
    by (vm_compute; reflexivity).
  split; [exact Hrun|].
  exact (proj2 (@login_checks_password _ offline "dave" "pw4" world_dave
                  world_dave _ _ Hrun)).
Defined.

Lemma login_failure_is_uniform_witness :
  truthy "dave" = true /\ truthy "guess" = true /\
  authService.login (E:=offline) "dave" "guess" world_dave
    = (failure INVALID_CREDENTIALS "Invalid username or password",
       world_dave).
Proof.
  assert (Hwrong : forall r,
             find (Login.has_id "dave") (login (db world_dave)) = Some r ->
             l_password r <> @hashPassword _ offline "guess").
  { intros r H. vm_compute in H. inversion H; subst. vm_compute.
    discriminate. }
  split; [reflexivity|]. split; [reflexivity|].
  exact (@login_failure_is_uniform _ offline "dave" "guess" world_dave
           eq_refl eq_refl Hwrong).
Defined.

Lemma initializeSystem_needs_pathchain_witness :
  @pathchain _ offline = None /\ roots (db fresh_world) = [] /\
  initializeSystem_run (E:=offline) fresh_world
    = (Threw "PathChain library not available", fresh_world).
Proof.
  split; [reflexivity|]. split; [reflexivity|].
  exact (proj1 (@initializeSystem_needs_pathchain _ offline fresh_world
                  eq_refl eq_refl)).
Defined.

Lemma register_follows_checkSecret_witness :
  well_formed_request "zed" "pw" /\
  fresh_username "zed" world_bootstrapped /\
  (fst (checkSecret (E:=online) S0 world_bootstrapped)
     = {| valid := true; unused := true; check_error := None |} ->
   exists o,
     register_secret (E:=online) (normalizeSecretHash S0) world_bootstrapped
       = (Val o, world_bootstrapped) /\
     o_used o = false).
Proof.
  assert (Hreq : well_formed_request "zed" "pw")
    by (repeat split; vm_compute; lia).
  split; [exact Hreq|]. split; [reflexivity|].
  exact (proj2 (@register_follows_checkSecret _ online S0 "zed" "pw"
                  world_bootstrapped Hreq eq_refl)).
Defined.

Lemma loginWithSecret_names_a_login_row_witness :
  authService.loginWithSecret (E:=offline) "abc" world_dave
    = (Success "jwt:dave:entities/abc" dave_summary, world_dave) /\
  exists r e,
    In r (login (db world_dave)) /\ In e (entity (db world_dave)) /\
    l_entity_id r = e_id e /\
    dave_summary = {| sum_id := e_id e; sum_path := e_path e;
                      sum_username := l_id r |}.
Proof.
  assert (Hrun : authService.loginWithSecret (E:=offline) "abc" world_dave
                 = (Success "jwt:dave:entities/abc" dave_summary, world_dave))
    by (vm_compute; reflexivity).
  split; [exact Hrun|].
  exact (proj2 (@loginWithSecret_names_a_login_row _ offline "abc" world_dave
                  world_dave _ _ Hrun)).
Defined.


Lemma register_keeps_integrity_witness :
  truthy "abc" = true /\
  NoDup (map e_id (entity (db world_bootstrapped))) /\
  NoDup (map l_id (login (db world_bootstrapped))) /\
  references_ok (db world_bootstrapped) /\
  references_ok
    (db (snd (register (E:=offline) "abc" "dave" "pw4" world_bootstrapped))).
Proof.
  assert (H1 : NoDup (map e_id (entity (db world_bootstrapped))))
    by (repeat constructor; simpl; tauto).
  assert (H2 : NoDup (map l_id (login (db world_bootstrapped))))
    by constructor.
  assert (H3 : references_ok (db world_bootstrapped)) by (intros r []).
  split; [reflexivity|]. split; [exact H1|]. split; [exact H2|].
  split; [exact H3|].
  exact (proj2 (proj2 (@register_keeps_integrity _ offline "abc" "dave" "pw4"
                         world_bootstrapped eq_refl H1 H2 H3))).
Defined.
